(** * Random-forest hyper-parameter search pipeline

    A shallow embedding of [machine-learning/scripts/2-rf_reg_random-cv.py]:
    the target encoder, the near-zero filter, the train/test partitioner, the
    cached randomized search and the entry point, together with the
    properties its specification states about them.

    Data frames are row-major tables of binary64 cells. The file system is a
    tree of directories and regular files, kept as a finite map from
    canonical keys (the names from the root down) to typed nodes; a path
    string is resolved to a key the way Linux does it, so that two spellings
    of one file are one entry. Live [DataFrame] objects sit in a heap so that
    in-place updates and aliasing are visible, and every call to an outside
    collaborator (pandas' reader, scikit-learn's splitter and search, joblib,
    [print]) is recorded in a trace. *)

From Stdlib Require Import ZArith List String Ascii Bool Lia Floats.
From stdpp Require Import base strings gmap list.

Local Open Scope string_scope.
Local Open Scope list_scope.

(** ** POSIX paths ([os.path]) *)

Module PosixPath.

Definition is_sep (c : ascii) : bool := Ascii.eqb c "/"%char.

Definition startswith_sep (s : string) : bool :=
  match s with
  | String c _ => is_sep c
  | EmptyString => false
  end.

Fixpoint endswith_sep (s : string) : bool :=
  match s with
  | EmptyString => false
  | String c EmptyString => is_sep c
  | String _ t => endswith_sep t
  end.

(** [os.path.join(a, b)] with two arguments: an absolute [b] discards [a];
    otherwise one separator is put between them unless [a] is empty or already
    ends with one. *)
Definition join (a b : string) : string :=
  if startswith_sep b then b
  else if String.eqb a "" || endswith_sep a then a +:+ b
  else a +:+ "/" +:+ b.

End PosixPath.

(** ** Exceptions and results *)

(** Python's exceptions, with what the script's callers can tell apart. A
    [KeyError] carries the label that was looked up. [KeyError_labels] is
    the [KeyError] pandas raises for a list of labels: its message names the
    labels that are no columns ("[...] not in index", or "None of [...] are
    in the [columns]" when none is), and the constructor carries those
    labels. [OSError] is the plain class (errno 36 is "File name too
    long"). *)
Inductive exn : Type :=
| AssertionError (msg : string)
| ValueError (msg : string)
| KeyError (key : string)
| KeyError_labels (missing : list string)
| FileNotFoundError (path : string)
| NotADirectoryError (path : string)
| IsADirectoryError (path : string)
| OSError (errno : Z) (path : string)
| IndexError (msg : string)
| UnpicklingError (msg : string)
| UnicodeDecodeError (msg : string)
| ParserError (msg : string)
| ReferenceError (loc : nat).

Inductive result (A : Type) : Type :=
| Ok (a : A)
| Raise (e : exn).

Arguments Ok {A} a.
Arguments Raise {A} e.

(** ** Path resolution

    What Linux does with a path string in [stat] and [open]: every component
    but the last must be a directory; a component [.] stays, [..] goes to the
    parent, and the root is its own parent; repeated separators count once; a
    trailing separator asks for a directory. A file is identified by its key,
    the list of names from the root down, so [rf_reg.pkl], [./rf_reg.pkl] and
    [sub/../rf_reg.pkl] are one file. The tree has directories and regular
    files only (no links), and every permission is granted. *)

Module Posix.

Inductive kind : Type := KDir | KFile.

(** The errors of path resolution; [NullByte] is Python's own refusal of a
    path with a null character. *)
Inductive path_error : Type := ENOENT | ENOTDIR | EISDIR | ENAMETOOLONG | NullByte.

#[global] Instance kind_eq_dec : EqDecision kind.
Proof. solve_decision. Defined.

#[global] Instance path_error_eq_dec : EqDecision path_error.
Proof. solve_decision. Defined.

Definition key : Type := list string.

Definition NAME_MAX : nat := 255.
Definition PATH_MAX : nat := 4096.

(** The pieces between separators, empty ones included. *)
Fixpoint split (s : string) : list string :=
  match s with
  | EmptyString => [""]
  | String c t =>
      if PosixPath.is_sep c then "" :: split t
      else
        match split t with
        | h :: r => String c h :: r
        | [] => [String c ""]
        end
  end.

Definition components (p : string) : list string := filter (fun c : string => c <> "") (split p).

Definition has_nul (p : string) : bool :=
  existsb (fun c : ascii => Ascii.eqb c Ascii.zero) (list_ascii_of_string p).

(** What is refused before any component is looked at. *)
Definition precheck (p : string) : option path_error :=
  if has_nul p then Some NullByte
  else if String.eqb p "" then Some ENOENT
  else if (PATH_MAX <=? String.length p)%nat then Some ENAMETOOLONG
  else None.

Definition is_dot (c : string) : bool := String.eqb c "." || String.eqb c "..".

Definition too_long (c : string) : bool := (NAME_MAX <? String.length c)%nat.

Fixpoint has_sep (s : string) : bool :=
  match s with
  | EmptyString => false
  | String c t => PosixPath.is_sep c || has_sep t
  end.

(** A name an entry of a directory can have: not empty, without separator
    and null character, not [.] or [..], at most [NAME_MAX] bytes. *)
Definition plain_name (f : string) : bool :=
  negb (String.eqb f "") && negb (has_sep f) && negb (has_nul f) && negb (is_dot f)
  && negb (too_long f).

(** [above k d]: the key [k] is [d] or a directory above it. *)
Fixpoint above (k d : key) : bool :=
  match k, d with
  | [], _ => true
  | a :: k', b :: d' => String.eqb a b && above k' d'
  | _ :: _, [] => false
  end.

(** The key a path names, by its spelling alone. *)
Definition step_key (cur : key) (c : string) : key :=
  if String.eqb c "." then cur
  else if String.eqb c ".." then removelast cur
  else cur ++ [c].

Section Resolve.

Variable cwd : key.

Definition start (p : string) : key := if PosixPath.startswith_sep p then [] else cwd.

Definition realpath (p : string) : key := fold_left step_key (components p) (start p).

(** [kind_at k] is what the tree has at key [k]. *)
Variable kind_at : key -> option kind.

(** From the directory [cur] along [c] to a directory. *)
Definition step (cur : key) (c : string) : path_error + key :=
  if is_dot c then inr (step_key cur c)
  else if too_long c then inl ENAMETOOLONG
  else
    match kind_at (cur ++ [c]) with
    | Some KDir => inr (cur ++ [c])
    | Some KFile => inl ENOTDIR
    | None => inl ENOENT
    end.

(** Along every component of [cs], each one leading to a directory. *)
Fixpoint walk (cur : key) (cs : list string) : path_error + key :=
  match cs with
  | [] => inr cur
  | c :: cs' =>
      match step cur c with
      | inr d => walk d cs'
      | inl e => inl e
      end
  end.

(** Along [c :: cs], the last component handled by [final]. *)
Fixpoint descend {A : Type} (final : key -> string -> path_error + A)
    (cur : key) (c : string) (cs : list string) : path_error + A :=
  match cs with
  | [] => final cur c
  | c' :: cs' =>
      match step cur c with
      | inr d => descend final d c' cs'
      | inl e => inl e
      end
  end.

(** The last component of a path that is looked up: with a trailing
    separator it has to be a directory. *)
Definition final_lookup (trailing : bool) (cur : key) (c : string) : path_error + (key * kind) :=
  if trailing then
    match step cur c with
    | inr d => inr (d, KDir)
    | inl e => inl e
    end
  else if is_dot c then inr (step_key cur c, KDir)
  else if too_long c then inl ENAMETOOLONG
  else
    match kind_at (cur ++ [c]) with
    | Some k => inr (cur ++ [c], k)
    | None => inl ENOENT
    end.

(** [stat(p)]: the key and kind of what [p] names. *)
Definition lookup (p : string) : path_error + (key * kind) :=
  match precheck p with
  | Some e => inl e
  | None =>
      match components p with
      | [] => inr (start p, KDir)
      | c :: cs => descend (final_lookup (PosixPath.endswith_sep p)) (start p) c cs
      end
  end.

(** The last component of a path that is opened for writing with
    [O_CREAT]: a directory, [.], [..] and a trailing separator are refused
    with [EISDIR]; anything else is created or truncated. *)
Definition final_create (trailing : bool) (cur : key) (c : string) : path_error + key :=
  if is_dot c || trailing then inl EISDIR
  else if too_long c then inl ENAMETOOLONG
  else
    match kind_at (cur ++ [c]) with
    | Some KDir => inl EISDIR
    | _ => inr (cur ++ [c])
    end.

(** [open(p, O_WRONLY | O_CREAT | O_TRUNC)]: the key that is written. *)
Definition slot (p : string) : path_error + key :=
  match precheck p with
  | Some e => inl e
  | None =>
      match components p with
      | [] => inl EISDIR
      | c :: cs => descend (final_create (PosixPath.endswith_sep p)) (start p) c cs
      end
  end.

End Resolve.

End Posix.

(** The exception Python raises for a failed [open] of [path]. *)
Definition os_exn (e : Posix.path_error) (path : string) : exn :=
  match e with
  | Posix.ENOENT => FileNotFoundError path
  | Posix.ENOTDIR => NotADirectoryError path
  | Posix.EISDIR => IsADirectoryError path
  | Posix.ENAMETOOLONG => OSError 36 path
  | Posix.NullByte => ValueError "embedded null byte"
  end.

(** *** Resolution on a small tree

    The tree [/tmp/lab/run] with the directories [out] and [sub], the files
    [file.txt], [out/f2] and [sub/new], and [sub] as the working directory.
    Each line gives a path, what [os.path.exists] answers, the error of
    opening it for reading (none when it opens) and the outcome of opening
    it for writing, as Linux answers them. *)

Fixpoint repeat_string (n : nat) (u : string) : string :=
  match n with
  | O => ""
  | S n' => u +:+ repeat_string n' u
  end.

Definition example_tree : list (Posix.key * Posix.kind) :=
  [ (["tmp"], Posix.KDir); (["tmp"; "lab"], Posix.KDir); (["tmp"; "lab"; "run"], Posix.KDir);
    (["tmp"; "lab"; "run"; "out"], Posix.KDir); (["tmp"; "lab"; "run"; "sub"], Posix.KDir);
    (["tmp"; "lab"; "run"; "file.txt"], Posix.KFile);
    (["tmp"; "lab"; "run"; "out"; "f2"], Posix.KFile);
    (["tmp"; "lab"; "run"; "sub"; "new"], Posix.KFile) ].

Definition example_kind_at (k : Posix.key) : option Posix.kind :=
  option_map snd (List.find (fun e : Posix.key * Posix.kind => bool_decide (fst e = k)) example_tree).

Definition example_cwd : Posix.key := ["tmp"; "lab"; "run"; "sub"].

Definition read_error (p : string) : option Posix.path_error :=
  match Posix.lookup example_cwd example_kind_at p with
  | inr (_, Posix.KFile) => None
  | inr (_, Posix.KDir) => Some Posix.EISDIR
  | inl e => Some e
  end.

Definition resolves_as
    (c : string * bool * option Posix.path_error * (Posix.path_error + Posix.key)) : bool :=
  let '(p, there, r, w) := c in
  bool_decide (match Posix.lookup example_cwd example_kind_at p with inr _ => true | inl _ => false end = there)
  && bool_decide (read_error p = r)
  && bool_decide (Posix.slot example_cwd example_kind_at p = w).

Example resolution_examples :
  forallb resolves_as
  [
    ("", false, Some Posix.ENOENT, inl Posix.ENOENT);
    (".", true, Some Posix.EISDIR, inl Posix.EISDIR);
    ("..", true, Some Posix.EISDIR, inl Posix.EISDIR);
    ("/", true, Some Posix.EISDIR, inl Posix.EISDIR);
    ("new", true, None, inr ["tmp"; "lab"; "run"; "sub"; "new"]);
    ("new/", false, Some Posix.ENOTDIR, inl Posix.EISDIR);
    ("new/.", false, Some Posix.ENOTDIR, inl Posix.ENOTDIR);
    ("new/..", false, Some Posix.ENOTDIR, inl Posix.ENOTDIR);
    ("new/x", false, Some Posix.ENOTDIR, inl Posix.ENOTDIR);
    ("./new2", false, Some Posix.ENOENT, inr ["tmp"; "lab"; "run"; "sub"; "new2"]);
    ("new2", false, Some Posix.ENOENT, inr ["tmp"; "lab"; "run"; "sub"; "new2"]);
    ("new2/", false, Some Posix.ENOENT, inl Posix.EISDIR);
    ("new2//", false, Some Posix.ENOENT, inl Posix.EISDIR);
    ("../out", true, Some Posix.EISDIR, inl Posix.EISDIR);
    ("../out/", true, Some Posix.EISDIR, inl Posix.EISDIR);
    ("../out/.", true, Some Posix.EISDIR, inl Posix.EISDIR);
    ("../out/..", true, Some Posix.EISDIR, inl Posix.EISDIR);
    ("../file.txt", true, None, inr ["tmp"; "lab"; "run"; "file.txt"]);
    ("../file.txt/", false, Some Posix.ENOTDIR, inl Posix.EISDIR);
    ("../file.txt/x", false, Some Posix.ENOTDIR, inl Posix.ENOTDIR);
    ("../file.txt/.", false, Some Posix.ENOTDIR, inl Posix.ENOTDIR);
    ("../file.txt/..", false, Some Posix.ENOTDIR, inl Posix.ENOTDIR);
    ("../file.txt/../out/z", false, Some Posix.ENOTDIR, inl Posix.ENOTDIR);
    ("../missing/x", false, Some Posix.ENOENT, inl Posix.ENOENT);
    ("../missing/", false, Some Posix.ENOENT, inl Posix.EISDIR);
    ("../missing/../out/y", false, Some Posix.ENOENT, inl Posix.ENOENT);
    ("../out/f2", true, None, inr ["tmp"; "lab"; "run"; "out"; "f2"]);
    ("../out//f2", true, None, inr ["tmp"; "lab"; "run"; "out"; "f2"]);
    ("../out/./f2", true, None, inr ["tmp"; "lab"; "run"; "out"; "f2"]);
    ("../out/f2/", false, Some Posix.ENOTDIR, inl Posix.EISDIR);
    ("../out/../out/f3", false, Some Posix.ENOENT, inr ["tmp"; "lab"; "run"; "out"; "f3"]);
    ("../sub/n4", false, Some Posix.ENOENT, inr ["tmp"; "lab"; "run"; "sub"; "n4"]);
    ("//tmp/lab/run/out/f5", false, Some Posix.ENOENT, inr ["tmp"; "lab"; "run"; "out"; "f5"]);
    ("/../tmp/lab/run/out/f6", false, Some Posix.ENOENT, inr ["tmp"; "lab"; "run"; "out"; "f6"]);
    ("../out/f2/.", false, Some Posix.ENOTDIR, inl Posix.ENOTDIR);
    ("/tmp/lab/run/sub/../out/f2", true, None, inr ["tmp"; "lab"; "run"; "out"; "f2"]);
    ("../../run/sub/new", true, None, inr ["tmp"; "lab"; "run"; "sub"; "new"]);
    (".//.///new", true, None, inr ["tmp"; "lab"; "run"; "sub"; "new"]);
    ("../../../../../tmp/lab/run/file.txt", true, None, inr ["tmp"; "lab"; "run"; "file.txt"]);
    ("rf_reg.pkl", false, Some Posix.ENOENT, inr ["tmp"; "lab"; "run"; "sub"; "rf_reg.pkl"]);
    ("./rf_reg.pkl", false, Some Posix.ENOENT, inr ["tmp"; "lab"; "run"; "sub"; "rf_reg.pkl"]);
    ("../sub/rf_reg.pkl", false, Some Posix.ENOENT, inr ["tmp"; "lab"; "run"; "sub"; "rf_reg.pkl"]);
    ((String "a" (String Ascii.zero "b")), false, Some Posix.NullByte, inl Posix.NullByte);
    ((repeat_string 255 "a"), false, Some Posix.ENOENT, inr ["tmp"; "lab"; "run"; "sub"; repeat_string 255 "a"]);
    ((repeat_string 256 "a"), false, Some Posix.ENAMETOOLONG, inl Posix.ENAMETOOLONG);
    (("missing/" +:+ repeat_string 256 "a"), false, Some Posix.ENOENT, inl Posix.ENOENT);
    (("../file.txt/" +:+ repeat_string 256 "a"), false, Some Posix.ENOTDIR, inl Posix.ENOTDIR);
    ((repeat_string 256 "a" +:+ "/x"), false, Some Posix.ENAMETOOLONG, inl Posix.ENAMETOOLONG);
    ((repeat_string 256 "a" +:+ "/"), false, Some Posix.ENAMETOOLONG, inl Posix.EISDIR);
    (("../out/" +:+ repeat_string 256 "a"), false, Some Posix.ENAMETOOLONG, inl Posix.ENAMETOOLONG);
    (("../out/" +:+ repeat_string 255 "a"), false, Some Posix.ENOENT, inr ["tmp"; "lab"; "run"; "out"; repeat_string 255 "a"]);
    ((repeat_string 2047 "./" +:+ "z"), false, Some Posix.ENOENT, inr ["tmp"; "lab"; "run"; "sub"; "z"]);
    ((repeat_string 2047 "./" +:+ "zz"), false, Some Posix.ENAMETOOLONG, inl Posix.ENAMETOOLONG);
    (("new" +:+ repeat_string 4001 "/"), false, Some Posix.ENOTDIR, inl Posix.EISDIR);
    ((repeat_string 4095 "/"), true, Some Posix.EISDIR, inl Posix.EISDIR);
    ((repeat_string 4096 "/"), false, Some Posix.ENAMETOOLONG, inl Posix.ENAMETOOLONG)
  ] = true.
Proof. vm_compute. reflexivity. Qed.


(** *** Facts about resolution *)

(** Two trees with the same directories. *)
Definition same_dirs (ka kb : Posix.key -> option Posix.kind) : Prop :=
  forall k : Posix.key, ka k = Some Posix.KDir <-> kb k = Some Posix.KDir.

Lemma same_dirs_sym (ka kb : Posix.key -> option Posix.kind) :
  same_dirs ka kb -> same_dirs kb ka.
Proof. intros H k. symmetry. apply H. Qed.

Lemma step_key_spec (ka : Posix.key -> option Posix.kind) (cur d : Posix.key) (c : string) :
  Posix.step ka cur c = inr d -> d = Posix.step_key cur c.
Proof.
  unfold Posix.step, Posix.is_dot, Posix.step_key.
  destruct (String.eqb c "."); cbn [orb]; [now intros [= <-]|].
  destruct (String.eqb c ".."); [now intros [= <-]|].
  destruct (Posix.too_long c); [discriminate|].
  destruct (ka (cur ++ [c])) as [[]|]; [|discriminate..]. now intros [= <-].
Qed.

Lemma step_same_dirs (ka kb : Posix.key -> option Posix.kind) (cur d : Posix.key) (c : string) :
  same_dirs ka kb -> Posix.step ka cur c = inr d -> Posix.step kb cur c = inr d.
Proof.
  intros Hs. unfold Posix.step.
  destruct (Posix.is_dot c); [trivial|].
  destruct (Posix.too_long c); [trivial|].
  destruct (ka (cur ++ [c])) as [[]|] eqn:E; [|discriminate..].
  apply Hs in E. now rewrite E.
Qed.

(** A resolution that succeeds ends in its last step. *)
Lemma descend_final {A : Type} (ka : Posix.key -> option Posix.kind)
    (final : Posix.key -> string -> Posix.path_error + A)
    (cs : list string) (cur : Posix.key) (c : string) (a : A) :
  Posix.descend ka final cur c cs = inr a ->
  exists (cur' : Posix.key) (c' : string), final cur' c' = inr a.
Proof.
  revert cur c. induction cs as [|c' cs IH]; intros cur c; cbn [Posix.descend].
  - eauto.
  - destruct (Posix.step ka cur c); [discriminate|]. apply IH.
Qed.

(** The key a resolution ends in is the one the spelling gives. *)
Lemma descend_key {A : Type} (ka : Posix.key -> option Posix.kind)
    (final : Posix.key -> string -> Posix.path_error + A) (key_of : A -> Posix.key) :
  (forall (cur : Posix.key) (c : string) (a : A),
     final cur c = inr a -> key_of a = Posix.step_key cur c) ->
  forall (cs : list string) (cur : Posix.key) (c : string) (a : A),
    Posix.descend ka final cur c cs = inr a ->
    key_of a = fold_left Posix.step_key (c :: cs) cur.
Proof.
  intros Hfin cs. induction cs as [|c' cs IH]; intros cur c a; cbn [Posix.descend].
  - apply Hfin.
  - destruct (Posix.step ka cur c) as [e|d] eqn:E; [discriminate|].
    intros H. apply step_key_spec in E as ->. now apply IH in H.
Qed.

(** A resolution carries over to a tree with the same directories, as far
    as its last step does. *)
Lemma descend_transfer {A B : Type} (ka kb : Posix.key -> option Posix.kind)
    (fa : Posix.key -> string -> Posix.path_error + A)
    (fb : Posix.key -> string -> Posix.path_error + B)
    (P : A -> Prop) (Q : A -> B -> Prop) :
  same_dirs ka kb ->
  (forall (cur : Posix.key) (c : string) (a : A),
     fa cur c = inr a -> P a -> exists b : B, fb cur c = inr b /\ Q a b) ->
  forall (cs : list string) (cur : Posix.key) (c : string) (a : A),
    Posix.descend ka fa cur c cs = inr a -> P a ->
    exists b : B, Posix.descend kb fb cur c cs = inr b /\ Q a b.
Proof.
  intros Hs Hfin cs. induction cs as [|c' cs IH]; intros cur c a; cbn [Posix.descend].
  - apply Hfin.
  - destruct (Posix.step ka cur c) as [e|d] eqn:E; [discriminate|].
    rewrite (step_same_dirs ka kb _ _ _ Hs E). apply IH.
Qed.

Lemma final_create_inv (ka : Posix.key -> option Posix.kind) (trailing : bool)
    (cur k : Posix.key) (c : string) :
  Posix.final_create ka trailing cur c = inr k ->
  Posix.is_dot c = false /\ trailing = false /\ Posix.too_long c = false
  /\ ka (cur ++ [c]) <> Some Posix.KDir /\ k = cur ++ [c].
Proof.
  unfold Posix.final_create.
  destruct (Posix.is_dot c); cbn [orb]; [discriminate|].
  destruct trailing; [discriminate|].
  destruct (Posix.too_long c); [discriminate|].
  destruct (ka (cur ++ [c])) as [[]|]; [discriminate| |]; intros [= <-]; repeat split; discriminate.
Qed.

Lemma step_key_plain (cur : Posix.key) (c : string) :
  Posix.is_dot c = false -> Posix.step_key cur c = cur ++ [c].
Proof.
  unfold Posix.is_dot, Posix.step_key. intros H. apply orb_false_iff in H as [-> ->].
  reflexivity.
Qed.

Lemma final_lookup_inv (ka : Posix.key -> option Posix.kind) (trailing : bool)
    (cur k : Posix.key) (c : string) (kd : Posix.kind) :
  Posix.final_lookup ka trailing cur c = inr (k, kd) ->
  k = Posix.step_key cur c /\ (kd = Posix.KFile -> ka k = Some Posix.KFile).
Proof.
  unfold Posix.final_lookup. destruct trailing.
  - destruct (Posix.step ka cur c) as [e|d] eqn:E; [discriminate|].
    intros [= <- <-]. split; [now apply step_key_spec in E | discriminate].
  - destruct (Posix.is_dot c) eqn:Hd; [intros [= <- <-]; split; [reflexivity | discriminate]|].
    destruct (Posix.too_long c); [discriminate|].
    destruct (ka (cur ++ [c])) as [kd'|] eqn:E; [|discriminate].
    intros [= <- <-]. rewrite step_key_plain by assumption. split; [reflexivity|].
    now intros ->.
Qed.

Section ResolveFacts.

Variable cwd : Posix.key.

(** Opening for writing names the key the spelling gives, and no
    directory. *)
Lemma slot_key (ka : Posix.key -> option Posix.kind) (p : string) (k : Posix.key) :
  Posix.slot cwd ka p = inr k -> k = Posix.realpath cwd p /\ ka k <> Some Posix.KDir.
Proof.
  unfold Posix.slot, Posix.realpath. destruct (Posix.precheck p); [discriminate|].
  destruct (Posix.components p) as [|c cs]; [discriminate|]. intros H. split.
  - revert H. apply (descend_key ka _ (fun k : Posix.key => k)).
    intros cur c0 a Ha. apply final_create_inv in Ha as (Hd & _ & _ & _ & ->).
    now rewrite step_key_plain.
  - apply descend_final in H as (cur' & c' & H).
    now apply final_create_inv in H as (_ & _ & _ & Hk & ->).
Qed.

Lemma lookup_key (ka : Posix.key -> option Posix.kind) (p : string) (k : Posix.key)
    (kd : Posix.kind) :
  Posix.lookup cwd ka p = inr (k, kd) ->
  k = Posix.realpath cwd p /\ (kd = Posix.KFile -> ka k = Some Posix.KFile).
Proof.
  unfold Posix.lookup, Posix.realpath. destruct (Posix.precheck p); [discriminate|].
  destruct (Posix.components p) as [|c cs].
  - intros [= <- <-]. split; [reflexivity | discriminate].
  - intros H. split.
    + revert H. apply (descend_key ka _ (fun r : Posix.key * Posix.kind => fst r)).
      intros cur c0 [k0 kd0] Ha. now apply final_lookup_inv in Ha as [-> _].
    + apply descend_final in H as (cur' & c' & H).
      now apply final_lookup_inv in H as [_ H].
Qed.

(** Writing a regular file where there is no directory changes no
    resolution that succeeds. *)
Lemma slot_same_dirs (ka kb : Posix.key -> option Posix.kind) (p : string) (k : Posix.key) :
  same_dirs ka kb -> Posix.slot cwd ka p = inr k -> Posix.slot cwd kb p = inr k.
Proof.
  intros Hs. unfold Posix.slot. destruct (Posix.precheck p); [trivial|].
  destruct (Posix.components p) as [|c cs]; [trivial|]. intros H.
  assert (Hfin : forall (cur : Posix.key) (c0 : string) (a : Posix.key),
             Posix.final_create ka (PosixPath.endswith_sep p) cur c0 = inr a -> True ->
             exists b : Posix.key,
               Posix.final_create kb (PosixPath.endswith_sep p) cur c0 = inr b /\ a = b).
  { intros cur c0 a Ha _. exists a. split; [|reflexivity].
    apply final_create_inv in Ha as (Hd & Ht & Hl & Hk & ->).
    unfold Posix.final_create. rewrite Hd, Ht, Hl. cbn [orb].
    destruct (kb (cur ++ [c0])) as [[]|] eqn:E; [|reflexivity..].
    apply Hs in E. contradiction. }
  destruct (descend_transfer ka kb _ _ (fun _ => True) eq Hs Hfin cs _ c k H I)
    as (b & Hb & <-).
  exact Hb.
Qed.

Lemma slot_fails_same_dirs (ka kb : Posix.key -> option Posix.kind) (p : string)
    (e : Posix.path_error) :
  same_dirs ka kb -> Posix.slot cwd ka p = inl e ->
  exists e' : Posix.path_error, Posix.slot cwd kb p = inl e'.
Proof.
  intros Hs H. destruct (Posix.slot cwd kb p) as [e'|k] eqn:E; [eauto|].
  apply (slot_same_dirs kb ka) in E; [congruence | now apply same_dirs_sym].
Qed.

(** What has been opened for writing is found again as a regular file. *)
Lemma slot_lookup (ka kb : Posix.key -> option Posix.kind) (p : string) (k : Posix.key) :
  same_dirs ka kb -> kb k = Some Posix.KFile ->
  Posix.slot cwd ka p = inr k -> Posix.lookup cwd kb p = inr (k, Posix.KFile).
Proof.
  intros Hs Hk. unfold Posix.slot, Posix.lookup. destruct (Posix.precheck p); [discriminate|].
  destruct (Posix.components p) as [|c cs]; [discriminate|]. intros H.
  assert (Hfin : forall (cur : Posix.key) (c0 : string) (a : Posix.key),
             Posix.final_create ka (PosixPath.endswith_sep p) cur c0 = inr a ->
             kb a = Some Posix.KFile ->
             exists b : Posix.key * Posix.kind,
               Posix.final_lookup kb (PosixPath.endswith_sep p) cur c0 = inr b
               /\ b = (a, Posix.KFile)).
  { intros cur c0 a Ha Pa. exists (a, Posix.KFile). split; [|reflexivity].
    apply final_create_inv in Ha as (Hd & Ht & Hl & _ & ->).
    unfold Posix.final_lookup. now rewrite Ht, Hd, Hl, Pa. }
  destruct (descend_transfer ka kb _ _ (fun a => kb a = Some Posix.KFile)
              (fun a b => b = (a, Posix.KFile)) Hs Hfin cs _ c k H Hk) as (b & Hb & ->).
  exact Hb.
Qed.

(** A lookup is the same in a tree with the same directories that has the
    same thing at the key the path names. *)
Lemma lookup_same_dirs (ka kb : Posix.key -> option Posix.kind) (p : string) (k : Posix.key)
    (kd : Posix.kind) :
  same_dirs ka kb -> kb k = ka k ->
  Posix.lookup cwd ka p = inr (k, kd) -> Posix.lookup cwd kb p = inr (k, kd).
Proof.
  intros Hs Hk. unfold Posix.lookup. destruct (Posix.precheck p); [trivial|].
  destruct (Posix.components p) as [|c cs]; [trivial|]. intros H.
  assert (Hfin : forall (cur : Posix.key) (c0 : string) (a : Posix.key * Posix.kind),
             Posix.final_lookup ka (PosixPath.endswith_sep p) cur c0 = inr a ->
             kb (fst a) = ka (fst a) ->
             exists b : Posix.key * Posix.kind,
               Posix.final_lookup kb (PosixPath.endswith_sep p) cur c0 = inr b /\ b = a).
  { intros cur c0 a Ha Pa. exists a. split; [|reflexivity]. revert Ha.
    unfold Posix.final_lookup. destruct (PosixPath.endswith_sep p).
    - destruct (Posix.step ka cur c0) as [e|d] eqn:E; [discriminate|].
      now rewrite (step_same_dirs ka kb _ _ _ Hs E).
    - destruct (Posix.is_dot c0); [trivial|]. destruct (Posix.too_long c0); [trivial|].
      destruct (ka (cur ++ [c0])) as [k0|] eqn:E; [|discriminate].
      intros [= <-]. cbn [fst] in Pa. now rewrite Pa, E. }
  destruct (descend_transfer ka kb _ _ (fun a => kb (fst a) = ka (fst a))
              (fun a b => b = a) Hs Hfin cs _ c (k, kd) H Hk) as (b & Hb & ->).
  exact Hb.
Qed.

End ResolveFacts.

(** *** Paths below a directory *)

Lemma split_nonempty (s : string) : Posix.split s <> [].
Proof.
  induction s as [|c s IH]; cbn [Posix.split]; [discriminate|].
  destruct (PosixPath.is_sep c); [discriminate|]. destruct (Posix.split s); discriminate.
Qed.

Lemma split_app_sep (a b : string) :
  Posix.split (a +:+ String "/" b) = Posix.split a ++ Posix.split b.
Proof.
  induction a as [|c a IH]; [reflexivity|].
  change (String c a +:+ String "/" b) with (String c (a +:+ String "/" b)).
  cbn [Posix.split]. rewrite IH. destruct (PosixPath.is_sep c); [reflexivity|].
  pose proof (split_nonempty a). destruct (Posix.split a); [contradiction | reflexivity].
Qed.

Lemma split_plain (f : string) : Posix.has_sep f = false -> Posix.split f = [f].
Proof.
  induction f as [|c f IH]; [reflexivity|]. cbn [Posix.has_sep Posix.split]. intros H.
  apply orb_false_iff in H as [-> H]. now rewrite (IH H).
Qed.

Lemma list_ascii_app (a b : string) :
  list_ascii_of_string (a +:+ b) = list_ascii_of_string a ++ list_ascii_of_string b.
Proof.
  induction a as [|c a IH]; [reflexivity|].
  change (c :: list_ascii_of_string (a +:+ b)
          = c :: (list_ascii_of_string a ++ list_ascii_of_string b)).
  now rewrite IH.
Qed.

Lemma has_nul_app (a b : string) :
  Posix.has_nul (a +:+ b) = Posix.has_nul a || Posix.has_nul b.
Proof. unfold Posix.has_nul. now rewrite list_ascii_app, existsb_app. Qed.

Lemma startswith_sep_app (a b : string) :
  a <> "" -> PosixPath.startswith_sep (a +:+ b) = PosixPath.startswith_sep a.
Proof. now destruct a. Qed.

Lemma endswith_sep_app (a b : string) :
  b <> "" -> PosixPath.endswith_sep (a +:+ b) = PosixPath.endswith_sep b.
Proof.
  intros Hb. induction a as [|c a IH]; [reflexivity|].
  change (String c a +:+ b) with (String c (a +:+ b)).
  destruct (a +:+ b) as [|c' r] eqn:E; [|exact IH].
  destruct a; [|discriminate]. now contradiction Hb.
Qed.

Lemma endswith_sep_plain (f : string) :
  Posix.has_sep f = false -> PosixPath.endswith_sep f = false.
Proof.
  induction f as [|c f IH]; [reflexivity|]. cbn [Posix.has_sep]. intros H.
  apply orb_false_iff in H as [Hc H]. destruct f; [exact Hc | exact (IH H)].
Qed.

Lemma endswith_sep_inv (a : string) :
  PosixPath.endswith_sep a = true -> exists a' : string, a = a' +:+ "/".
Proof.
  induction a as [|c a IH]; [discriminate|]. destruct a as [|c' a'].
  - intros H. apply Ascii.eqb_eq in H as ->. now exists "".
  - intros H. destruct (IH H) as [a0 Ha]. exists (String c a0).
    change (String c a0 +:+ "/") with (String c (a0 +:+ "/")). now rewrite <- Ha.
Qed.

Lemma app_sep_assoc (a f : string) : (a +:+ "/") +:+ f = a +:+ String "/" f.
Proof.
  induction a as [|c a IH]; [reflexivity|].
  change (String c ((a +:+ "/") +:+ f) = String c (a +:+ String "/" f)). now rewrite IH.
Qed.

Lemma plain_name_inv (f : string) :
  Posix.plain_name f = true ->
  f <> "" /\ Posix.has_sep f = false /\ Posix.has_nul f = false /\ Posix.is_dot f = false
  /\ Posix.too_long f = false.
Proof.
  unfold Posix.plain_name. rewrite !andb_true_iff, !negb_true_iff.
  intros ((((H1 & H2) & H3) & H4) & H5). now apply String.eqb_neq in H1.
Qed.

(** A plain name joined to a directory path adds one component and keeps
    where the path starts. *)
Lemma join_plain (a f : string) :
  a <> "" -> Posix.plain_name f = true ->
  Posix.components (PosixPath.join a f) = Posix.components a ++ [f]
  /\ PosixPath.startswith_sep (PosixPath.join a f) = PosixPath.startswith_sep a
  /\ PosixPath.endswith_sep (PosixPath.join a f) = false
  /\ Posix.has_nul (PosixPath.join a f) = Posix.has_nul a.
Proof.
  intros Ha Hf. apply plain_name_inv in Hf as (Hne & Hsep & Hnul & _ & _).
  assert (Hs : PosixPath.startswith_sep f = false).
  { destruct f as [|c f']; [reflexivity|]. cbn [Posix.has_sep] in Hsep.
    now apply orb_false_iff in Hsep as [Hc _]. }
  assert (Hcf : filter (fun c : string => c <> "") [f] = [f]).
  { cbn [filter]. unfold filter, list_filter. now destruct (decide (f <> "")). }
  assert (Hend : forall x : string, PosixPath.endswith_sep (x +:+ f) = false).
  { intros x. rewrite endswith_sep_app by exact Hne. now apply endswith_sep_plain. }
  unfold PosixPath.join. rewrite Hs. apply String.eqb_neq in Ha as Ha'. rewrite Ha'.
  cbn [orb]. destruct (PosixPath.endswith_sep a) eqn:He.
  - destruct (endswith_sep_inv a He) as [a0 ->]. rewrite app_sep_assoc.
    repeat split.
    + unfold Posix.components.
      change (a0 +:+ "/") with (a0 +:+ String "/" "").
      rewrite !split_app_sep, (split_plain f Hsep), !filter_app, Hcf.
      change (filter (fun c : string => c <> "") (Posix.split "")) with (@nil string).
      now rewrite app_nil_r.
    + destruct a0; reflexivity.
    + rewrite <- app_sep_assoc. apply Hend.
    + change (a0 +:+ String "/" f) with (a0 +:+ ("/" +:+ f)).
      rewrite !has_nul_app, Hnul. change (Posix.has_nul "/") with false.
      now rewrite !orb_false_r.
  - change ("/" +:+ f) with (String "/" f). repeat split.
    + unfold Posix.components.
      now rewrite split_app_sep, (split_plain f Hsep), filter_app, Hcf.
    + now apply startswith_sep_app.
    + rewrite <- (app_sep_assoc a f). apply Hend.
    + change (String "/" f) with ("/" +:+ f).
      rewrite !has_nul_app, Hnul. change (Posix.has_nul "/") with false.
      now rewrite !orb_false_r.
Qed.

Lemma descend_snoc {A : Type} (ka : Posix.key -> option Posix.kind)
    (final : Posix.key -> string -> Posix.path_error + A) (f : string) (cs : list string) :
  forall (cur : Posix.key) (c : string) (cs0 : list string),
    c :: cs0 = cs ++ [f] ->
    Posix.descend ka final cur c cs0
    = match Posix.walk ka cur cs with
      | inr d => final d f
      | inl e => inl e
      end.
Proof.
  induction cs as [|a cs IH]; intros cur c cs0 E.
  - injection E as -> ->. reflexivity.
  - cbn [app] in E. injection E as -> ->.
    destruct (cs ++ [f]) as [|c' cs1] eqn:E'; [now destruct cs|].
    cbn [Posix.descend Posix.walk].
    destruct (Posix.step ka cur a) as [e|d]; [reflexivity|]. now apply IH.
Qed.

Lemma final_lookup_dir (ka : Posix.key -> option Posix.kind) (trailing : bool)
    (cur d : Posix.key) (c : string) :
  Posix.final_lookup ka trailing cur c = inr (d, Posix.KDir) -> Posix.step ka cur c = inr d.
Proof.
  unfold Posix.final_lookup, Posix.step. destruct trailing.
  - destruct (Posix.is_dot c); [now intros [= <-]|].
    destruct (Posix.too_long c); [discriminate|].
    destruct (ka (cur ++ [c])) as [[]|]; [|discriminate..]. now intros [= <-].
  - destruct (Posix.is_dot c); [now intros [= <-]|].
    destruct (Posix.too_long c); [discriminate|].
    destruct (ka (cur ++ [c])) as [[]|]; [|discriminate..]. now intros [= <-].
Qed.

Lemma descend_dir_walk (ka : Posix.key -> option Posix.kind) (trailing : bool)
    (d : Posix.key) (cs : list string) :
  forall (cur : Posix.key) (c : string),
    Posix.descend ka (Posix.final_lookup ka trailing) cur c cs = inr (d, Posix.KDir) ->
    Posix.walk ka cur (c :: cs) = inr d.
Proof.
  induction cs as [|c' cs IH]; intros cur c H; cbn [Posix.descend Posix.walk] in *.
  - now rewrite (final_lookup_dir _ _ _ _ _ H).
  - destruct (Posix.step ka cur c) as [e|d0]; [discriminate|]. now apply IH.
Qed.

Section BelowDirectory.

Variable cwd : Posix.key.

(** Inside a directory that exists, a plain name that is no directory can
    be opened for writing, and what is written is the entry of that name. *)
Lemma slot_join (ka : Posix.key -> option Posix.kind) (a f : string) (d : Posix.key) :
  Posix.lookup cwd ka a = inr (d, Posix.KDir) ->
  Posix.plain_name f = true ->
  String.length (PosixPath.join a f) < Posix.PATH_MAX ->
  ka (d ++ [f]) <> Some Posix.KDir ->
  Posix.slot cwd ka (PosixPath.join a f) = inr (d ++ [f]).
Proof.
  intros Hd Hf Hlen Hk. unfold Posix.lookup in Hd.
  destruct (Posix.precheck a) eqn:Hpre; [discriminate|].
  assert (Ha : Posix.has_nul a = false /\ a <> "").
  { unfold Posix.precheck in Hpre. destruct (Posix.has_nul a); [discriminate|].
    split; [reflexivity|]. intros ->. discriminate. }
  destruct Ha as [Hnul Ha].
  destruct (join_plain a f Ha Hf) as (Hc & Hs & He & Hn).
  assert (Hw : Posix.walk ka (Posix.start cwd a) (Posix.components a) = inr d).
  { destruct (Posix.components a) as [|c cs].
    - now injection Hd as ->.
    - now apply descend_dir_walk in Hd. }
  apply plain_name_inv in Hf as (_ & _ & _ & Hdot & Hlong).
  unfold Posix.slot, Posix.precheck. rewrite Hn, Hnul.
  assert (Hne : (PosixPath.join a f =? "")%string = false).
  { apply String.eqb_neq. intros E. rewrite E in Hc. now destruct (Posix.components a). }
  rewrite Hne. apply Nat.leb_gt in Hlen as Hlen'. rewrite Hlen'.
  destruct (Posix.components (PosixPath.join a f)) as [|c cs0] eqn:E;
    [now destruct (Posix.components a)|].
  rewrite (descend_snoc ka _ f (Posix.components a)) by (now rewrite <- Hc).
  unfold Posix.start. rewrite Hs. fold (Posix.start cwd a). rewrite Hw, He.
  unfold Posix.final_create. rewrite Hdot, Hlong. cbn [orb].
  destruct (ka (d ++ [f])) as [[]|]; [contradiction | reflexivity..].
Qed.

End BelowDirectory.

(** ** Tables, series and arrays *)

(** The two float literals of the filter, [1e-4] and [-1e-4], as the binary64
    values Python reads them to. *)
Definition tol : float := 0x1.a36e2eb1c432dp-14%float.
Definition neg_tol : float := (- 0x1.a36e2eb1c432dp-14)%float.

(** A row carries its index label and its cells in column order. *)
Definition row : Type := Z * list float.

Record DataFrame : Type := mkFrame {
  columns : list string;
  rows : list row
}.

(** A series is one labelled column; a boolean series is a mask. *)
Definition Series : Type := list (Z * float).
Definition Mask : Type := list (Z * bool).

(** A one-dimensional array, or a two-dimensional one with its number of
    columns (an array of shape [(0, 1)] has no rows and one column). *)
Inductive ndarray : Type :=
| Arr1 (v : list float)
| Arr2 (ncols : nat) (m : list (list float)).

(** Every row has one cell per column (all columns have equal length). *)
Definition wf_frame (d : DataFrame) : Prop :=
  Forall (fun r : row => length (snd r) = length (columns d)) (rows d).

Fixpoint index_of (c : string) (cols : list string) : option nat :=
  match cols with
  | [] => None
  | c' :: t => if String.eqb c c' then Some 0 else S <$> index_of c t
  end.

Definition cell (i : nat) (r : row) : float := nth i (snd r) nan.

(** [df[col]]: the column as a series, [KeyError] when there is none. *)
Definition frame_getitem (d : DataFrame) (col : string) : result Series :=
  match index_of col (columns d) with
  | Some i => Ok (map (fun r : row => (fst r, cell i r)) (rows d))
  | None => Raise (KeyError col)
  end.

Definition positions (cols : list string) (cs : list string) : option (list nat) :=
  mapM (fun c : string => index_of c cols) cs.

(** The distinct entries of a list, in the order of their first occurrence
    ([Index.unique]). *)
Fixpoint unique (l : list string) : list string :=
  match l with
  | [] => []
  | x :: t => x :: filter (fun y : string => y <> x) (unique t)
  end.

Definition missing_labels (cols : list string) (cs : list string) : list string :=
  unique (filter (fun c : string => c ∉ cols) cs).

(** [df[cols]] with a list of labels: a new frame with those columns; when
    some are no columns, pandas' [KeyError] about the missing ones. *)
Definition frame_getitems (d : DataFrame) (cs : list string) : result DataFrame :=
  match positions (columns d) cs with
  | Some ps => Ok (mkFrame cs (map (fun r : row => (fst r, map (fun i => cell i r) ps)) (rows d)))
  | None => Raise (KeyError_labels (missing_labels (columns d) cs))
  end.

(** [df[name] = s]: replaces the column when the label exists, appends it as
    the last column otherwise. The series comes from the same frame, so it is
    aligned row by row. *)
Definition frame_setitem (d : DataFrame) (name : string) (s : Series) : DataFrame :=
  match index_of name (columns d) with
  | Some i =>
      mkFrame (columns d)
        (zip_with (fun (r : row) (v : Z * float) => (fst r, <[i := snd v]> (snd r))) (rows d) s)
  | None =>
      mkFrame (columns d ++ [name])
        (zip_with (fun (r : row) (v : Z * float) => (fst r, snd r ++ [snd v])) (rows d) s)
  end.

(** [s.map(f)] *)
Definition series_map (f : float -> float) (s : Series) : Series :=
  map (fun v : Z * float => (fst v, f (snd v))) s.

(** [s <= c] and [s >= c], elementwise; [v >= c] is IEEE's [c <= v]. *)
Definition series_le (s : Series) (c : float) : Mask :=
  map (fun v : Z * float => (fst v, PrimFloat.leb (snd v) c)) s.

Definition series_ge (s : Series) (c : float) : Mask :=
  map (fun v : Z * float => (fst v, PrimFloat.leb c (snd v))) s.

(** [a | b] *)
Definition mask_or (a b : Mask) : Mask :=
  zip_with (fun (x y : Z * bool) => (fst x, snd x || snd y)) a b.

Fixpoint select_rows (rs : list row) (m : Mask) : list row :=
  match rs, m with
  | r :: rs', b :: m' => if snd b then r :: select_rows rs' m' else select_rows rs' m'
  | _, _ => []
  end.

(** [df.loc[mask]] with a boolean mask built from the frame itself. *)
Definition frame_loc (d : DataFrame) (m : Mask) : DataFrame :=
  mkFrame (columns d) (select_rows (rows d) m).

(** [s.values], [a.reshape(-1, 1)], [a.ravel()], [a.shape[0]], [a.shape] *)
Definition series_values (s : Series) : ndarray := Arr1 (map snd s).

Definition flat (a : ndarray) : list float :=
  match a with
  | Arr1 v => v
  | Arr2 _ m => concat m
  end.

Definition reshape_col (a : ndarray) : ndarray := Arr2 1 (map (fun x => [x]) (flat a)).

Definition ravel (a : ndarray) : ndarray := Arr1 (flat a).

Definition shape0 (a : ndarray) : nat :=
  match a with
  | Arr1 v => length v
  | Arr2 _ m => length m
  end.

Definition array_shape (a : ndarray) : list nat :=
  match a with
  | Arr1 v => [length v]
  | Arr2 ncols m => [length m; ncols]
  end.

Definition nrows (d : DataFrame) : nat := length (rows d).

Definition frame_shape (d : DataFrame) : list nat := [nrows d; length (columns d)].

(** ** scikit-learn's splitter

    A model of [sklearn.model_selection.train_test_split] on its default path
    (shuffled, not stratified, [train_size] left out): the two arrays must
    have one length; the test part gets [ceil(test_size * n)] samples and the
    train part the rest; a permutation of [range(n)] drawn from the seed is
    cut into the test indices (its first [n_test] entries) and the train
    indices (the next [n_train]); both arrays are indexed by position. The
    generator is a parameter: [permutation seed n] stands for
    [RandomState(seed).permutation(n)]. A failure carries the message of the
    [ValueError] scikit-learn raises. *)

Module Sklearn.

(** [math.ceil] of a binary64 value: exact on finite values, no result on
    nan and the infinities (Python raises there). *)
Definition ceil (x : float) : option Z :=
  match Prim2SF x with
  | S754_zero _ => Some 0%Z
  | S754_finite s m e =>
      Some (if s then - Z.shiftl (Z.pos m) e else - Z.shiftl (- Z.pos m) e)%Z
  | _ => None
  end.

Definition float_of_nat (n : nat) : float := of_uint63 (Uint63.of_Z (Z.of_nat n)).

(** [_validate_shuffle_split] with a float [test_size] and no [train_size]. *)
Definition validate_fraction (n : nat) (test_size : float) : string + (Z * Z) :=
  if PrimFloat.leb test_size 0%float || PrimFloat.leb 1%float test_size
  then inl "test_size should be a float in the (0, 1) range"
  else
    match ceil (test_size * float_of_nat n)%float with
    | None => inl "cannot convert float NaN to integer"
    | Some n_test =>
        let n_train := (Z.of_nat n - n_test)%Z in
        if (Z.of_nat n <? n_train + n_test)%Z
        then inl "The sum of train_size and test_size should be smaller than the number of samples"
        else if (n_train =? 0)%Z
        then inl "the resulting train set will be empty"
        else inr (n_train, n_test)
    end.

(** The same check as [ShuffleSplit] repeats it on the two integer sizes. *)
Definition validate_counts (n : nat) (n_train n_test : Z) : string + (Z * Z) :=
  if (Z.of_nat n <=? n_test)%Z || (n_test <=? 0)%Z
  then inl "test_size should be a positive integer smaller than the number of samples"
  else if (Z.of_nat n <=? n_train)%Z || (n_train <=? 0)%Z
  then inl "train_size should be a positive integer smaller than the number of samples"
  else if (Z.of_nat n <? n_train + n_test)%Z
  then inl "The sum of train_size and test_size should be smaller than the number of samples"
  else inr (n_train, n_test).

(** [_safe_indexing]: positional selection. *)
Definition take_rows {A : Type} (l : list A) (ind : list nat) : option (list A) :=
  mapM (fun i => l !! i) ind.

Definition index_array (a : ndarray) (ind : list nat) : option ndarray :=
  match a with
  | Arr1 v => Arr1 <$> take_rows v ind
  | Arr2 ncols m => Arr2 ncols <$> take_rows m ind
  end.

Definition train_test_split (permutation : Z -> nat -> list nat)
    (X : DataFrame) (Y : ndarray) (test_size : float) (random_state : Z)
  : string + (DataFrame * DataFrame * ndarray * ndarray) :=
  let n := nrows X in
  if negb (n =? shape0 Y)%nat
  then inl "Found input variables with inconsistent numbers of samples"
  else
    match validate_fraction n test_size with
    | inl msg => inl msg
    | inr (n_train0, n_test0) =>
        match validate_counts n n_train0 n_test0 with
        | inl msg => inl msg
        | inr (n_train, n_test) =>
            let perm := permutation random_state n in
            let ind_test := take (Z.to_nat n_test) perm in
            let ind_train := take (Z.to_nat n_train) (drop (Z.to_nat n_test) perm) in
            match take_rows (rows X) ind_train, take_rows (rows X) ind_test,
                  index_array Y ind_train, index_array Y ind_test with
            | Some xtr, Some xte, Some ytr, Some yte =>
                inr (mkFrame (columns X) xtr, mkFrame (columns X) xte, ytr, yte)
            | _, _, _, _ => inl "indices are out-of-bounds"
            end
        end
    end.

End Sklearn.

(** ** The search configuration *)

Inductive Model : Type :=
| RandomForestRegressor (rf_random_state : Z).

(** A parameter distribution: [scipy.stats.randint(low, high, loc)], a list
    of choices ([None] is a choice), or a [range(start, stop)]. *)
Inductive distribution : Type :=
| st_randint (low high loc : Z)
| choices (l : list (option string))
| range (start stop : Z).

Inductive CV : Type :=
| Folds (k : Z)
| KFold (n_splits : Z) (shuffle : bool).

(** The arguments [RandomizedSearchCV] is constructed with. *)
Record RandomizedSearchCV : Type := mkSearch {
  estimator : Model;
  param_distributions : list (string * distribution);
  cv : CV;
  n_iter : Z;
  n_jobs : Z;
  verbose : Z;
  scoring : string;
  random_state : Z;
  return_train_score : bool
}.

(** ** Calls to the outside world *)

Inductive event : Type :=
| EvReadCsv (path : string)
| EvSplit (X_columns : list string) (n_samples : nat) (test_size : float) (seed : Z)
| EvPrint (label : string) (shape : list nat)
| EvExists (path : string)
| EvFit (gs : RandomizedSearchCV) (n_samples : nat)
| EvDump (path : string)
| EvLoad (path : string).

Definition is_fit (e : event) : bool :=
  match e with
  | EvFit _ _ => true
  | _ => false
  end.

(** The number of searches fitted in a trace. *)
Definition fits (t : list event) : nat := length (List.filter is_fit t).

Definition SEED : Z := 17.
Definition TRAINING_DATA_DIR : string := PosixPath.join ".." "training-data".
Definition SAVE_DIR : string := PosixPath.join ".." "grid-search-results".

(** Closes a goal from a membership in an explicit list none of whose
    entries can be the element. *)
Ltac absurd_member H :=
  repeat (apply elem_of_cons in H as [H|H]; [discriminate|]);
  now apply elem_of_nil in H.

(** ** The pipeline *)

Section Pipeline.

Set Default Proof Using "Type".

(** The library collaborators the script calls: a fitted search object and
    the estimator it selected are opaque; [rscv_fit] is
    [RandomizedSearchCV(...).fit(X, Y)], [best_estimator_] the attribute of
    the fitted object, [train_test_split] scikit-learn's splitter (a failure
    is its [ValueError]) and [np_log] numpy's logarithm. *)
Variables FittedSearch Estimator : Type.
Variable rscv_fit : RandomizedSearchCV -> DataFrame -> ndarray -> result FittedSearch.
Variable best_estimator_ : FittedSearch -> Estimator.
Variable train_test_split :
  DataFrame -> ndarray -> float -> Z -> string + (DataFrame * DataFrame * ndarray * ndarray).
Variable np_log : float -> float.

(** The working directory of the process, as a key; the script never
    changes it. *)
Variable cwd : Posix.key.

(** What joblib pickles here. *)
Inductive pyobj : Type :=
| SearchObj (g : FittedSearch)
| EstimatorObj (e : Estimator).

(** What a reader of the other format raises on a file: [joblib.load] on the
    bytes of a CSV file and [pandas.read_csv] on the bytes of a pickle fail
    with whatever those bytes lead to. *)
Variable unpickle_failure : DataFrame -> exn.
Variable read_csv_failure : pyobj -> exn.

(** A key holds a directory, a pickle (with the object it deserialises to:
    joblib round-trips exactly) or a CSV file (with the table pandas reads
    from it). *)
Inductive node : Type :=
| Dir
| PickleFile (o : pyobj)
| CsvFile (t : DataFrame).

Record World : Type := mkWorld {
  fs : gmap Posix.key node;
  heap : list DataFrame;
  trace : list event
}.

(** Programs thread the world and may raise; what was done before an
    exception stays done. *)
Definition M (A : Type) : Type := World -> result A * World.

Definition ret {A : Type} (a : A) : M A := fun w => (Ok a, w).

Definition raise {A : Type} (e : exn) : M A := fun w => (Raise e, w).

Definition bind {A B : Type} (m : M A) (k : A -> M B) : M B :=
  fun w =>
    match m w with
    | (Ok a, w') => k a w'
    | (Raise e, w') => (Raise e, w')
    end.

Notation "x <- m ;; k" := (bind m (fun x => k))
  (at level 100, m at next level, right associativity).
Notation "m ;;; k" := (bind m (fun _ => k))
  (at level 100, right associativity).

Definition lift {A : Type} (r : result A) : M A := fun w => (r, w).

Definition emit (e : event) : M unit :=
  fun w => (Ok tt, mkWorld (fs w) (heap w) (trace w ++ [e])).

Fixpoint for_each {A : Type} (l : list A) (body : A -> M unit) : M unit :=
  match l with
  | [] => ret tt
  | a :: l' => body a ;;; for_each l' body
  end.

(** *** Objects *)

Definition alloc (d : DataFrame) : M nat :=
  fun w => (Ok (length (heap w)), mkWorld (fs w) (heap w ++ [d]) (trace w)).

(** A name always refers to a live object in the script; the error case only
    makes [deref] total. *)
Definition deref (l : nat) : M DataFrame :=
  fun w =>
    match heap w !! l with
    | Some d => (Ok d, w)
    | None => (Raise (ReferenceError l), w)
    end.

Definition assign (l : nat) (d : DataFrame) : M unit :=
  fun w => (Ok tt, mkWorld (fs w) (<[l := d]> (heap w)) (trace w)).

(** [df.copy()], [df[col]], [df.loc[mask]], [list(df)] on a live frame. *)
Definition frame_copy (df : nat) : M nat := d <- deref df ;; alloc d.

Definition getitem (df : nat) (col : string) : M Series :=
  d <- deref df ;; lift (frame_getitem d col).

Definition loc (df : nat) (m : Mask) : M nat := d <- deref df ;; alloc (frame_loc d m).

Definition column_list (df : nat) : M (list string) := d <- deref df ;; ret (columns d).

(** *** Files *)

(** What the tree has at a key. The working directory of a process is a
    directory, and so is every directory above it, whatever the map records
    there. *)
Definition kind_of (n : option node) : option Posix.kind :=
  match n with
  | Some Dir => Some Posix.KDir
  | Some _ => Some Posix.KFile
  | None => None
  end.

Definition kinds (w : World) (k : Posix.key) : option Posix.kind :=
  if Posix.above k cwd then Some Posix.KDir else kind_of (fs w !! k).

(** What a path resolves to in a world. *)

Definition lookup (w : World) (path : string) : Posix.path_error + (Posix.key * Posix.kind) :=
  Posix.lookup cwd (kinds w) path.

Definition slot (w : World) (path : string) : Posix.path_error + Posix.key :=
  Posix.slot cwd (kinds w) path.

(** [open(path, "rb")]: the regular file the path names. *)
Definition open_file (w : World) (path : string) : result node :=
  match lookup w path with
  | inl e => Raise (os_exn e path)
  | inr (_, Posix.KDir) => Raise (IsADirectoryError path)
  | inr (k, Posix.KFile) =>
      match fs w !! k with
      | Some n => Ok n
      | None => Raise (FileNotFoundError path)
      end
  end.

(** [os.path.exists(path)]: [stat] succeeds. *)
Definition path_exists (w : World) (path : string) : bool :=
  match lookup w path with
  | inr _ => true
  | inl _ => false
  end.

Definition pd_read_csv (path : string) : M nat :=
  emit (EvReadCsv path) ;;;
  fun w =>
    match open_file w path with
    | Ok (CsvFile t) => alloc t w
    | Ok (PickleFile o) => (Raise (read_csv_failure o), w)
    | Ok Dir => (Raise (IsADirectoryError path), w)
    | Raise e => (Raise e, w)
    end.

Definition os_path_exists (path : string) : M bool :=
  emit (EvExists path) ;;;
  fun w => (Ok (path_exists w path), w).

Definition joblib_load (path : string) : M pyobj :=
  emit (EvLoad path) ;;;
  fun w =>
    match open_file w path with
    | Ok (PickleFile o) => (Ok o, w)
    | Ok (CsvFile t) => (Raise (unpickle_failure t), w)
    | Ok Dir => (Raise (IsADirectoryError path), w)
    | Raise e => (Raise e, w)
    end.

(** [joblib.dump(o, path)] opens the path for writing, creating or
    truncating the file, and pickles into it. *)
Definition joblib_dump (o : pyobj) (path : string) : M unit :=
  emit (EvDump path) ;;;
  fun w =>
    match slot w path with
    | inr k => (Ok tt, mkWorld (<[k := PickleFile o]> (fs w)) (heap w) (trace w))
    | inl e => (Raise (os_exn e path), w)
    end.

(** *** The script's functions *)

Definition load_csv (filename : string) (data_dir : string) : M nat :=
  pd_read_csv (PosixPath.join data_dir filename).

Definition map_target_values (df : nat) (target new_target_name : string)
    (encoding : float -> float) : M nat :=
  d <- deref df ;;
  s <- lift (frame_getitem d target) ;;
  assign df (frame_setitem d new_target_name (series_map encoding s)) ;;;
  ret df.

Definition split_train_test (df : nat) (target : string) (features : list string)
    (test_size : float) (random_state : Z) (check_shape : bool)
  : M (DataFrame * DataFrame * ndarray * ndarray) :=
  if (length features =? 0)%nat
  then raise (AssertionError "No feature columns provided")
  else
    d <- deref df ;;
    s <- lift (frame_getitem d target) ;;
    let Y := reshape_col (series_values s) in
    X <- lift (frame_getitems d features) ;;
    emit (EvSplit (columns X) (nrows X) test_size random_state) ;;;
    t <- match train_test_split X Y test_size random_state with
         | inr t => ret t
         | inl msg => raise (ValueError msg)
         end ;;
    let '(X_train, X_test, Y_train, Y_test) := t in
    (if check_shape
     then
       emit (EvPrint "X_train shape: " (frame_shape X_train)) ;;;
       emit (EvPrint "X_test shape: " (frame_shape X_test)) ;;;
       emit (EvPrint "y_train shape: " (array_shape Y_train)) ;;;
       emit (EvPrint "y_test shape: " (array_shape Y_test)) ;;;
       if negb (nrows X_train =? shape0 Y_train)%nat
       then raise (ValueError "X_train and Y_train have different number of samples")
       else ret tt
     else ret tt) ;;;
    ret (X_train, X_test, Y_train, Y_test).

Definition fit_search (gs : RandomizedSearchCV) (X : DataFrame) (Y : ndarray) : M FittedSearch :=
  emit (EvFit gs (nrows X)) ;;; lift (rscv_fit gs X Y).

Definition search_random_params (X_train : DataFrame) (Y_train : ndarray) (model : Model)
    (param_dists : list (string * distribution)) (cv : CV) (n_iters n_jobs verbose : Z)
    (scoring : string) (random_state : Z) (keep_train_score : bool)
    (filename save_dir : string) (save_best : bool) (best_name : string) (remake : bool)
  : M pyobj :=
  hit <- (if negb remake
          then os_path_exists (PosixPath.join save_dir filename)
          else ret false) ;;
  if hit
  then joblib_load (PosixPath.join save_dir filename)
  else
    let gs := mkSearch model param_dists cv n_iters n_jobs verbose scoring random_state
                keep_train_score in
    fitted <- fit_search gs X_train Y_train ;;
    (if save_best
     then joblib_dump (EstimatorObj (best_estimator_ fitted)) (PosixPath.join save_dir best_name)
     else ret tt) ;;;
    joblib_dump (SearchObj fitted) (PosixPath.join save_dir filename) ;;;
    joblib_load (PosixPath.join save_dir filename).

(** The filter of [main]: rows whose [loop-tof] is at most [-1e-4] or at
    least [1e-4], as a new frame. *)
Definition filtering_stage (df_copy : nat) : M nat :=
  lo <- getitem df_copy "loop-tof" ;;
  hi <- getitem df_copy "loop-tof" ;;
  let condition := mask_or (series_le lo neg_tol) (series_ge hi tol) in
  loc df_copy condition.

Definition select_features (columns : list string) : list string :=
  let targets := ["loop-tof"] in
  let non_features := ["steady-state-condition"] in
  filter (fun f => f ∉ targets ++ non_features) columns.

Definition log_abs (x : float) : float := np_log (abs x).

Definition tags : list string := ["op"; "rc"].

Definition main_param_dists : list (string * distribution) :=
  [ ("n_estimators", st_randint 100 1500 100);
    ("criterion", choices [Some "squared_error"; Some "friedman_mse"]);
    ("max_depth", range 1 50);
    ("min_samples_split", range 2 20);
    ("min_samples_leaf", range 1 20);
    ("max_features", choices [Some "sqrt"; Some "log2"; None]) ].

Definition run_tag (tag : string) : M unit :=
  let pkls_subdir := PosixPath.join SAVE_DIR (tag +:+ "_steady") in
  df_orig <- load_csv ("ml_data_" +:+ tag +:+ "_steady.csv") TRAINING_DATA_DIR ;;
  df_copy <- frame_copy df_orig ;;
  columns <- column_list df_copy ;;
  let features := select_features columns in
  df_filtered <- filtering_stage df_copy ;;
  df <- map_target_values df_filtered "loop-tof" "log-loop-tof" log_abs ;;
  t <- split_train_test df "log-loop-tof" features 0x1.999999999999ap-4%float SEED true ;;
  let '(X_train, X_test, Y_train, Y_test) := t in
  let Y_train := ravel Y_train in
  let Y_test := ravel Y_test in
  let model := RandomForestRegressor SEED in
  let cv := KFold 10 false in
  rs <- search_random_params X_train Y_train model main_param_dists cv 5000 128 1
          "neg_mean_absolute_error" SEED true
          ("rf_reg_" +:+ tag +:+ ".pkl") pkls_subdir true
          ("rf_reg_" +:+ tag +:+ "-best-estm.pkl") true ;;
  ret tt.

Definition main : M unit := for_each tags run_tag.

(** ** What the specification speaks of *)

(** The filter's predicate and the open interval it removes. *)
Definition keep (v : float) : bool := PrimFloat.leb v neg_tol || PrimFloat.leb tol v.

Definition near_zero (v : float) : bool := PrimFloat.ltb neg_tol v && PrimFloat.ltb v tol.

(** A call without its data, to compare traces. *)
Inductive call : Type :=
| CReadCsv (path : string)
| CSplit
| CPrint (label : string)
| CExists (path : string)
| CFit
| CDump (path : string)
| CLoad (path : string).

Definition call_of (e : event) : call :=
  match e with
  | EvReadCsv p => CReadCsv p
  | EvSplit _ _ _ _ => CSplit
  | EvPrint l _ => CPrint l
  | EvExists p => CExists p
  | EvFit _ _ => CFit
  | EvDump p => CDump p
  | EvLoad p => CLoad p
  end.

(** What [split_train_test] does once the splitter has returned [t], from the
    world [w1] the call left. *)
Definition after_split (check_shape : bool) (t : DataFrame * DataFrame * ndarray * ndarray)
    (w1 : World) : result (DataFrame * DataFrame * ndarray * ndarray) * World :=
  let '(X_train, X_test, Y_train, Y_test) := t in
  if check_shape
  then
    (if (nrows X_train =? shape0 Y_train)%nat
     then Ok t
     else Raise (ValueError "X_train and Y_train have different number of samples"),
     mkWorld (fs w1) (heap w1)
       (trace w1 ++ [EvPrint "X_train shape: " (frame_shape X_train);
                     EvPrint "X_test shape: " (frame_shape X_test);
                     EvPrint "y_train shape: " (array_shape Y_train);
                     EvPrint "y_test shape: " (array_shape Y_test)]))
  else (Ok t, w1).

(** The path names a directory. *)
Definition is_directory (w : World) (path : string) : bool :=
  match lookup w path with
  | inr (_, Posix.KDir) => true
  | _ => false
  end.

(** The key a path names, whatever the tree holds. *)
Definition realpath (path : string) : Posix.key := Posix.realpath cwd path.

(** [emits m spec]: whatever [m] does, the calls it adds to the trace are an
    initial part of [spec], and all of [spec] when [m] returns normally. *)
Definition emits {A : Type} (m : M A) (spec : list call) : Prop :=
  forall (w w' : World) (r : result A),
    m w = (r, w') ->
    exists evs : list event,
      trace w' = trace w ++ evs
      /\ map call_of evs `prefix_of` spec
      /\ (forall a : A, r = Ok a -> map call_of evs = spec).

Definition silent {A : Type} (m : M A) : Prop :=
  forall (w w' : World) (r : result A), m w = (r, w') -> trace w' = trace w.

(** [extends m]: [m] may add objects to the heap and changes none. *)
Definition extends {A : Type} (m : M A) : Prop :=
  forall (w w' : World) (r : result A),
    m w = (r, w') -> fs w' = fs w /\ exists ext : list DataFrame, heap w' = heap w ++ ext.

(** [keeps_heap m]: [m] changes no live object. *)
Definition keeps_heap {A : Type} (m : M A) : Prop :=
  forall (w w' : World) (r : result A), m w = (r, w') -> heap w' = heap w.

Definition split_calls : list call :=
  [CSplit; CPrint "X_train shape: "; CPrint "X_test shape: ";
   CPrint "y_train shape: "; CPrint "y_test shape: "].

(** The calls of a search that is forced to run. *)
Definition search_calls (path best_path : string) : list call :=
  [CFit; CDump best_path; CDump path; CLoad path].

(** The calls one dataset variant makes when every stage succeeds. *)
Definition tag_calls (tag : string) : list call :=
  let pkls_subdir := PosixPath.join SAVE_DIR (tag +:+ "_steady") in
  [CReadCsv (PosixPath.join TRAINING_DATA_DIR ("ml_data_" +:+ tag +:+ "_steady.csv"));
   CSplit; CPrint "X_train shape: "; CPrint "X_test shape: ";
   CPrint "y_train shape: "; CPrint "y_test shape: ";
   CFit;
   CDump (PosixPath.join pkls_subdir ("rf_reg_" +:+ tag +:+ "-best-estm.pkl"));
   CDump (PosixPath.join pkls_subdir ("rf_reg_" +:+ tag +:+ ".pkl"));
   CLoad (PosixPath.join pkls_subdir ("rf_reg_" +:+ tag +:+ ".pkl"))].

(** ** Paths and rounding *)

Example join_examples :
  PosixPath.join ".." "training-data" = "../training-data"
  /\ PosixPath.join "a/" "b" = "a/b"
  /\ PosixPath.join "" "b" = "b"
  /\ PosixPath.join "a" "/b" = "/b".
Proof. repeat split. Qed.

Example ceil_examples :
  Sklearn.ceil 1.5%float = Some 2%Z
  /\ Sklearn.ceil 2%float = Some 2%Z
  /\ Sklearn.ceil (-1.5)%float = Some (-1)%Z
  /\ Sklearn.ceil (-0.5)%float = Some 0%Z
  /\ Sklearn.ceil 0x1p-20%float = Some 1%Z
  /\ Sklearn.ceil nan = None
  /\ Sklearn.ceil infinity = None.
Proof. repeat split. Qed.

(** ** Binary64 comparisons *)

Lemma SFcompare_antisym (x y : spec_float) :
  SFcompare y x = option_map CompOpp (SFcompare x y).
Proof.
  destruct x as [sx|sx| |sx mx ex], y as [sy|sy| |sy my ey]; simpl;
    try reflexivity;
    try (destruct sx; reflexivity);
    try (destruct sy; reflexivity);
    try (destruct sx, sy; reflexivity).
  change (PosDef.Pos.compare_cont Eq my mx) with (Pos.compare my mx).
  change (PosDef.Pos.compare_cont Eq mx my) with (Pos.compare mx my).
  rewrite (Z.compare_antisym ex ey), (Pos.compare_antisym mx my).
  destruct sx, sy; simpl; try reflexivity;
    destruct (ex ?= ey)%Z; simpl; reflexivity.
Qed.

Lemma ltb_leb_false (x y : float) :
  PrimFloat.ltb x y = true -> PrimFloat.leb y x = false.
Proof.
  rewrite ltb_spec, leb_spec. unfold SFltb, SFleb.
  rewrite (SFcompare_antisym (Prim2SF x) (Prim2SF y)).
  destruct (SFcompare (Prim2SF x) (Prim2SF y)) as [[]|]; simpl; congruence.
Qed.

Lemma keep_not_near_zero (v : float) : keep v = true -> near_zero v = false.
Proof.
  unfold keep, near_zero. intros H.
  destruct (PrimFloat.ltb neg_tol v) eqn:E1; [|reflexivity].
  destruct (PrimFloat.ltb v tol) eqn:E2; [|reflexivity].
  apply ltb_leb_false in E1, E2. rewrite E1, E2 in H. discriminate.
Qed.

(** ** Running programs *)

Lemma bind_ok {A B : Type} (m : M A) (k : A -> M B) (w w1 : World) (a : A) :
  m w = (Ok a, w1) -> bind m k w = k a w1.
Proof. intros H. unfold bind. now rewrite H. Qed.

Lemma bind_raise {A B : Type} (m : M A) (k : A -> M B) (w w1 : World) (e : exn) :
  m w = (Raise e, w1) -> bind m k w = (Raise e, w1).
Proof. intros H. unfold bind. now rewrite H. Qed.

Lemma deref_ok (l : nat) (d : DataFrame) (w : World) :
  heap w !! l = Some d -> deref l w = (Ok d, w).
Proof. intros H. unfold deref. now rewrite H. Qed.

Lemma world_eta (w : World) : mkWorld (fs w) (heap w) (trace w) = w.
Proof. now destruct w. Qed.

(** ** The filter *)

Lemma select_rows_keep (i : nat) (rs : list row) :
  select_rows rs
    (mask_or (series_le (map (fun r : row => (fst r, cell i r)) rs) neg_tol)
             (series_ge (map (fun r : row => (fst r, cell i r)) rs) tol))
  = filter (fun r : row => keep (cell i r)) rs.
Proof.
  induction rs as [|r rs IH]; [reflexivity|].
  cbn [map series_le series_ge mask_or zip_with select_rows snd fst].
  fold (series_le (map (fun r : row => (fst r, cell i r)) rs) neg_tol).
  fold (series_ge (map (fun r : row => (fst r, cell i r)) rs) tol).
  fold (mask_or (series_le (map (fun r : row => (fst r, cell i r)) rs) neg_tol)
                (series_ge (map (fun r : row => (fst r, cell i r)) rs) tol)).
  rewrite IH. fold (keep (cell i r)).
  destruct (keep (cell i r)) eqn:E.
  - rewrite filter_cons_True; [reflexivity | now rewrite E].
  - rewrite filter_cons_False; [reflexivity | now rewrite E].
Qed.

Lemma filtering_stage_run (df i : nat) (d : DataFrame) (w : World) :
  heap w !! df = Some d ->
  index_of "loop-tof" (columns d) = Some i ->
  filtering_stage df w =
    (Ok (length (heap w)),
     mkWorld (fs w)
       (heap w ++ [mkFrame (columns d) (filter (fun r : row => keep (cell i r)) (rows d))])
       (trace w)).
Proof.
  intros Hd Hi. unfold filtering_stage, getitem, loc.
  assert (Hg : forall w0 : World, heap w0 = heap w ->
            bind (deref df) (fun d0 => lift (frame_getitem d0 "loop-tof")) w0
            = (Ok (map (fun r : row => (fst r, cell i r)) (rows d)), w0)).
  { intros w0 Hw. rewrite (bind_ok _ _ w0 w0 d) by (apply deref_ok; congruence).
    unfold lift, frame_getitem. now rewrite Hi. }
  rewrite (bind_ok _ _ _ _ _ (Hg w eq_refl)).
  rewrite (bind_ok _ _ _ _ _ (Hg w eq_refl)).
  rewrite (bind_ok _ _ _ _ _ (deref_ok _ _ _ Hd)).
  unfold alloc, frame_loc. now rewrite select_rows_keep.
Qed.

Lemma filtering_stage_raise (df : nat) (d : DataFrame) (w : World) :
  heap w !! df = Some d ->
  index_of "loop-tof" (columns d) = None ->
  filtering_stage df w = (Raise (KeyError "loop-tof"), w).
Proof.
  intros Hd Hi. unfold filtering_stage, getitem.
  apply bind_raise. rewrite (bind_ok _ _ _ _ _ (deref_ok _ _ _ Hd)).
  unfold lift, frame_getitem. now rewrite Hi.
Qed.

(** C3. The filtering stage of [main] returns, as a new frame with the same
    columns, exactly the rows whose [loop-tof] value is at most [-1e-4] or at
    least [1e-4], in their original order; none of the rows it keeps has a
    [loop-tof] value strictly between [-1e-4] and [1e-4]. *)
Theorem filtering_stage_keeps_outside_band (df i : nat) (d : DataFrame) (w : World) :
  heap w !! df = Some d ->
  index_of "loop-tof" (columns d) = Some i ->
  let kept := filter (fun r : row => keep (cell i r)) (rows d) in
  filtering_stage df w =
    (Ok (length (heap w)), mkWorld (fs w) (heap w ++ [mkFrame (columns d) kept]) (trace w))
  /\ kept `sublist_of` rows d
  /\ (forall r : row, r ∈ kept <-> r ∈ rows d /\ keep (cell i r) = true)
  /\ Forall (fun r : row => near_zero (cell i r) = false) kept.
Proof.
  intros Hd Hi kept. split; [now apply filtering_stage_run|].
  split; [apply sublist_filter|].
  split.
  - intros r. subst kept. rewrite list_elem_of_filter.
    rewrite Is_true_true. split; intros [H1 H2]; split; assumption.
  - apply Forall_forall. intros r Hr. subst kept.
    apply list_elem_of_filter in Hr as [Hk _].
    apply keep_not_near_zero. now apply Is_true_true.
Qed.

(** ** The target encoder *)

Lemma index_of_lt (c : string) (cols : list string) (i : nat) :
  index_of c cols = Some i -> i < length cols.
Proof.
  revert i. induction cols as [|c' t IH]; intros i; simpl; [discriminate|].
  destruct (String.eqb c c').
  - intros [= <-]. lia.
  - destruct (index_of c t) as [j|]; simpl; [|discriminate].
    intros [= <-]. specialize (IH j eq_refl). lia.
Qed.

Lemma index_of_Some_elem (c : string) (cols : list string) (i : nat) :
  index_of c cols = Some i -> cols !! i = Some c.
Proof.
  revert i. induction cols as [|c' t IH]; intros i; simpl; [discriminate|].
  destruct (String.eqb_spec c c') as [->|Hne].
  - now intros [= <-].
  - destruct (index_of c t) as [j|]; simpl; [|discriminate].
    intros [= <-]. now apply IH.
Qed.

Lemma index_of_None (c : string) (cols : list string) :
  index_of c cols = None <-> c ∉ cols.
Proof.
  induction cols as [|c' t IH]; simpl.
  - split; [intros _; apply not_elem_of_nil | reflexivity].
  - rewrite not_elem_of_cons. destruct (String.eqb_spec c c') as [->|Hne].
    + split; [discriminate | tauto].
    + destruct (index_of c t) as [j|]; simpl.
      * split; [discriminate|]. intros [_ H]. now apply IH in H.
      * split; [|reflexivity]. intros _. split; [assumption | now apply IH].
Qed.

Lemma index_of_app_new (c : string) (cols : list string) :
  index_of c cols = None -> index_of c (cols ++ [c]) = Some (length cols).
Proof.
  induction cols as [|c' t IH]; simpl.
  - now rewrite String.eqb_refl.
  - destruct (String.eqb c c'); [discriminate|].
    destruct (index_of c t); simpl; [discriminate|].
    intros _. now rewrite IH.
Qed.

Lemma index_of_app_other (c c' : string) (cols : list string) :
  c <> c' -> index_of c (cols ++ [c']) = index_of c cols.
Proof.
  intros Hne. induction cols as [|x t IH]; simpl.
  - destruct (String.eqb_spec c c'); [contradiction | reflexivity].
  - destruct (String.eqb c x); [reflexivity | now rewrite IH].
Qed.

Lemma index_of_inj (c c' : string) (cols : list string) (i : nat) :
  index_of c cols = Some i -> index_of c' cols = Some i -> c = c'.
Proof.
  intros H H'. apply index_of_Some_elem in H, H'. congruence.
Qed.

Lemma cell_insert_eq (i : nat) (l : Z) (cells : list float) (x : float) :
  i < length cells -> cell i (l, <[i := x]> cells) = x.
Proof.
  intros Hi. unfold cell. simpl. rewrite nth_lookup.
  now rewrite list_lookup_insert_eq.
Qed.

Lemma cell_insert_ne (i j : nat) (l : Z) (cells : list float) (x : float) :
  i <> j -> cell j (l, <[i := x]> cells) = cell j (l, cells).
Proof.
  intros Hne. unfold cell. simpl. rewrite !nth_lookup.
  now rewrite list_lookup_insert_ne.
Qed.

Lemma cell_snoc_eq (l : Z) (cells : list float) (x : float) :
  cell (length cells) (l, cells ++ [x]) = x.
Proof. unfold cell. simpl. apply nth_middle. Qed.

Lemma cell_snoc_lt (j : nat) (l : Z) (cells : list float) (x : float) :
  j < length cells -> cell j (l, cells ++ [x]) = cell j (l, cells).
Proof. intros Hj. unfold cell. simpl. now apply app_nth1. Qed.

(** Reading a column back from rows updated cell by cell. *)
Lemma column_of_updated_rows (upd : row -> float -> list float) (f : row -> float)
    (k : nat) (g : row -> float) (rs : list row) :
  (forall r : row, r ∈ rs -> cell k (fst r, upd r (f r)) = g r) ->
  map (fun r : row => (fst r, cell k r))
    (zip_with (fun (r : row) (v : Z * float) => (fst r, upd r (snd v))) rs
       (map (fun r : row => (fst r, f r)) rs))
  = map (fun r : row => (fst r, g r)) rs.
Proof.
  induction rs as [|r rs IH]; intros H; [reflexivity|].
  cbn [map zip_with fst snd]. f_equal.
  - f_equal. apply H. apply list_elem_of_here.
  - apply IH. intros r' Hr'. apply H. now apply list_elem_of_further.
Qed.

Lemma lookup_map {A B : Type} (f : A -> B) (l : list A) (k : nat) :
  map f l !! k = f <$> l !! k.
Proof.
  revert k. induction l as [|a l IH]; intros [|k]; simpl; try reflexivity. apply IH.
Qed.

Lemma series_map_lookup (f : float -> float) (s : Series) (k : nat) :
  series_map f s !! k = (fun v : Z * float => (fst v, f (snd v))) <$> s !! k.
Proof. apply lookup_map. Qed.

Lemma series_map_getitem (enc : float -> float) (i : nat) (rs : list row) :
  series_map enc (map (fun r : row => (fst r, cell i r)) rs)
  = map (fun r : row => (fst r, enc (cell i r))) rs.
Proof. unfold series_map. rewrite map_map. reflexivity. Qed.

Lemma getitem_setitem_eq (d : DataFrame) (name : string) (f : row -> float) :
  wf_frame d ->
  frame_getitem (frame_setitem d name (map (fun r : row => (fst r, f r)) (rows d))) name
  = Ok (map (fun r : row => (fst r, f r)) (rows d)).
Proof.
  intros Hwf. unfold frame_setitem.
  destruct (index_of name (columns d)) as [i|] eqn:Hi.
  - unfold frame_getitem. cbn [columns rows]. rewrite Hi. f_equal.
    apply (column_of_updated_rows (fun r x => <[i := x]> (snd r))).
    intros r Hr. apply cell_insert_eq.
    unfold wf_frame in Hwf. rewrite Forall_forall in Hwf.
    rewrite (Hwf r Hr). now apply index_of_lt with name.
  - unfold frame_getitem. cbn [columns rows].
    rewrite (index_of_app_new _ _ Hi). f_equal.
    apply (column_of_updated_rows (fun r x => snd r ++ [x])).
    intros r Hr. unfold wf_frame in Hwf. rewrite Forall_forall in Hwf.
    rewrite <- (Hwf r Hr). apply cell_snoc_eq.
Qed.

Lemma getitem_setitem_ne (d : DataFrame) (name c : string) (f : row -> float) :
  wf_frame d -> c <> name ->
  frame_getitem (frame_setitem d name (map (fun r : row => (fst r, f r)) (rows d))) c
  = frame_getitem d c.
Proof.
  intros Hwf Hne. unfold wf_frame in Hwf. rewrite Forall_forall in Hwf.
  unfold frame_setitem.
  destruct (index_of name (columns d)) as [i|] eqn:Hi.
  - unfold frame_getitem. cbn [columns rows].
    destruct (index_of c (columns d)) as [j|] eqn:Hj; [|reflexivity]. f_equal.
    apply (column_of_updated_rows (fun r x => <[i := x]> (snd r))).
    intros r Hr. rewrite cell_insert_ne; [now destruct r|].
    intros <-. apply Hne. now apply index_of_inj with (columns d) i.
  - unfold frame_getitem. cbn [columns rows].
    rewrite (index_of_app_other _ _ _ Hne).
    destruct (index_of c (columns d)) as [j|] eqn:Hj; [|reflexivity]. f_equal.
    apply (column_of_updated_rows (fun r x => snd r ++ [x])).
    intros r Hr. rewrite cell_snoc_lt; [now destruct r|].
    rewrite (Hwf r Hr). now apply index_of_lt with c.
Qed.

Lemma frame_getitem_Ok (d : DataFrame) (c : string) (s : Series) :
  frame_getitem d c = Ok s ->
  exists i, index_of c (columns d) = Some i /\ s = map (fun r : row => (fst r, cell i r)) (rows d).
Proof.
  unfold frame_getitem. destruct (index_of c (columns d)) as [i|]; [|discriminate].
  intros [= <-]. now exists i.
Qed.

Lemma setitem_columns (d : DataFrame) (name : string) (s : Series) :
  columns (frame_setitem d name s)
  = if decide (name ∈ columns d) then columns d else columns d ++ [name].
Proof.
  unfold frame_setitem. destruct (index_of name (columns d)) as [i|] eqn:Hi; cbn [columns].
  - rewrite decide_True; [reflexivity|].
    apply index_of_Some_elem in Hi. eapply list_elem_of_lookup_2, Hi.
  - rewrite decide_False; [reflexivity|]. now apply index_of_None.
Qed.

Lemma map_target_values_run (df : nat) (d : DataFrame) (target new_name : string)
    (enc : float -> float) (s : Series) (w : World) :
  heap w !! df = Some d ->
  frame_getitem d target = Ok s ->
  map_target_values df target new_name enc w =
    (Ok df,
     mkWorld (fs w) (<[df := frame_setitem d new_name (series_map enc s)]> (heap w)) (trace w)).
Proof.
  intros Hd Hs. unfold map_target_values.
  rewrite (bind_ok _ _ _ _ _ (deref_ok _ _ _ Hd)).
  unfold bind at 1, lift. rewrite Hs. reflexivity.
Qed.

Lemma map_target_values_raise (df : nat) (d : DataFrame) (target new_name : string)
    (enc : float -> float) (e : exn) (w : World) :
  heap w !! df = Some d ->
  frame_getitem d target = Raise e ->
  map_target_values df target new_name enc w = (Raise e, w).
Proof.
  intros Hd Hs. unfold map_target_values.
  rewrite (bind_ok _ _ _ _ _ (deref_ok _ _ _ Hd)).
  unfold bind at 1, lift. rewrite Hs. reflexivity.
Qed.


(** ** The partitioner *)

Lemma frame_getitems_raise (d : DataFrame) (cs : list string) (e : exn) :
  frame_getitems d cs = Raise e -> e = KeyError_labels (missing_labels (columns d) cs).
Proof.
  unfold frame_getitems. destruct (positions (columns d) cs) eqn:E; [discriminate|].
  now intros [= <-].
Qed.

Lemma frame_getitems_Ok (d X : DataFrame) (cs : list string) :
  frame_getitems d cs = Ok X -> columns X = cs /\ nrows X = nrows d.
Proof.
  unfold frame_getitems. destruct (positions (columns d) cs); [|discriminate].
  intros [= <-]. unfold nrows. cbn [columns rows]. now rewrite length_map.
Qed.

Lemma frame_getitem_raise (d : DataFrame) (c : string) (e : exn) :
  frame_getitem d c = Raise e -> e = KeyError c.
Proof.
  unfold frame_getitem. destruct (index_of c (columns d)); [discriminate|].
  now intros [= <-].
Qed.

Lemma split_train_test_run (df : nat) (d : DataFrame) (target : string)
    (features : list string) (test_size : float) (seed : Z) (check_shape : bool)
    (s : Series) (X : DataFrame) (w : World) :
  features <> [] ->
  heap w !! df = Some d ->
  frame_getitem d target = Ok s ->
  frame_getitems d features = Ok X ->
  let w1 := mkWorld (fs w) (heap w) (trace w ++ [EvSplit (columns X) (nrows X) test_size seed]) in
  split_train_test df target features test_size seed check_shape w =
    match train_test_split X (reshape_col (series_values s)) test_size seed with
    | inl msg => (Raise (ValueError msg), w1)
    | inr t => after_split check_shape t w1
    end.
Proof.
  intros Hf Hd Hs HX w1. unfold split_train_test.
  destruct features as [|f fs0]; [contradiction|]. cbn [length Nat.eqb].
  rewrite (bind_ok _ _ _ _ _ (deref_ok _ _ _ Hd)).
  unfold bind at 1, lift at 1. rewrite Hs.
  unfold bind at 1, lift at 1. rewrite HX.
  unfold bind at 1, emit at 1. fold w1.
  destruct (train_test_split X (reshape_col (series_values s)) test_size seed)
    as [msg|[[[Xtr Xte] Ytr] Yte]]; [reflexivity|].
  unfold bind at 1, ret at 1. unfold after_split.
  destruct check_shape.
  - unfold bind, emit, ret, raise. cbn [fs heap trace].
    rewrite <- !app_assoc. cbn [app].
    destruct (nrows Xtr =? shape0 Ytr)%nat; reflexivity.
  - unfold bind, ret. reflexivity.
Qed.

Lemma split_train_test_cases (df : nat) (target : string) (features : list string)
    (test_size : float) (seed : Z) (check_shape : bool) (w w' : World)
    (r : result (DataFrame * DataFrame * ndarray * ndarray)) :
  split_train_test df target features test_size seed check_shape w = (r, w') ->
  (features = [] /\ r = Raise (AssertionError "No feature columns provided") /\ w' = w)
  \/ (features <> [] /\ w' = w /\
      exists e, r = Raise e /\
        ((exists c, e = KeyError c) \/ (exists m, e = KeyError_labels m)
         \/ e = ReferenceError df))
  \/ (features <> [] /\
      exists (d : DataFrame) (s : Series) (X : DataFrame),
        heap w !! df = Some d /\ frame_getitem d target = Ok s /\
        frame_getitems d features = Ok X /\
        (r, w') =
          match train_test_split X (reshape_col (series_values s)) test_size seed with
          | inl msg =>
              (Raise (ValueError msg),
               mkWorld (fs w) (heap w)
                 (trace w ++ [EvSplit (columns X) (nrows X) test_size seed]))
          | inr t =>
              after_split check_shape t
                (mkWorld (fs w) (heap w)
                   (trace w ++ [EvSplit (columns X) (nrows X) test_size seed]))
          end).
Proof.
  intros H. destruct features as [|f fs0].
  { left. unfold split_train_test in H. cbn in H. unfold raise in H.
    injection H as <- <-. auto. }
  right. assert (Hne : f :: fs0 <> []) by discriminate.
  destruct (heap w !! df) as [d|] eqn:Hd.
  2:{ left. unfold split_train_test in H. cbn [length Nat.eqb] in H.
      unfold bind at 1, deref in H. rewrite Hd in H. injection H as <- <-.
      repeat split; [assumption|]. eexists; split; [reflexivity|]. now right; right. }
  destruct (frame_getitem d target) as [s|e] eqn:Hs.
  2:{ left. unfold split_train_test in H. cbn [length Nat.eqb] in H.
      rewrite (bind_ok _ _ _ _ _ (deref_ok _ _ _ Hd)) in H.
      unfold bind at 1, lift at 1 in H. rewrite Hs in H. injection H as <- <-.
      repeat split; [assumption|]. eexists; split; [reflexivity|].
      left. apply frame_getitem_raise in Hs. eauto. }
  destruct (frame_getitems d (f :: fs0)) as [X|e] eqn:HX.
  2:{ left. unfold split_train_test in H. cbn [length Nat.eqb] in H.
      rewrite (bind_ok _ _ _ _ _ (deref_ok _ _ _ Hd)) in H.
      unfold bind at 1, lift at 1 in H. rewrite Hs in H.
      unfold bind at 1, lift at 1 in H. rewrite HX in H. injection H as <- <-.
      repeat split; [assumption|]. eexists; split; [reflexivity|].
      right; left. apply frame_getitems_raise in HX. eauto. }
  right. split; [assumption|]. exists d, s, X. repeat split; try assumption.
  rewrite <- H.
  apply (split_train_test_run df d target (f :: fs0) test_size seed check_shape s X w);
    assumption.
Qed.

(** C5. [split_train_test] raises its assertion error ("No feature columns
    provided") if and only if the feature list is empty; with an empty list
    it does so at once: the world is left as it was, nothing has been read,
    split or printed. *)
Theorem split_train_test_empty_features (df : nat) (target : string)
    (features : list string) (test_size : float) (seed : Z) (check_shape : bool)
    (w : World) :
  (features = [] <->
   exists (msg : string) (w' : World),
     split_train_test df target features test_size seed check_shape w
     = (Raise (AssertionError msg), w'))
  /\ (features = [] ->
      split_train_test df target features test_size seed check_shape w
      = (Raise (AssertionError "No feature columns provided"), w)).
Proof.
  assert (Hempty : features = [] ->
      split_train_test df target features test_size seed check_shape w
      = (Raise (AssertionError "No feature columns provided"), w)).
  { intros ->. reflexivity. }
  split; [|exact Hempty]. split.
  - intros H. eexists _, _. now apply Hempty.
  - intros (msg & w' & H).
    destruct (split_train_test_cases _ _ _ _ _ _ _ _ _ H)
      as [(Hf & _)|[(_ & _ & e & [= <-] & [[c [=]]|[[m [=]]|[=]]])
                    |(_ & d & s & X & _ & _ & _ & Hr)]];
      [assumption|].
    exfalso.
    destruct (train_test_split X (reshape_col (series_values s)) test_size seed)
      as [m|[[[Xtr Xte] Ytr] Yte]]; [discriminate|].
    unfold after_split in Hr. destruct check_shape; [|discriminate].
    destruct (nrows Xtr =? shape0 Ytr)%nat; discriminate.
Qed.

Lemma split_train_test_frame (df : nat) (target : string) (features : list string)
    (test_size : float) (seed : Z) (check_shape : bool) (w w' : World)
    (r : result (DataFrame * DataFrame * ndarray * ndarray)) :
  split_train_test df target features test_size seed check_shape w = (r, w') ->
  heap w' = heap w /\ fs w' = fs w.
Proof.
  intros H.
  destruct (split_train_test_cases _ _ _ _ _ _ _ _ _ H)
    as [(_ & _ & ->)|[(_ & -> & _)|(_ & d & s & X & _ & _ & _ & Hr)]]; [auto | auto |].
  destruct (train_test_split X (reshape_col (series_values s)) test_size seed)
    as [m|[[[Xtr Xte] Ytr] Yte]].
  - injection Hr as _ ->. auto.
  - unfold after_split in Hr. destruct check_shape; injection Hr as _ ->; auto.
Qed.

(** The check as the code has it, for whatever the splitter returned: with
    [check_shape] set, [split_train_test] prints the four shapes and
    compares the numbers of train feature rows and train target rows; it
    raises a [ValueError] when they differ and returns the splitter's four
    parts when they agree. Without [check_shape] it prints and checks
    nothing. *)
Lemma split_train_test_check_cases (df : nat) (d : DataFrame) (target : string)
    (features : list string) (test_size : float) (seed : Z) (s : Series)
    (X X_train X_test : DataFrame) (Y_train Y_test : ndarray) (w : World) :
  features <> [] ->
  heap w !! df = Some d ->
  frame_getitem d target = Ok s ->
  frame_getitems d features = Ok X ->
  train_test_split X (reshape_col (series_values s)) test_size seed
    = inr (X_train, X_test, Y_train, Y_test) ->
  let w1 := mkWorld (fs w) (heap w) (trace w ++ [EvSplit (columns X) (nrows X) test_size seed]) in
  let printed :=
    mkWorld (fs w) (heap w)
      (trace w1 ++ [EvPrint "X_train shape: " (frame_shape X_train);
                    EvPrint "X_test shape: " (frame_shape X_test);
                    EvPrint "y_train shape: " (array_shape Y_train);
                    EvPrint "y_test shape: " (array_shape Y_test)]) in
  (nrows X_train <> shape0 Y_train ->
   split_train_test df target features test_size seed true w
   = (Raise (ValueError "X_train and Y_train have different number of samples"), printed))
  /\ (nrows X_train = shape0 Y_train ->
      split_train_test df target features test_size seed true w
      = (Ok (X_train, X_test, Y_train, Y_test), printed))
  /\ split_train_test df target features test_size seed false w
     = (Ok (X_train, X_test, Y_train, Y_test), w1).
Proof.
  intros Hf Hd Hs HX Ht w1 printed.
  pose proof (fun cs => split_train_test_run df d target features test_size seed cs s X w
                          Hf Hd Hs HX) as Hrun.
  cbv zeta in Hrun. rewrite Ht in Hrun.
  repeat split.
  - intros Hne. rewrite Hrun. unfold after_split.
    apply Nat.eqb_neq in Hne. now rewrite Hne.
  - intros Heq. rewrite Hrun. unfold after_split.
    apply Nat.eqb_eq in Heq. now rewrite Heq.
  - now rewrite Hrun.
Qed.

(** ** The cached search *)

Lemma same_dirs_refl (ka : Posix.key -> option Posix.kind) : same_dirs ka ka.
Proof. now intros k. Qed.

Lemma same_dirs_trans (ka kb kc : Posix.key -> option Posix.kind) :
  same_dirs ka kb -> same_dirs kb kc -> same_dirs ka kc.
Proof. intros H1 H2 k. rewrite (H1 k). apply H2. Qed.

(** A pickle written where there is no directory leaves the directories as
    they are. *)
Lemma same_dirs_dump (o : pyobj) (k : Posix.key) (w : World) (h : list DataFrame)
    (t : list event) :
  kinds w k <> Some Posix.KDir ->
  same_dirs (kinds w) (kinds (mkWorld (<[k := PickleFile o]> (fs w)) h t)).
Proof.
  intros Hk q. unfold kinds in *. cbn [fs]. destruct (decide (k = q)) as [<-|Hne].
  - destruct (Posix.above k cwd); [reflexivity|].
    rewrite lookup_insert_eq. split; [intros H; contradiction | discriminate].
  - now rewrite lookup_insert_ne.
Qed.

Lemma kinds_dump (o : pyobj) (k : Posix.key) (w : World) (h : list DataFrame)
    (t : list event) :
  kinds w k <> Some Posix.KDir ->
  kinds (mkWorld (<[k := PickleFile o]> (fs w)) h t) k = Some Posix.KFile.
Proof.
  unfold kinds. cbn [fs]. destruct (Posix.above k cwd); [intros H; now contradiction H|].
  now rewrite lookup_insert_eq.
Qed.

Lemma kinds_insert_ne (n : node) (k q : Posix.key) (w : World) (h : list DataFrame)
    (t : list event) :
  k <> q -> kinds (mkWorld (<[k := n]> (fs w)) h t) q = kinds w q.
Proof. intros Hne. unfold kinds. cbn [fs]. now rewrite lookup_insert_ne. Qed.

Lemma joblib_dump_ok (o : pyobj) (path : string) (k : Posix.key) (w : World) :
  slot w path = inr k ->
  joblib_dump o path w =
    (Ok tt, mkWorld (<[k := PickleFile o]> (fs w)) (heap w) (trace w ++ [EvDump path])).
Proof.
  intros H. unfold joblib_dump, bind, emit.
  change (slot (mkWorld (fs w) (heap w) (trace w ++ [EvDump path])) path) with (slot w path).
  now rewrite H.
Qed.

Lemma joblib_load_ok (o : pyobj) (path : string) (w : World) :
  open_file w path = Ok (PickleFile o) ->
  joblib_load path w = (Ok o, mkWorld (fs w) (heap w) (trace w ++ [EvLoad path])).
Proof.
  intros H. unfold joblib_load, bind, emit.
  change (open_file (mkWorld (fs w) (heap w) (trace w ++ [EvLoad path])) path)
    with (open_file w path).
  now rewrite H.
Qed.

Lemma slot_after_dump (o : pyobj) (p q : string) (kp kq : Posix.key) (w : World)
    (h : list DataFrame) (t : list event) :
  slot w p = inr kp ->
  slot w q = inr kq ->
  slot (mkWorld (<[kp := PickleFile o]> (fs w)) h t) q = inr kq.
Proof.
  unfold slot. intros Hp Hq. apply (slot_same_dirs cwd (kinds w)); [|exact Hq].
  apply same_dirs_dump. now apply slot_key in Hp as [_ Hp].
Qed.

(** What was dumped at a path is what a load of that path opens. *)
Lemma open_after_dump (o : pyobj) (p : string) (k : Posix.key) (w : World)
    (h : list DataFrame) (t : list event) :
  slot w p = inr k ->
  open_file (mkWorld (<[k := PickleFile o]> (fs w)) h t) p = Ok (PickleFile o).
Proof.
  unfold slot. intros H. unfold open_file, lookup.
  pose proof (slot_key cwd _ _ _ H) as [_ Hk].
  rewrite (slot_lookup cwd (kinds w) _ p k); [| |now apply kinds_dump|exact H].
  - cbn [fs]. now rewrite lookup_insert_eq.
  - now apply same_dirs_dump.
Qed.

Lemma open_file_exists (w : World) (path : string) (n : node) :
  open_file w path = Ok n -> path_exists w path = true.
Proof.
  unfold open_file, path_exists. destruct (lookup w path) as [e|[k []]]; [discriminate..|].
  reflexivity.
Qed.

(** A file that opens sits at the key its path names. *)
Lemma open_file_key (w : World) (path : string) (n : node) :
  open_file w path = Ok n -> fs w !! realpath path = Some n /\ n <> Dir.
Proof.
  unfold open_file, lookup, realpath.
  destruct (Posix.lookup cwd (kinds w) path) as [e|[k kd]] eqn:E; [discriminate|].
  apply lookup_key in E as [-> Hk]. destruct kd; [discriminate|].
  specialize (Hk eq_refl). unfold kinds in Hk.
  destruct (Posix.above (Posix.realpath cwd path) cwd); [discriminate|].
  destruct (fs w !! Posix.realpath cwd path) as [[]|]; try discriminate;
    intros [= <-]; split; [reflexivity | discriminate | reflexivity | discriminate].
Qed.

Lemma fits_app (t1 t2 : list event) : fits (t1 ++ t2) = fits t1 + fits t2.
Proof. unfold fits. now rewrite List.filter_app, length_app. Qed.

Lemma search_hit_run (X : DataFrame) (Y : ndarray) (model : Model)
    (param_dists : list (string * distribution)) (cv0 : CV) (n_iters n_jobs0 verbose0 : Z)
    (scoring0 : string) (seed : Z) (keep_train_score : bool)
    (filename save_dir : string) (save_best : bool) (best_name : string)
    (o : pyobj) (w : World) :
  let path := PosixPath.join save_dir filename in
  open_file w path = Ok (PickleFile o) ->
  search_random_params X Y model param_dists cv0 n_iters n_jobs0 verbose0 scoring0 seed
    keep_train_score filename save_dir save_best best_name false w
  = (Ok o, mkWorld (fs w) (heap w) (trace w ++ [EvExists path; EvLoad path])).
Proof.
  intros path H. unfold search_random_params. cbn [negb]. fold path.
  unfold bind at 1, os_path_exists, bind at 1, emit at 1.
  change (path_exists (mkWorld (fs w) (heap w) (trace w ++ [EvExists path])) path)
    with (path_exists w path).
  rewrite (open_file_exists _ _ _ H).
  rewrite joblib_load_ok with (o := o) by exact H.
  cbn [fs heap trace]. now rewrite <- app_assoc.
Qed.

(** C1. With [remake] false and an artifact at the path joined from
    [save_dir] and [filename], [search_random_params] returns that artifact:
    it only asks whether the path exists and loads it, fits nothing and
    leaves the files as they are; a second such call, whatever data and
    settings it is given, returns the same artifact, again without a fit. *)
Theorem search_random_params_cache_hit (X X' : DataFrame) (Y Y' : ndarray) (model model' : Model)
    (param_dists param_dists' : list (string * distribution)) (cv0 cv1 : CV)
    (n_iters n_iters' n_jobs0 n_jobs1 verbose0 verbose1 : Z)
    (scoring0 scoring1 : string) (seed seed' : Z) (keep_train_score keep_train_score' : bool)
    (filename save_dir : string) (save_best save_best' : bool) (best_name best_name' : string)
    (o : pyobj) (w : World) :
  let path := PosixPath.join save_dir filename in
  open_file w path = Ok (PickleFile o) ->
  let w1 := mkWorld (fs w) (heap w) (trace w ++ [EvExists path; EvLoad path]) in
  let w2 := mkWorld (fs w) (heap w) (trace w1 ++ [EvExists path; EvLoad path]) in
  search_random_params X Y model param_dists cv0 n_iters n_jobs0 verbose0 scoring0 seed
    keep_train_score filename save_dir save_best best_name false w = (Ok o, w1)
  /\ search_random_params X' Y' model' param_dists' cv1 n_iters' n_jobs1 verbose1 scoring1 seed'
       keep_train_score' filename save_dir save_best' best_name' false w1 = (Ok o, w2)
  /\ fits (trace w1) = fits (trace w)
  /\ fits (trace w2) = fits (trace w).
Proof.
  intros path H w1 w2. split; [now apply search_hit_run|].
  split; [now apply (search_hit_run X' Y') |].
  subst w2 w1. cbn [trace]. rewrite !fits_app. cbn. lia.
Qed.

Lemma search_miss_run (X : DataFrame) (Y : ndarray) (model : Model)
    (param_dists : list (string * distribution)) (cv0 : CV) (n_iters n_jobs0 verbose0 : Z)
    (scoring0 : string) (seed : Z) (keep_train_score : bool)
    (filename save_dir : string) (save_best : bool) (best_name : string) (remake : bool)
    (fitted : FittedSearch) (k kb : Posix.key) (w : World) :
  let path := PosixPath.join save_dir filename in
  let best_path := PosixPath.join save_dir best_name in
  let gs := mkSearch model param_dists cv0 n_iters n_jobs0 verbose0 scoring0 seed
              keep_train_score in
  remake = true \/ path_exists w path = false ->
  rscv_fit gs X Y = Ok fitted ->
  slot w path = inr k ->
  (save_best = true -> slot w best_path = inr kb) ->
  search_random_params X Y model param_dists cv0 n_iters n_jobs0 verbose0 scoring0 seed
    keep_train_score filename save_dir save_best best_name remake w
  = (Ok (SearchObj fitted),
     mkWorld
       (<[k := PickleFile (SearchObj fitted)]>
          (if save_best
           then <[kb := PickleFile (EstimatorObj (best_estimator_ fitted))]> (fs w)
           else fs w))
       (heap w)
       (trace w ++ (if remake then [] else [EvExists path]) ++ [EvFit gs (nrows X)]
          ++ (if save_best then [EvDump best_path] else []) ++ [EvDump path; EvLoad path])).
Proof.
  intros path best_path gs Hmiss Hfit Hw Hwb. unfold search_random_params.
  fold path best_path gs.
  set (w0 := mkWorld (fs w) (heap w) (trace w ++ (if remake then [] else [EvExists path]))).
  assert (Hhit : (if negb remake then os_path_exists path else ret false) w = (Ok false, w0)).
  { subst w0. destruct remake; cbn [negb].
    - unfold ret. now rewrite app_nil_r, world_eta.
    - destruct Hmiss as [|Hnone]; [discriminate|].
      unfold os_path_exists, bind, emit.
      change (path_exists (mkWorld (fs w) (heap w) (trace w ++ [EvExists path])) path)
        with (path_exists w path).
      now rewrite Hnone. }
  rewrite (bind_ok _ _ _ _ _ Hhit).
  set (w1 := mkWorld (fs w) (heap w) (trace w0 ++ [EvFit gs (nrows X)])).
  assert (Hf : fit_search gs X Y w0 = (Ok fitted, w1)).
  { unfold fit_search, bind, emit, lift. now rewrite Hfit. }
  rewrite (bind_ok _ _ _ _ _ Hf).
  set (fs2 := if save_best
              then <[kb := PickleFile (EstimatorObj (best_estimator_ fitted))]> (fs w)
              else fs w).
  set (w2 := mkWorld fs2 (heap w) (trace w1 ++ (if save_best then [EvDump best_path] else []))).
  assert (Hb : (if save_best
                then joblib_dump (EstimatorObj (best_estimator_ fitted)) best_path
                else ret tt) w1 = (Ok tt, w2)).
  { subst w2 fs2. destruct save_best.
    - rewrite (joblib_dump_ok _ _ kb); [reflexivity|]. now apply Hwb.
    - unfold ret. rewrite app_nil_r. reflexivity. }
  rewrite (bind_ok _ _ _ _ _ Hb).
  assert (Hw2 : slot w2 path = inr k).
  { subst w2 fs2. destruct save_best.
    - apply (slot_after_dump _ best_path path kb k w); [now apply Hwb | exact Hw].
    - exact Hw. }
  rewrite (bind_ok _ _ _ _ _ (joblib_dump_ok (SearchObj fitted) path k w2 Hw2)).
  rewrite joblib_load_ok with (o := SearchObj fitted)
    by (apply (open_after_dump _ _ _ w2); exact Hw2).
  subst w2 w1 w0. cbn [fs heap trace]. rewrite <- !app_assoc. reflexivity.
Qed.

(** C2 (as the code has it). With [remake] true, or with nothing at the
    primary path, and a search and writes that succeed,
    [search_random_params] fits the search once, leaves the full search
    result in the file the primary path names, whatever was there before,
    and returns an object equal to it. With [save_best] it has also written
    the best estimator to the path joined from [save_dir] and [best_name]:
    a load of that path gives the best estimator when it names another file
    than the primary path, and the search result, written last, when the two
    paths name one file. Without [save_best] no other file changes. No file
    besides these two changes. *)
Theorem search_random_params_cache_miss (X : DataFrame) (Y : ndarray) (model : Model)
    (param_dists : list (string * distribution)) (cv0 : CV) (n_iters n_jobs0 verbose0 : Z)
    (scoring0 : string) (seed : Z) (keep_train_score : bool)
    (filename save_dir : string) (save_best : bool) (best_name : string) (remake : bool)
    (fitted : FittedSearch) (k kb : Posix.key) (w : World) :
  let path := PosixPath.join save_dir filename in
  let best_path := PosixPath.join save_dir best_name in
  let gs := mkSearch model param_dists cv0 n_iters n_jobs0 verbose0 scoring0 seed
              keep_train_score in
  remake = true \/ path_exists w path = false ->
  rscv_fit gs X Y = Ok fitted ->
  slot w path = inr k ->
  (save_best = true -> slot w best_path = inr kb) ->
  exists w' : World,
    search_random_params X Y model param_dists cv0 n_iters n_jobs0 verbose0 scoring0 seed
      keep_train_score filename save_dir save_best best_name remake w
    = (Ok (SearchObj fitted), w')
    /\ k = realpath path
    /\ open_file w' path = Ok (PickleFile (SearchObj fitted))
    /\ fits (trace w') = S (fits (trace w))
    /\ (save_best = true ->
        kb = realpath best_path
        /\ (kb <> k ->
            open_file w' best_path = Ok (PickleFile (EstimatorObj (best_estimator_ fitted))))
        /\ (kb = k -> open_file w' best_path = Ok (PickleFile (SearchObj fitted))))
    /\ (save_best = false -> forall q : Posix.key, q <> k -> fs w' !! q = fs w !! q)
    /\ (forall q : Posix.key, q <> k -> q <> kb -> fs w' !! q = fs w !! q)
    /\ heap w' = heap w.
Proof.
  intros path best_path gs Hmiss Hfit Hw Hwb.
  eexists. split.
  { apply (search_miss_run X Y model param_dists cv0 n_iters n_jobs0 verbose0 scoring0 seed
             keep_train_score filename save_dir save_best best_name remake fitted k kb);
      eassumption. }
  fold path best_path gs.
  set (tr := trace w ++ _).
  split; [now apply slot_key in Hw as [Hw _]|].
  assert (Hopen : forall (p : string) (k0 : Posix.key) (f : gmap Posix.key node),
             slot (mkWorld f (heap w) (trace w)) p = inr k0 ->
             open_file (mkWorld (<[k0 := PickleFile (SearchObj fitted)]> f) (heap w) tr) p
             = Ok (PickleFile (SearchObj fitted))).
  { intros p k0 f Hp. exact (open_after_dump _ p k0 (mkWorld f (heap w) (trace w)) _ _ Hp). }
  split.
  { destruct save_best.
    - apply Hopen.
      exact (slot_after_dump _ best_path path kb k w (heap w) (trace w) (Hwb eq_refl) Hw).
    - apply Hopen. exact Hw. }
  split.
  { subst tr. cbn [trace]. rewrite !fits_app. destruct remake, save_best; cbn; lia. }
  split.
  { intros ->. specialize (Hwb eq_refl). split; [now apply slot_key in Hwb as [Hwb _]|].
    split.
    - intros Hne. unfold open_file, lookup.
      set (wb := mkWorld (<[kb := PickleFile (EstimatorObj (best_estimator_ fitted))]> (fs w))
                   (heap w) (trace w)).
      assert (Hkb : slot wb path = inr k)
        by exact (slot_after_dump _ best_path path kb k w _ _ Hwb Hw).
      rewrite (slot_lookup cwd (kinds w) _ best_path kb); [| | |exact Hwb].
      + cbn [fs]. rewrite lookup_insert_ne by congruence. now rewrite lookup_insert_eq.
      + apply (same_dirs_trans _ (kinds wb)).
        * apply same_dirs_dump. now apply slot_key in Hwb as [_ Hwb].
        * apply (same_dirs_dump _ k wb). now apply slot_key in Hkb as [_ Hkb].
      + etransitivity; [apply (kinds_insert_ne _ k kb wb); congruence|].
        apply kinds_dump. now apply slot_key in Hwb as [_ Hwb].
    - intros ->. apply Hopen.
      exact (slot_after_dump _ best_path best_path k k w (heap w) (trace w) Hwb Hwb). }
  split.
  { intros -> q Hq. cbn [fs]. now rewrite lookup_insert_ne by congruence. }
  split; [|reflexivity].
  intros q Hq Hqb. cbn [fs]. rewrite lookup_insert_ne by congruence.
  destruct save_best; [|reflexivity]. now rewrite lookup_insert_ne by congruence.
Qed.

(** ** Traces *)

Lemma emits_silent {A : Type} (m : M A) : silent m -> emits m [].
Proof.
  intros Hs w w' r H. exists []. rewrite app_nil_r. split; [now apply Hs with r|].
  split; [reflexivity | reflexivity].
Qed.

Lemma emits_bind {A B : Type} (m : M A) (k : A -> M B) (s1 s2 : list call) :
  emits m s1 -> (forall a : A, emits (k a) s2) -> emits (bind m k) (s1 ++ s2).
Proof.
  intros Hm Hk w w' r H. unfold bind in H.
  destruct (m w) as [[a|e] w1] eqn:E.
  - destruct (Hm _ _ _ E) as (evs1 & Ht1 & _ & Hall1).
    destruct (Hk a _ _ _ H) as (evs2 & Ht2 & Hp2 & Hall2).
    exists (evs1 ++ evs2). rewrite Ht2, Ht1, <- app_assoc. split; [reflexivity|].
    rewrite map_app, (Hall1 a eq_refl). split.
    + now apply prefix_app.
    + intros b Hb. now rewrite (Hall2 b Hb).
  - injection H as <- <-.
    destruct (Hm _ _ _ E) as (evs1 & Ht1 & Hp1 & _).
    exists evs1. split; [assumption|]. split; [now apply prefix_app_r | discriminate].
Qed.

Lemma emits_ret_bind {A B : Type} (a : A) (k : A -> M B) (s : list call) :
  emits (k a) s -> emits (bind (ret a) k) s.
Proof. intros H w w' r E. apply (H w w' r). exact E. Qed.

Lemma emits_eq {A : Type} (m : M A) (s s' : list call) : emits m s -> s = s' -> emits m s'.
Proof. now intros H <-. Qed.

Lemma emits_emit (e : event) : emits (emit e) [call_of e].
Proof.
  intros w w' r H. unfold emit in H. injection H as <- <-.
  exists [e]. split; [reflexivity|]. split; reflexivity.
Qed.

Lemma silent_ret {A : Type} (a : A) : silent (ret a).
Proof. intros w w' r H. unfold ret in H. now injection H as _ <-. Qed.

Lemma silent_raise {A : Type} (e : exn) : silent (@raise A e).
Proof. intros w w' r H. unfold raise in H. now injection H as _ <-. Qed.

Lemma silent_lift {A : Type} (x : result A) : silent (lift x).
Proof. intros w w' r H. unfold lift in H. now injection H as _ <-. Qed.

Lemma silent_deref (l : nat) : silent (deref l).
Proof.
  intros w w' r H. unfold deref in H.
  destruct (heap w !! l); now injection H as _ <-.
Qed.

Lemma silent_alloc (d : DataFrame) : silent (alloc d).
Proof. intros w w' r H. unfold alloc in H. now injection H as _ <-. Qed.

Lemma silent_assign (l : nat) (d : DataFrame) : silent (assign l d).
Proof. intros w w' r H. unfold assign in H. now injection H as _ <-. Qed.

Lemma silent_bind {A B : Type} (m : M A) (k : A -> M B) :
  silent m -> (forall a : A, silent (k a)) -> silent (bind m k).
Proof.
  intros Hm Hk w w' r H. unfold bind in H.
  destruct (m w) as [[a|e] w1] eqn:E.
  - rewrite (Hk a _ _ _ H). now apply Hm with (Ok a).
  - injection H as _ <-. now apply Hm with (Raise e).
Qed.

Lemma silent_frame_copy (df : nat) : silent (frame_copy df).
Proof. apply silent_bind; [apply silent_deref | intros; apply silent_alloc]. Qed.

Lemma silent_column_list (df : nat) : silent (column_list df).
Proof. apply silent_bind; [apply silent_deref | intros; apply silent_ret]. Qed.

Lemma silent_getitem (df : nat) (c : string) : silent (getitem df c).
Proof. apply silent_bind; [apply silent_deref | intros; apply silent_lift]. Qed.

Lemma silent_filtering_stage (df : nat) : silent (filtering_stage df).
Proof.
  unfold filtering_stage.
  apply silent_bind; [apply silent_getitem | intros lo].
  apply silent_bind; [apply silent_getitem | intros hi].
  apply silent_bind; [apply silent_deref | intros; apply silent_alloc].
Qed.

Lemma silent_map_target_values (df : nat) (target new_name : string) (enc : float -> float) :
  silent (map_target_values df target new_name enc).
Proof.
  unfold map_target_values.
  apply silent_bind; [apply silent_deref | intros d].
  apply silent_bind; [apply silent_lift | intros s].
  apply silent_bind; [apply silent_assign | intros; apply silent_ret].
Qed.

Lemma emits_pd_read_csv (path : string) : emits (pd_read_csv path) [CReadCsv path].
Proof.
  unfold pd_read_csv.
  apply (emits_bind _ _ [CReadCsv path] []); [apply (emits_emit (EvReadCsv path))|].
  intros _. apply emits_silent. intros w w' r H.
  destruct (open_file w path) as [[]|]; now injection H as _ <-.
Qed.

Lemma emits_joblib_load (path : string) : emits (joblib_load path) [CLoad path].
Proof.
  unfold joblib_load.
  apply (emits_bind _ _ [CLoad path] []); [apply (emits_emit (EvLoad path))|].
  intros _. apply emits_silent. intros w w' r H.
  destruct (open_file w path) as [[]|]; now injection H as _ <-.
Qed.

Lemma emits_joblib_dump (o : pyobj) (path : string) : emits (joblib_dump o path) [CDump path].
Proof.
  unfold joblib_dump.
  apply (emits_bind _ _ [CDump path] []); [apply (emits_emit (EvDump path))|].
  intros _. apply emits_silent. intros w w' r H.
  destruct (slot w path); now injection H as _ <-.
Qed.

Lemma emits_fit_search (gs : RandomizedSearchCV) (X : DataFrame) (Y : ndarray) :
  emits (fit_search gs X Y) [CFit].
Proof.
  unfold fit_search.
  apply (emits_bind _ _ [CFit] []); [apply (emits_emit (EvFit gs (nrows X)))|].
  intros _. apply emits_silent, silent_lift.
Qed.

Lemma emits_forced_search (X : DataFrame) (Y : ndarray) (model : Model)
    (param_dists : list (string * distribution)) (cv0 : CV) (n_iters n_jobs0 verbose0 : Z)
    (scoring0 : string) (seed : Z) (keep_train_score : bool)
    (filename save_dir best_name : string) :
  emits
    (search_random_params X Y model param_dists cv0 n_iters n_jobs0 verbose0 scoring0 seed
       keep_train_score filename save_dir true best_name true)
    (search_calls (PosixPath.join save_dir filename) (PosixPath.join save_dir best_name)).
Proof.
  unfold search_random_params. cbn [negb]. apply emits_ret_bind.
  apply (emits_bind _ _ [CFit] [_; _; _]); [apply emits_fit_search | intros fitted].
  apply (emits_bind _ _ [CDump _] [_; _]); [apply emits_joblib_dump | intros _].
  apply (emits_bind _ _ [CDump _] [_]); [apply emits_joblib_dump | intros _].
  apply emits_joblib_load.
Qed.

Lemma emits_split_train_test (df : nat) (target : string) (features : list string)
    (test_size : float) (seed : Z) :
  emits (split_train_test df target features test_size seed true) split_calls.
Proof.
  intros w w' r H.
  destruct (split_train_test_cases _ _ _ _ _ _ _ _ _ H)
    as [(_ & -> & ->)|[(_ & -> & e & -> & _)|(_ & d & s & X & _ & _ & _ & Hr)]].
  - exists []. rewrite app_nil_r. repeat split; [apply prefix_nil | discriminate].
  - exists []. rewrite app_nil_r. repeat split; [apply prefix_nil | discriminate].
  - destruct (train_test_split X (reshape_col (series_values s)) test_size seed)
      as [m|[[[Xtr Xte] Ytr] Yte]].
    + injection Hr as -> ->. eexists [_]. cbn [trace]. split; [reflexivity|].
      split; [|discriminate]. now eexists.
    + unfold after_split in Hr. injection Hr as Hr ->. cbn [trace].
      rewrite <- app_assoc. eexists. split; [reflexivity|]. split; reflexivity.
Qed.

Lemma emits_run_tag (tag : string) : emits (run_tag tag) (tag_calls tag).
Proof.
  unfold run_tag, load_csv.
  eapply emits_eq.
  - eapply emits_bind; [apply emits_pd_read_csv | intros df_orig].
    eapply emits_bind; [apply emits_silent, silent_frame_copy | intros df_copy].
    eapply emits_bind; [apply emits_silent, silent_column_list | intros cols].
    eapply emits_bind; [apply emits_silent, silent_filtering_stage | intros df_filtered].
    eapply emits_bind; [apply emits_silent, silent_map_target_values | intros df].
    eapply emits_bind; [apply emits_split_train_test | intros [[[Xtr Xte] Ytr] Yte]].
    eapply emits_bind; [apply emits_forced_search | intros rs].
    apply emits_silent, silent_ret.
  - reflexivity.
Qed.

Lemma emits_main : emits main (tag_calls "op" ++ tag_calls "rc").
Proof.
  unfold main, tags. cbn [for_each].
  eapply emits_eq.
  - eapply emits_bind; [apply emits_run_tag | intros _].
    eapply emits_bind; [apply emits_run_tag | intros _].
    apply emits_silent, silent_ret.
  - now rewrite app_nil_r.
Qed.

(** C8. [main] runs the pipeline for the tags ["op"] and ["rc"], in this
    order, each time calling [search_random_params] with [remake] set: the
    calls it makes are an initial part of the two variants' call lists, and
    all of them when [main] completes; it never asks whether an artifact
    exists, and every load follows a fit and a dump of the same variant, so
    that two searches are fitted in a complete run, whatever artifacts the
    file system held. *)
Theorem main_always_remakes (w w' : World) (r : result unit) :
  main w = (r, w') ->
  main = for_each ["op"; "rc"] run_tag
  /\ exists evs : list event,
       trace w' = trace w ++ evs
       /\ map call_of evs `prefix_of` tag_calls "op" ++ tag_calls "rc"
       /\ (r = Ok tt -> map call_of evs = tag_calls "op" ++ tag_calls "rc")
       /\ (r = Ok tt -> fits evs = 2)
       /\ (forall p : string, EvExists p ∉ evs).
Proof.
  intros H. split; [reflexivity|].
  destruct (emits_main _ _ _ H) as (evs & Ht & Hp & Hall).
  exists evs. split; [assumption|]. split; [assumption|].
  assert (Hcalls : forall p, CExists p ∉ tag_calls "op" ++ tag_calls "rc").
  { intros p Hin. unfold tag_calls in Hin. cbn [app] in Hin.
    absurd_member Hin. }
  assert (Hfits : forall l : list event, fits l = length (List.filter
            (fun c => match c with CFit => true | _ => false end) (map call_of l))).
  { intros l. unfold fits. induction l as [|e l IH]; [reflexivity|].
    cbn [map List.filter]. destruct e; cbn [is_fit call_of length]; now rewrite ?IH. }
  split; [intros ->; exact (Hall tt eq_refl)|].
  split.
  - intros ->. rewrite Hfits, (Hall tt eq_refl). reflexivity.
  - intros p Hin. apply (Hcalls p).
    destruct Hp as [rest ->]. apply elem_of_app. left.
    apply (list_elem_of_fmap_2 call_of) in Hin. exact Hin.
Qed.

(** ** Which objects a stage touches *)

Lemma extends_bind {A B : Type} (m : M A) (k : A -> M B) :
  extends m -> (forall a : A, extends (k a)) -> extends (bind m k).
Proof.
  intros Hm Hk w w' r H. unfold bind in H.
  destruct (m w) as [[a|e] w1] eqn:E.
  - destruct (Hm _ _ _ E) as (Hfs1 & ext1 & H1).
    destruct (Hk a _ _ _ H) as (Hfs2 & ext2 & H2).
    split; [congruence|]. exists (ext1 ++ ext2). now rewrite H2, H1, app_assoc.
  - injection H as _ <-. now apply Hm with (Raise e).
Qed.

Lemma extends_pure {A : Type} (m : M A) :
  (forall (w w' : World) (r : result A), m w = (r, w') -> fs w' = fs w /\ heap w' = heap w) ->
  extends m.
Proof.
  intros Hm w w' r H. destruct (Hm _ _ _ H) as [Hfs Hh].
  split; [assumption|]. exists []. now rewrite app_nil_r.
Qed.

Lemma extends_deref (l : nat) : extends (deref l).
Proof.
  apply extends_pure. intros w w' r H. unfold deref in H.
  destruct (heap w !! l); now injection H as _ <-.
Qed.

Lemma extends_lift {A : Type} (x : result A) : extends (lift x).
Proof. apply extends_pure. intros w w' r H. unfold lift in H. now injection H as _ <-. Qed.

Lemma extends_alloc (d : DataFrame) : extends (alloc d).
Proof.
  intros w w' r H. unfold alloc in H. injection H as _ <-. cbn [fs heap].
  split; [reflexivity | now exists [d]].
Qed.

Lemma extends_filtering_stage (df : nat) : extends (filtering_stage df).
Proof.
  unfold filtering_stage, getitem, loc.
  apply extends_bind; [|intros lo].
  { apply extends_bind; [apply extends_deref | intros; apply extends_lift]. }
  apply extends_bind; [|intros hi].
  { apply extends_bind; [apply extends_deref | intros; apply extends_lift]. }
  apply extends_bind; [apply extends_deref | intros; apply extends_alloc].
Qed.

Lemma map_target_values_cases (df : nat) (target new_name : string) (enc : float -> float)
    (w w' : World) (r : result nat) :
  map_target_values df target new_name enc w = (r, w') ->
  (w' = w /\ exists e, r = Raise e)
  \/ (exists (d : DataFrame) (s : Series),
        heap w !! df = Some d /\ frame_getitem d target = Ok s /\ r = Ok df /\
        w' = mkWorld (fs w)
               (<[df := frame_setitem d new_name (series_map enc s)]> (heap w)) (trace w)).
Proof.
  intros H. destruct (heap w !! df) as [d|] eqn:Hd.
  - destruct (frame_getitem d target) as [s|e] eqn:Hs.
    + right. exists d, s. rewrite (map_target_values_run _ _ _ _ _ _ _ Hd Hs) in H.
      injection H as <- <-. auto.
    + left. rewrite (map_target_values_raise _ _ _ _ _ _ _ Hd Hs) in H.
      injection H as <- <-. eauto.
  - left. unfold map_target_values, bind, deref in H. rewrite Hd in H.
    injection H as <- <-. eauto.
Qed.

(** ** The features of [main] *)

Lemma select_features_spec (cols : list string) (f : string) :
  f ∈ select_features cols
  <-> f ∈ cols /\ f <> "loop-tof" /\ f <> "steady-state-condition".
Proof.
  unfold select_features. rewrite list_elem_of_filter. cbn [app].
  rewrite !not_elem_of_cons. split.
  - intros [(H1 & H2 & _) H]. auto.
  - intros (H & H1 & H2). repeat split; try assumption. apply not_elem_of_nil.
Qed.

Lemma bind_inv {A B : Type} (m : M A) (k : A -> M B) (w w' : World) (r : result B) :
  bind m k w = (r, w') ->
  (exists e, m w = (Raise e, w') /\ r = Raise e)
  \/ (exists (a : A) (w1 : World), m w = (Ok a, w1) /\ k a w1 = (r, w')).
Proof.
  unfold bind. destruct (m w) as [[a|e] w1].
  - intros H. right. now exists a, w1.
  - intros [= <- <-]. left. now exists e.
Qed.

Lemma load_csv_run (filename data_dir : string) (t : DataFrame) (w : World) :
  open_file w (PosixPath.join data_dir filename) = Ok (CsvFile t) ->
  load_csv filename data_dir w =
    (Ok (length (heap w)),
     mkWorld (fs w) (heap w ++ [t])
       (trace w ++ [EvReadCsv (PosixPath.join data_dir filename)])).
Proof.
  intros H. unfold load_csv, pd_read_csv, bind, emit.
  match goal with
  | |- context [open_file (mkWorld (fs w) (heap w) ?t) ?p] =>
      change (open_file (mkWorld (fs w) (heap w) t) p) with (open_file w p)
  end.
  now rewrite H.
Qed.

Lemma frame_copy_run (df : nat) (d : DataFrame) (w : World) :
  heap w !! df = Some d ->
  frame_copy df w = (Ok (length (heap w)), mkWorld (fs w) (heap w ++ [d]) (trace w)).
Proof.
  intros H. unfold frame_copy. now rewrite (bind_ok _ _ _ _ _ (deref_ok _ _ _ H)).
Qed.

Lemma column_list_run (df : nat) (d : DataFrame) (w : World) :
  heap w !! df = Some d -> column_list df w = (Ok (columns d), w).
Proof.
  intros H. unfold column_list. now rewrite (bind_ok _ _ _ _ _ (deref_ok _ _ _ H)).
Qed.

Lemma split_train_test_events (df : nat) (target : string) (features : list string)
    (test_size : float) (seed : Z) (check_shape : bool) (w w' : World)
    (r : result (DataFrame * DataFrame * ndarray * ndarray)) :
  split_train_test df target features test_size seed check_shape w = (r, w') ->
  exists evs : list event,
    trace w' = trace w ++ evs
    /\ forall (cols : list string) (n : nat) (p : float) (s : Z),
         EvSplit cols n p s ∈ evs -> cols = features.
Proof.
  intros H.
  destruct (split_train_test_cases _ _ _ _ _ _ _ _ _ H)
    as [(_ & _ & ->)|[(_ & -> & _)|(_ & d & s0 & X & _ & _ & HX & Hr)]].
  - exists []. rewrite app_nil_r. split; [reflexivity|]. intros ? ? ? ? Hin.
    now apply elem_of_nil in Hin.
  - exists []. rewrite app_nil_r. split; [reflexivity|]. intros ? ? ? ? Hin.
    now apply elem_of_nil in Hin.
  - apply frame_getitems_Ok in HX as [HX _].
    destruct (train_test_split X (reshape_col (series_values s0)) test_size seed)
      as [m|[[[Xtr Xte] Ytr] Yte]].
    + injection Hr as _ ->. cbn [trace]. eexists. split; [reflexivity|].
      intros cols n p s Hin. apply list_elem_of_singleton in Hin. congruence.
    + unfold after_split in Hr. destruct check_shape; injection Hr as _ ->; cbn [trace].
      * rewrite <- app_assoc. eexists. split; [reflexivity|]. intros cols n p s Hin.
        cbn [app] in Hin. apply elem_of_cons in Hin as [Hin|Hin]; [congruence|].
        absurd_member Hin.
      * eexists. split; [reflexivity|]. intros cols n p s Hin.
        apply list_elem_of_singleton in Hin. congruence.
Qed.

Lemma forced_search_no_split (X : DataFrame) (Y : ndarray) (model : Model)
    (param_dists : list (string * distribution)) (cv0 : CV) (n_iters n_jobs0 verbose0 : Z)
    (scoring0 : string) (seed : Z) (keep_train_score : bool)
    (filename save_dir best_name : string) (w w' : World) (r : result pyobj) :
  search_random_params X Y model param_dists cv0 n_iters n_jobs0 verbose0 scoring0 seed
    keep_train_score filename save_dir true best_name true w = (r, w') ->
  exists evs : list event,
    trace w' = trace w ++ evs
    /\ forall (cols : list string) (n : nat) (p : float) (s : Z), EvSplit cols n p s ∉ evs.
Proof.
  intros H. destruct (emits_forced_search _ _ _ _ _ _ _ _ _ _ _ _ _ _ _ _ _ H)
    as (evs & Ht & [rest Hp] & _).
  exists evs. split; [assumption|]. intros cols n p s Hin.
  apply (list_elem_of_fmap_2 call_of) in Hin. cbn [call_of] in Hin.
  assert (Hin' : CSplit ∈ map call_of evs ++ rest) by (apply elem_of_app; now left).
  rewrite <- Hp in Hin'. unfold search_calls in Hin'.
  absurd_member Hin'.
Qed.

Lemma keeps_heap_bind {A B : Type} (m : M A) (k : A -> M B) :
  keeps_heap m -> (forall a : A, keeps_heap (k a)) -> keeps_heap (bind m k).
Proof.
  intros Hm Hk w w' r H. apply bind_inv in H as [(e & H & _)|(a & w1 & H & Hk1)].
  - now apply Hm in H.
  - apply Hm in H. apply Hk in Hk1. congruence.
Qed.

Lemma keeps_heap_ret {A : Type} (a : A) : keeps_heap (ret a).
Proof. intros w w' r H. unfold ret in H. now injection H as _ <-. Qed.

Lemma keeps_heap_lift {A : Type} (x : result A) : keeps_heap (lift x).
Proof. intros w w' r H. unfold lift in H. now injection H as _ <-. Qed.

Lemma keeps_heap_emit (e : event) : keeps_heap (emit e).
Proof. intros w w' r H. unfold emit in H. now injection H as _ <-. Qed.

Lemma keeps_heap_exists (path : string) : keeps_heap (os_path_exists path).
Proof.
  unfold os_path_exists. apply keeps_heap_bind; [apply keeps_heap_emit | intros _].
  intros w w' r H. now injection H as _ <-.
Qed.

Lemma keeps_heap_load (path : string) : keeps_heap (joblib_load path).
Proof.
  unfold joblib_load. apply keeps_heap_bind; [apply keeps_heap_emit | intros _].
  intros w w' r H. destruct (open_file w path) as [[]|]; now injection H as _ <-.
Qed.

Lemma keeps_heap_dump (o : pyobj) (path : string) : keeps_heap (joblib_dump o path).
Proof.
  unfold joblib_dump. apply keeps_heap_bind; [apply keeps_heap_emit | intros _].
  intros w w' r H. destruct (slot w path); now injection H as _ <-.
Qed.

Lemma keeps_heap_search (X : DataFrame) (Y : ndarray) (model : Model)
    (param_dists : list (string * distribution)) (cv0 : CV) (n_iters n_jobs0 verbose0 : Z)
    (scoring0 : string) (seed : Z) (keep_train_score : bool)
    (filename save_dir : string) (save_best : bool) (best_name : string) (remake : bool) :
  keeps_heap
    (search_random_params X Y model param_dists cv0 n_iters n_jobs0 verbose0 scoring0 seed
       keep_train_score filename save_dir save_best best_name remake).
Proof.
  unfold search_random_params. apply keeps_heap_bind.
  { destruct (negb remake); [apply keeps_heap_exists | apply keeps_heap_ret]. }
  intros [|]; [apply keeps_heap_load|].
  apply keeps_heap_bind; [|intros fitted].
  { unfold fit_search. apply keeps_heap_bind; [apply keeps_heap_emit | intros _].
    apply keeps_heap_lift. }
  apply keeps_heap_bind; [|intros _].
  { destruct save_best; [apply keeps_heap_dump | apply keeps_heap_ret]. }
  apply keeps_heap_bind; [apply keeps_heap_dump | intros _; apply keeps_heap_load].
Qed.

(** One variant's run, stage by stage: after the table [t] has been read, the
    heap holds the loaded frame, its copy and, unless the filter fails for
    want of a [loop-tof] column, the filtered frame with the derived column;
    the partitioner and the forced search follow. *)
Lemma run_tag_stages (tag : string) (t : DataFrame) (w w' : World) (r : result unit) :
  let p := PosixPath.join TRAINING_DATA_DIR ("ml_data_" +:+ tag +:+ "_steady.csv") in
  open_file w p = Ok (CsvFile t) ->
  run_tag tag w = (r, w') ->
  (index_of "loop-tof" (columns t) = None
   /\ w' = mkWorld (fs w) (heap w ++ [t; t]) (trace w ++ [EvReadCsv p]))
  \/ exists (i : nat) (w5 : World)
       (r1 : result (DataFrame * DataFrame * ndarray * ndarray)),
       let kept := mkFrame (columns t) (filter (fun r0 : row => keep (cell i r0)) (rows t)) in
       let encoded :=
         frame_setitem kept "log-loop-tof"
           (series_map log_abs (map (fun r0 : row => (fst r0, cell i r0)) (rows kept))) in
       let w4 := mkWorld (fs w) (heap w ++ [t; t; encoded]) (trace w ++ [EvReadCsv p]) in
       index_of "loop-tof" (columns t) = Some i
       /\ split_train_test (length (heap w) + 2) "log-loop-tof" (select_features (columns t))
            0x1.999999999999ap-4%float SEED true w4 = (r1, w5)
       /\ match r1 with
          | Raise e => w' = w5
          | Ok (X_train, _, Y_train, _) =>
              exists r2 : result pyobj,
                search_random_params X_train (ravel Y_train) (RandomForestRegressor SEED)
                  main_param_dists (KFold 10 false) 5000 128 1 "neg_mean_absolute_error"
                  SEED true ("rf_reg_" +:+ tag +:+ ".pkl")
                  (PosixPath.join SAVE_DIR (tag +:+ "_steady")) true
                  ("rf_reg_" +:+ tag +:+ "-best-estm.pkl") true w5 = (r2, w')
          end.
Proof.
  intros p Hcsv H. unfold run_tag in H.
  rewrite (bind_ok _ _ _ _ _ (load_csv_run _ _ _ _ Hcsv)) in H. fold p in H.
  set (w1 := mkWorld (fs w) (heap w ++ [t]) (trace w ++ [EvReadCsv p])) in *.
  assert (H1 : heap w1 !! length (heap w) = Some t).
  { subst w1. cbn [heap]. rewrite lookup_app_r by lia. now rewrite Nat.sub_diag. }
  rewrite (bind_ok _ _ _ _ _ (frame_copy_run _ _ _ H1)) in H.
  set (w2 := mkWorld (fs w1) (heap w1 ++ [t]) (trace w1)) in *.
  assert (Hlen1 : length (heap w1) = length (heap w) + 1).
  { subst w1. cbn [heap]. rewrite length_app. reflexivity. }
  assert (H2 : heap w2 !! length (heap w1) = Some t).
  { subst w2. cbn [heap]. rewrite lookup_app_r by lia. now rewrite Nat.sub_diag. }
  rewrite (bind_ok _ _ _ _ _ (column_list_run _ _ _ H2)) in H.
  assert (Hh2 : heap w2 = heap w ++ [t; t]).
  { subst w2 w1. cbn [heap]. now rewrite <- app_assoc. }
  destruct (index_of "loop-tof" (columns t)) as [i|] eqn:Hi.
  2:{ left. split; [reflexivity|].
      rewrite (bind_raise _ _ _ _ _ (filtering_stage_raise _ _ _ H2 Hi)) in H.
      injection H as _ <-. subst w2. cbn [fs trace]. f_equal. exact Hh2. }
  right.
  rewrite (bind_ok _ _ _ _ _ (filtering_stage_run _ _ _ _ H2 Hi)) in H.
  set (kept := mkFrame (columns t) (filter (fun r0 : row => keep (cell i r0)) (rows t))) in *.
  set (w3 := mkWorld (fs w2) (heap w2 ++ [kept]) (trace w2)) in *.
  assert (Hlen2 : length (heap w2) = length (heap w) + 2).
  { rewrite Hh2, length_app. reflexivity. }
  assert (H3 : heap w3 !! length (heap w2) = Some kept).
  { subst w3. cbn [heap]. rewrite lookup_app_r by lia. now rewrite Nat.sub_diag. }
  assert (Hg : frame_getitem kept "loop-tof"
               = Ok (map (fun r0 : row => (fst r0, cell i r0)) (rows kept))).
  { unfold frame_getitem. subst kept. cbn [columns]. now rewrite Hi. }
  rewrite (bind_ok _ _ _ _ _ (map_target_values_run _ _ _ _ _ _ _ H3 Hg)) in H.
  set (encoded := frame_setitem kept "log-loop-tof"
         (series_map log_abs (map (fun r0 : row => (fst r0, cell i r0)) (rows kept)))) in *.
  assert (Hw4 : mkWorld (fs w3) (<[length (heap w2) := encoded]> (heap w3)) (trace w3)
                = mkWorld (fs w) (heap w ++ [t; t; encoded]) (trace w ++ [EvReadCsv p])).
  { subst w3. cbn [fs heap trace]. f_equal.
    rewrite insert_app_r_alt by lia. rewrite Nat.sub_diag. cbn [insert list_insert].
    rewrite Hh2, <- app_assoc. reflexivity. }
  rewrite Hw4, Hlen2 in H.
  apply bind_inv in H as [(e & Hsplit & _)|([[[Xtr Xte] Ytr] Yte] & w5 & Hsplit & H)].
  - exists i, w', (Raise e). cbv zeta. fold kept encoded. auto.
  - exists i, w5, (Ok (Xtr, Xte, Ytr, Yte)). cbv zeta. fold kept encoded.
    split; [reflexivity|]. split; [exact Hsplit|].
    apply bind_inv in H as [(e & Hsearch & _)|(rs & w6 & Hsearch & H)].
    + now exists (Raise e).
    + unfold ret in H. injection H as _ <-. now exists (Ok rs).
Qed.

(** C9 (as the code has it). The filter and the partitioner leave the frame
    they are given, and every other live frame, as it was: the filter builds
    its result as a new object and the partitioner changes no object at all.
    The target encoder does not: it writes the new column into the very
    frame it is given and returns that same object; the column holds the
    encoded target, every other column of the frame reads as before (the
    labels gain the new name, last, when it was not one of them) and no
    other object changes. In [main] the encoder is given the filter's new
    frame, so that the loaded table and its copy, and the frames that were
    live before, are as they were when a variant's run ends. *)
Theorem stages_and_their_input_frame :
  (forall (df : nat) (w w' : World) (r : result nat),
     filtering_stage df w = (r, w') ->
     (forall l : nat, l < length (heap w) -> heap w' !! l = heap w !! l)
     /\ (forall l : nat, r = Ok l -> l = length (heap w)))
  /\ (forall (df : nat) (target : string) (features : list string) (test_size : float)
        (seed : Z) (check_shape : bool) (w w' : World)
        (r : result (DataFrame * DataFrame * ndarray * ndarray)),
        split_train_test df target features test_size seed check_shape w = (r, w') ->
        heap w' = heap w)
  /\ (forall (df : nat) (d : DataFrame) (target new_name : string) (enc : float -> float)
        (s : Series) (w : World),
        heap w !! df = Some d ->
        wf_frame d ->
        frame_getitem d target = Ok s ->
        exists (d' : DataFrame) (w' : World),
          map_target_values df target new_name enc w = (Ok df, w')
          /\ heap w' !! df = Some d'
          /\ frame_getitem d' new_name = Ok (series_map enc s)
          /\ (forall c : string, c <> new_name -> frame_getitem d' c = frame_getitem d c)
          /\ columns d' = (if decide (new_name ∈ columns d)
                           then columns d else columns d ++ [new_name])
          /\ (forall l : nat, l <> df -> heap w' !! l = heap w !! l))
  /\ (forall (tag : string) (t : DataFrame) (w w' : World) (r : result unit),
        open_file w (PosixPath.join TRAINING_DATA_DIR ("ml_data_" +:+ tag +:+ "_steady.csv"))
          = Ok (CsvFile t) ->
        run_tag tag w = (r, w') ->
        heap w' !! length (heap w) = Some t
        /\ heap w' !! S (length (heap w)) = Some t
        /\ (forall l : nat, l < length (heap w) -> heap w' !! l = heap w !! l)).
Proof.
  split; [|split; [|split]].
  - intros df w w' r H. split.
    + intros l Hl. destruct (extends_filtering_stage df _ _ _ H) as (_ & ext & ->).
      now apply lookup_app_l.
    + intros l ->. destruct (heap w !! df) as [d|] eqn:Hd.
      * destruct (index_of "loop-tof" (columns d)) as [i|] eqn:Hi.
        -- rewrite (filtering_stage_run _ _ _ _ Hd Hi) in H. now injection H as ->.
        -- exfalso. now rewrite (filtering_stage_raise _ _ _ Hd Hi) in H.
      * exfalso. unfold filtering_stage, getitem, bind, deref in H. now rewrite Hd in H.
  - intros df target features test_size seed check_shape w w' r H.
    now apply split_train_test_frame in H.
  - intros df d target new_name enc s w Hd Hwf Hs.
    exists (frame_setitem d new_name (series_map enc s)).
    eexists. split; [apply (map_target_values_run _ _ _ _ _ _ _ Hd Hs)|]. cbn [heap].
    destruct (frame_getitem_Ok _ _ _ Hs) as (i & Hi & ->).
    split.
    { apply list_lookup_insert_eq. now apply lookup_lt_Some with d. }
    split.
    { rewrite series_map_getitem. now apply getitem_setitem_eq. }
    split.
    { intros c Hc. rewrite series_map_getitem. now apply getitem_setitem_ne. }
    split; [apply setitem_columns|].
    intros l Hl. now apply list_lookup_insert_ne.
  - intros tag t w w' r Hcsv H.
    assert (Hlook : forall tl : list DataFrame,
              (heap w ++ t :: t :: tl) !! length (heap w) = Some t
              /\ (heap w ++ t :: t :: tl) !! S (length (heap w)) = Some t
              /\ (forall l : nat, l < length (heap w) ->
                    (heap w ++ t :: t :: tl) !! l = heap w !! l)).
    { intros tl. split; [|split].
      - rewrite lookup_app_r by lia. now rewrite Nat.sub_diag.
      - rewrite lookup_app_r by lia.
        replace (S (length (heap w)) - length (heap w)) with 1 by lia. reflexivity.
      - intros l Hl. now apply lookup_app_l. }
    destruct (run_tag_stages _ _ _ _ _ Hcsv H)
      as [(_ & ->)|(i & w5 & r1 & _ & Hsplit & Hrest)].
    + cbn [heap]. apply Hlook.
    + cbv zeta in Hsplit, Hrest.
      apply split_train_test_frame in Hsplit as [Hh5 _]. cbn [heap] in Hh5.
      assert (Hh : heap w' = heap w5).
      { destruct r1 as [[[[Xtr Xte] Ytr] Yte]|e]; [|now subst].
        destruct Hrest as (r2 & Hsearch). now apply keeps_heap_search in Hsearch. }
      rewrite Hh, Hh5. apply Hlook.
Qed.

(** C10 (as the code has it). In [main] the feature list is computed from
    the columns of the loaded table, before the derived column is written,
    leaving out [loop-tof] and [steady-state-condition]: every call of the
    splitter during a variant's run is given exactly these features, so
    neither of the two is among them, and [log-loop-tof] is not among them
    either whenever the loaded table has no column of that name. *)
Theorem features_leave_out_targets (tag : string) (t : DataFrame) (w w' : World)
    (r : result unit) :
  open_file w (PosixPath.join TRAINING_DATA_DIR ("ml_data_" +:+ tag +:+ "_steady.csv"))
    = Ok (CsvFile t) ->
  run_tag tag w = (r, w') ->
  exists evs : list event,
    trace w' = trace w ++ evs
    /\ forall (cols : list string) (n : nat) (p : float) (s : Z),
         EvSplit cols n p s ∈ evs ->
         cols = select_features (columns t)
         /\ ("loop-tof" ∉ cols)
         /\ ("steady-state-condition" ∉ cols)
         /\ ("log-loop-tof" ∉ columns t -> "log-loop-tof" ∉ cols).
Proof.
  intros Hcsv H.
  assert (Hsel : forall cols : list string,
            cols = select_features (columns t) ->
            cols = select_features (columns t)
            /\ ("loop-tof" ∉ cols)
            /\ ("steady-state-condition" ∉ cols)
            /\ ("log-loop-tof" ∉ columns t -> "log-loop-tof" ∉ cols)).
  { intros cols ->. split; [reflexivity|]. repeat split.
    - intros Hin. apply select_features_spec in Hin. tauto.
    - intros Hin. apply select_features_spec in Hin. tauto.
    - intros Hno Hin. apply select_features_spec in Hin. tauto. }
  destruct (run_tag_stages _ _ _ _ _ Hcsv H)
    as [(_ & ->)|(i & w5 & r1 & _ & Hsplit & Hrest)].
  - cbn [trace]. eexists. split; [reflexivity|].
    intros cols n q s Hin. apply list_elem_of_singleton in Hin. discriminate.
  - cbv zeta in Hsplit, Hrest.
    apply split_train_test_events in Hsplit as (evs & Ht & Hev). cbn [trace] in Ht.
    assert (Hrest' : exists evs' : list event,
              trace w' = trace w5 ++ evs'
              /\ forall (cols : list string) (n : nat) (q : float) (s : Z),
                   EvSplit cols n q s ∉ evs').
    { destruct r1 as [[[[Xtr Xte] Ytr] Yte]|e].
      - destruct Hrest as (r2 & Hsearch). now apply forced_search_no_split in Hsearch.
      - subst w'. exists []. rewrite app_nil_r. split; [reflexivity|].
        intros ? ? ? ?. apply not_elem_of_nil. }
    destruct Hrest' as (evs' & Ht' & Hev').
    exists (EvReadCsv (PosixPath.join TRAINING_DATA_DIR ("ml_data_" +:+ tag +:+ "_steady.csv"))
              :: evs ++ evs').
    split.
    { rewrite Ht', Ht. now rewrite <- !app_assoc. }
    intros cols n q s Hin. apply elem_of_cons in Hin as [Hin|Hin]; [discriminate|].
    apply elem_of_app in Hin as [Hin|Hin]; [|now apply Hev' in Hin].
    apply Hsel. now apply Hev in Hin.
Qed.

(** ** Further properties of the stages *)

Lemma lookup_snoc_length {A : Type} (l : list A) (x : A) : (l ++ [x]) !! length l = Some x.
Proof. rewrite lookup_app_r by lia. now rewrite Nat.sub_diag. Qed.

(** X1. [load_csv] reads the file at the path joined from [data_dir] and
    [filename] and nothing else. It returns normally exactly when that path
    holds a CSV file, and then the result is a new object, no live frame
    before the call, that holds the file's table; a missing path raises
    [FileNotFoundError] with that path. Whatever the outcome, the files and
    the frames that were live stay as they were, and a failed load creates
    no object. *)
Theorem load_csv_fresh_object (filename data_dir : string) (w w' : World) (r : result nat) :
  load_csv filename data_dir w = (r, w') ->
  let path := PosixPath.join data_dir filename in
  fs w' = fs w
  /\ trace w' = trace w ++ [EvReadCsv path]
  /\ (forall l : nat, l < length (heap w) -> heap w' !! l = heap w !! l)
  /\ ((exists l : nat, r = Ok l) <-> (exists t : DataFrame, open_file w path = Ok (CsvFile t)))
  /\ (forall l : nat, r = Ok l ->
        heap w !! l = None
        /\ exists t : DataFrame, open_file w path = Ok (CsvFile t) /\ heap w' !! l = Some t)
  /\ (forall e : exn, r = Raise e -> heap w' = heap w)
  /\ (lookup w path = inl Posix.ENOENT -> r = Raise (FileNotFoundError path)).
Proof.
  intros H path. unfold load_csv, pd_read_csv, bind, emit in H.
  fold path in H.
  change (open_file (mkWorld (fs w) (heap w) (trace w ++ [EvReadCsv path])) path)
    with (open_file w path) in H.
  assert (Hmiss : lookup w path = inl Posix.ENOENT ->
                  open_file w path = Raise (FileNotFoundError path)).
  { intros Hl. unfold open_file. now rewrite Hl. }
  destruct (open_file w path) as [[| o | t]|e] eqn:E; unfold alloc in H; cbn [fs heap trace] in H;
    injection H as <- <-; cbn [fs heap trace].
  all: split; [reflexivity|]; split; [reflexivity|].
  all: split; [intros l Hl; try reflexivity; now apply lookup_app_l|].
  all: split; [split; [intros [l [=]] | intros [t0 [=]]]; eauto|].
  all: split; [intros l [=]|].
  all: try (split; [reflexivity | intros Hl; now specialize (Hmiss Hl)]).
  - subst l. split; [apply lookup_ge_None_2; lia|].
    exists t. split; [reflexivity | apply lookup_snoc_length].
  - split; [discriminate | intros Hl; now specialize (Hmiss Hl)].
  - split; [reflexivity|]. intros Hl. specialize (Hmiss Hl). congruence.
Qed.

(** X2. When the target column is missing, [map_target_values] raises
    [KeyError] with the target's name and does nothing else: the frame gets
    no new column and the world is as before the call. *)
Theorem map_target_values_missing_target (df : nat) (d : DataFrame)
    (target new_name : string) (enc : float -> float) (w : World) :
  heap w !! df = Some d ->
  target ∉ columns d ->
  map_target_values df target new_name enc w = (Raise (KeyError target), w).
Proof.
  intros Hd Hno. apply map_target_values_raise with d; [assumption|].
  unfold frame_getitem. apply index_of_None in Hno. now rewrite Hno.
Qed.

Lemma setitem_rows_length (d : DataFrame) (name : string) (f : row -> float) :
  nrows (frame_setitem d name (map (fun r : row => (fst r, f r)) (rows d))) = nrows d.
Proof.
  unfold frame_setitem, nrows.
  destruct (index_of name (columns d)); cbn [rows];
    rewrite length_zip_with, length_map; lia.
Qed.

Lemma zip_with_self_map {A B C : Type} (F : A -> B -> C) (g : A -> B) (l : list A) :
  zip_with F l (map g l) = map (fun a => F a (g a)) l.
Proof. induction l as [|a l IH]; [reflexivity|]. cbn [map zip_with]. now rewrite IH. Qed.

Lemma setitem_wf (d : DataFrame) (name : string) (f : row -> float) :
  wf_frame d ->
  wf_frame (frame_setitem d name (map (fun r : row => (fst r, f r)) (rows d))).
Proof.
  unfold wf_frame, frame_setitem. intros Hwf.
  destruct (index_of name (columns d)); cbn [rows columns];
    rewrite zip_with_self_map, Forall_map; (eapply Forall_impl; [exact Hwf|]);
    intros r Hr; cbn [fst snd].
  - now rewrite length_insert.
  - rewrite !length_app, Hr. reflexivity.
Qed.

Lemma setitem_labels (d : DataFrame) (name : string) (f : row -> float) :
  map fst (rows (frame_setitem d name (map (fun r : row => (fst r, f r)) (rows d))))
  = map fst (rows d).
Proof.
  unfold frame_setitem.
  destruct (index_of name (columns d)); cbn [rows];
    rewrite zip_with_self_map, map_map; reflexivity.
Qed.

(** X3. On a well-formed frame [map_target_values] keeps the table
    rectangular: the frame it leaves has one cell per column in every row,
    the same number of rows and the same index labels in the same order;
    when the new name is already a column (the target itself included) the
    column labels do not change, the column being overwritten in place. *)
Theorem map_target_values_keeps_shape (df : nat) (d : DataFrame) (target new_name : string)
    (enc : float -> float) (s : Series) (w : World) :
  heap w !! df = Some d ->
  wf_frame d ->
  frame_getitem d target = Ok s ->
  exists d' : DataFrame,
    heap (snd (map_target_values df target new_name enc w)) !! df = Some d'
    /\ wf_frame d'
    /\ nrows d' = nrows d
    /\ map fst (rows d') = map fst (rows d)
    /\ (new_name ∈ columns d -> columns d' = columns d)
    /\ length (columns d) <= length (columns d') <= S (length (columns d)).
Proof.
  intros Hd Hwf Hs. rewrite (map_target_values_run _ _ _ _ _ _ _ Hd Hs). cbn [snd heap].
  destruct (frame_getitem_Ok _ _ _ Hs) as (i & Hi & ->).
  rewrite series_map_getitem.
  eexists. split; [apply list_lookup_insert_eq; now apply lookup_lt_Some with d|].
  split; [now apply setitem_wf|].
  split; [apply setitem_rows_length|].
  split; [apply setitem_labels|].
  rewrite setitem_columns. split.
  - intros Hin. now rewrite decide_True.
  - destruct (decide (new_name ∈ columns d)); [lia|]. rewrite length_app. cbn. lia.
Qed.

Lemma setitem_again (d : DataFrame) (name : string) (f : row -> float) :
  wf_frame d ->
  let S := map (fun r : row => (fst r, f r)) (rows d) in
  frame_setitem (frame_setitem d name S) name S = frame_setitem d name S.
Proof.
  intros Hwf S. unfold wf_frame in Hwf. rewrite Forall_forall in Hwf.
  assert (Hzz : forall (G : row -> float -> list float) (k : nat) (rs : list row),
            (forall r : row, r ∈ rs -> <[k := f r]> (G r (f r)) = G r (f r)) ->
            zip_with (fun (r : row) (v : Z * float) => (fst r, <[k := snd v]> (snd r)))
              (zip_with (fun (r : row) (v : Z * float) => (fst r, G r (snd v))) rs
                 (map (fun r : row => (fst r, f r)) rs))
              (map (fun r : row => (fst r, f r)) rs)
            = zip_with (fun (r : row) (v : Z * float) => (fst r, G r (snd v))) rs
                (map (fun r : row => (fst r, f r)) rs)).
  { intros G k rs. induction rs as [|r rs IH]; intros HG; [reflexivity|].
    cbn [map zip_with fst snd]. f_equal.
    - f_equal. apply HG, list_elem_of_here.
    - apply IH. intros r' Hr'. apply HG. now apply list_elem_of_further. }
  destruct (index_of name (columns d)) as [i|] eqn:Hi.
  - assert (E : frame_setitem d name S
                = mkFrame (columns d)
                    (zip_with (fun (r : row) (v : Z * float) => (fst r, <[i := snd v]> (snd r)))
                       (rows d) S))
      by (unfold frame_setitem; now rewrite Hi).
    rewrite E. unfold frame_setitem. cbn [columns rows]. rewrite Hi. f_equal.
    apply (Hzz (fun r x => <[i := x]> (snd r))).
    intros r Hr. apply list_insert_insert_eq.
  - assert (E : frame_setitem d name S
                = mkFrame (columns d ++ [name])
                    (zip_with (fun (r : row) (v : Z * float) => (fst r, snd r ++ [snd v]))
                       (rows d) S))
      by (unfold frame_setitem; now rewrite Hi).
    rewrite E. unfold frame_setitem. cbn [columns rows].
    rewrite (index_of_app_new _ _ Hi). f_equal.
    apply (Hzz (fun r x => snd r ++ [x])).
    intros r Hr. apply list_insert_id. rewrite <- (Hwf r Hr). apply lookup_snoc_length.
Qed.

(** X4. Encoding twice is encoding once: on a well-formed frame, with a new
    name other than the target, a second call of [map_target_values] with
    the same arguments returns the same object and leaves every frame as
    the first call left it. *)
Theorem map_target_values_idempotent (df : nat) (d : DataFrame) (target new_name : string)
    (enc : float -> float) (s : Series) (w : World) :
  heap w !! df = Some d ->
  wf_frame d ->
  frame_getitem d target = Ok s ->
  target <> new_name ->
  let w1 := snd (map_target_values df target new_name enc w) in
  map_target_values df target new_name enc w1 = (Ok df, w1).
Proof.
  intros Hd Hwf Hs Hne w1. subst w1.
  rewrite (map_target_values_run _ _ _ _ _ _ _ Hd Hs). cbn [snd].
  destruct (frame_getitem_Ok _ _ _ Hs) as (i & Hi & ->).
  rewrite series_map_getitem.
  set (S := map (fun r : row => (fst r, enc (cell i r))) (rows d)).
  set (d' := frame_setitem d new_name S).
  assert (Hd' : heap (mkWorld (fs w) (<[df := d']> (heap w)) (trace w)) !! df = Some d').
  { cbn [heap]. apply list_lookup_insert_eq. now apply lookup_lt_Some with d. }
  assert (Hs' : frame_getitem d' target = Ok (map (fun r : row => (fst r, cell i r)) (rows d))).
  { unfold d', S. rewrite getitem_setitem_ne by assumption.
    unfold frame_getitem. now rewrite Hi. }
  rewrite (map_target_values_run _ _ _ _ _ _ _ Hd' Hs'). cbn [fs heap trace].
  rewrite series_map_getitem. subst d' S.
  rewrite (setitem_again d new_name (fun r => enc (cell i r)) Hwf).
  now rewrite list_insert_insert_eq.
Qed.

Lemma filter_wf (d : DataFrame) (P : row -> Prop) {HP : forall r, Decision (P r)} :
  wf_frame d -> wf_frame (mkFrame (columns d) (filter P (rows d))).
Proof.
  unfold wf_frame. cbn [rows columns]. intros Hwf.
  apply Forall_forall. intros r Hr. apply list_elem_of_filter in Hr as [_ Hr].
  rewrite Forall_forall in Hwf. now apply Hwf.
Qed.

(** X5. Filtering is idempotent and keeps the table rectangular: the frame
    the filter returns is well formed when its input is, has at most as many
    rows, and filtering that frame again returns a frame with the same
    columns and rows. *)
Theorem filtering_stage_idempotent (df i : nat) (d : DataFrame) (w : World) :
  heap w !! df = Some d ->
  index_of "loop-tof" (columns d) = Some i ->
  exists (kept : DataFrame) (w1 w2 : World),
    filtering_stage df w = (Ok (length (heap w)), w1)
    /\ heap w1 !! length (heap w) = Some kept
    /\ nrows kept <= nrows d
    /\ (wf_frame d -> wf_frame kept)
    /\ filtering_stage (length (heap w)) w1 = (Ok (S (length (heap w))), w2)
    /\ heap w2 !! S (length (heap w)) = Some kept.
Proof.
  intros Hd Hi.
  set (kept := mkFrame (columns d) (filter (fun r : row => keep (cell i r)) (rows d))).
  set (w1 := mkWorld (fs w) (heap w ++ [kept]) (trace w)).
  assert (H1 : heap w1 !! length (heap w) = Some kept) by apply lookup_snoc_length.
  assert (Hk : mkFrame (columns kept) (filter (fun r : row => keep (cell i r)) (rows kept))
               = kept).
  { unfold kept. cbn [rows columns]. now rewrite list_filter_filter_l by (intros x Hx; exact Hx). }
  assert (Hlen : length (heap w1) = S (length (heap w))).
  { unfold w1. cbn [heap]. rewrite length_app. cbn [length]. lia. }
  exists kept, w1, (mkWorld (fs w1) (heap w1 ++ [kept]) (trace w1)).
  split; [now apply filtering_stage_run|].
  split; [exact H1|].
  split; [unfold nrows, kept; cbn [rows]; apply length_filter|].
  split; [intros Hwf; now apply filter_wf|].
  split.
  - rewrite (filtering_stage_run _ i kept w1 H1 Hi). now rewrite Hk, Hlen.
  - cbn [heap]. rewrite <- Hlen. apply lookup_snoc_length.
Qed.

Lemma positions_missing (cols cs : list string) :
  (exists c : string, c ∈ cs /\ (c ∉ cols)) -> positions cols cs = None.
Proof.
  unfold positions. induction cs as [|c cs IH]; intros (c0 & Hin & Hno).
  - now apply elem_of_nil in Hin.
  - cbn [mapM]. destruct (index_of c cols) as [i|] eqn:Hi; [|reflexivity].
    apply elem_of_cons in Hin as [->|Hin].
    + exfalso. apply index_of_None in Hno. congruence.
    + cbn. rewrite IH; [reflexivity | now exists c0].
Qed.

Lemma elem_of_unique (x : string) (l : list string) : x ∈ unique l <-> x ∈ l.
Proof.
  induction l as [|a l IH]; cbn [unique]; [reflexivity|].
  rewrite !elem_of_cons, list_elem_of_filter, IH. split.
  - intros [->|[_ Hx]]; [now left | now right].
  - intros [->|Hx]; [now left|].
    destruct (decide (x = a)) as [->|Hne]; [now left | now right].
Qed.

Lemma NoDup_unique (l : list string) : NoDup (unique l).
Proof.
  induction l as [|a l IH]; cbn [unique]; [constructor|].
  constructor; [|now apply NoDup_filter].
  rewrite list_elem_of_filter. now intros [? _].
Qed.

Lemma missing_labels_spec (cols cs : list string) (c : string) :
  c ∈ missing_labels cols cs <-> c ∈ cs /\ (c ∉ cols).
Proof. unfold missing_labels. rewrite elem_of_unique, list_elem_of_filter. tauto. Qed.

(** X6. A column that is not in the frame stops [split_train_test] before
    anything is split: a missing target raises [KeyError] with the target's
    name (the target is looked up first), and with the target present and
    some feature missing it raises pandas' [KeyError] about the features
    that are no columns, each named once; in both cases the world is as
    before the call. *)
Theorem split_train_test_missing_column (df : nat) (d : DataFrame) (target : string)
    (features : list string) (test_size : float) (seed : Z) (check_shape : bool) (w : World) :
  features <> [] ->
  heap w !! df = Some d ->
  (target ∉ columns d ->
   split_train_test df target features test_size seed check_shape w
   = (Raise (KeyError target), w))
  /\ (target ∈ columns d ->
      (exists f : string, f ∈ features /\ (f ∉ columns d)) ->
      let missing := missing_labels (columns d) features in
      split_train_test df target features test_size seed check_shape w
      = (Raise (KeyError_labels missing), w)
      /\ missing <> []
      /\ NoDup missing
      /\ (forall f : string, f ∈ missing <-> f ∈ features /\ (f ∉ columns d))).
Proof.
  intros Hne Hd. destruct features as [|f0 fs0]; [contradiction|].
  unfold split_train_test. cbn [length Nat.eqb].
  rewrite (bind_ok _ _ _ _ _ (deref_ok _ _ _ Hd)). split.
  - intros Hno. apply index_of_None in Hno.
    unfold bind at 1, lift at 1, frame_getitem. now rewrite Hno.
  - intros Hin Hmiss.
    destruct (index_of target (columns d)) as [i|] eqn:Hi;
      [|now apply index_of_None in Hi].
    split; [|split; [|split]].
    + unfold bind at 1, lift at 1, frame_getitem. rewrite Hi.
      unfold bind at 1, lift at 1, frame_getitems.
      now rewrite (positions_missing _ _ Hmiss).
    + destruct Hmiss as (f & Hf). apply (proj2 (missing_labels_spec _ _ _)) in Hf.
      intros E. rewrite E in Hf. now apply elem_of_nil in Hf.
    + apply NoDup_unique.
    + intros f. apply missing_labels_spec.
Qed.

(** ** Further properties of the cached search *)

(** [touches S m]: [m] leaves every file outside [S] as it was. *)
Definition touches {A : Type} (S : Posix.key -> Prop) (m : M A) : Prop :=
  forall (w w' : World) (r : result A),
    m w = (r, w') -> forall q : Posix.key, ~ S q -> fs w' !! q = fs w !! q.

Lemma touches_bind {A B : Type} (S : Posix.key -> Prop) (m : M A) (k : A -> M B) :
  touches S m -> (forall a : A, touches S (k a)) -> touches S (bind m k).
Proof.
  intros Hm Hk w w' r H q Hq. apply bind_inv in H as [(e & H & _)|(a & w1 & H & Hk1)].
  - now apply (Hm _ _ _ H).
  - rewrite (Hk a _ _ _ Hk1 q Hq). now apply (Hm _ _ _ H).
Qed.

Lemma touches_nothing {A : Type} (S : Posix.key -> Prop) (m : M A) :
  (forall (w w' : World) (r : result A), m w = (r, w') -> fs w' = fs w) -> touches S m.
Proof. intros Hm w w' r H q _. now rewrite (Hm _ _ _ H). Qed.

Lemma fs_ret {A : Type} (a : A) (w w' : World) (r : result A) :
  ret a w = (r, w') -> fs w' = fs w.
Proof. unfold ret. now intros [= _ <-]. Qed.

Lemma fs_emit (e : event) (w w' : World) (r : result unit) :
  emit e w = (r, w') -> fs w' = fs w.
Proof. unfold emit. now intros [= _ <-]. Qed.

Lemma fs_exists (path : string) (w w' : World) (r : result bool) :
  os_path_exists path w = (r, w') -> fs w' = fs w.
Proof. unfold os_path_exists, bind, emit. now intros [= _ <-]. Qed.

Lemma fs_load (path : string) (w w' : World) (r : result pyobj) :
  joblib_load path w = (r, w') -> fs w' = fs w.
Proof.
  unfold joblib_load, bind, emit.
  destruct (open_file _ path) as [[]|]; now intros [= _ <-].
Qed.

Lemma fs_fit_search (gs : RandomizedSearchCV) (X : DataFrame) (Y : ndarray)
    (w w' : World) (r : result FittedSearch) :
  fit_search gs X Y w = (r, w') -> fs w' = fs w.
Proof. unfold fit_search, bind, emit, lift. now intros [= _ <-]. Qed.

Lemma touches_dump (o : pyobj) (path : string) :
  touches (fun q => q = realpath path) (joblib_dump o path).
Proof.
  intros w w' r H q Hq. unfold joblib_dump, bind, emit in H.
  change (slot (mkWorld (fs w) (heap w) (trace w ++ [EvDump path])) path)
    with (slot w path) in H.
  destruct (slot w path) as [e|k] eqn:E; injection H as _ <-; [reflexivity|].
  cbn [fs]. apply slot_key in E as [-> _]. apply lookup_insert_ne. now intros <-.
Qed.

Lemma touches_weaken {A : Type} (S S' : Posix.key -> Prop) (m : M A) :
  (forall q : Posix.key, S q -> S' q) -> touches S m -> touches S' m.
Proof. intros HS Hm w w' r H q Hq. apply (Hm _ _ _ H). intros HSq. now apply Hq, HS. Qed.

Lemma touches_search (X : DataFrame) (Y : ndarray) (model : Model)
    (param_dists : list (string * distribution)) (cv0 : CV) (n_iters n_jobs0 verbose0 : Z)
    (scoring0 : string) (seed : Z) (keep_train_score : bool)
    (filename save_dir : string) (save_best : bool) (best_name : string) (remake : bool) :
  touches
    (fun q => q = realpath (PosixPath.join save_dir filename)
              \/ (save_best = true /\ q = realpath (PosixPath.join save_dir best_name)))
    (search_random_params X Y model param_dists cv0 n_iters n_jobs0 verbose0 scoring0 seed
       keep_train_score filename save_dir save_best best_name remake).
Proof.
  unfold search_random_params. apply touches_bind.
  { destruct (negb remake); apply touches_nothing; [apply fs_exists | apply fs_ret]. }
  intros [|]; [apply touches_nothing, fs_load|].
  apply touches_bind; [apply touches_nothing, fs_fit_search | intros fitted].
  apply touches_bind; [|intros _].
  { destruct save_best; [|apply touches_nothing, fs_ret].
    eapply touches_weaken; [|apply touches_dump]. intros q ->. now right. }
  apply touches_bind; [|intros _; apply touches_nothing, fs_load].
  eapply touches_weaken; [|apply touches_dump]. intros q ->. now left.
Qed.

(** X7. Whatever its arguments and whatever the outcome, a raised exception
    included, [search_random_params] changes no live frame and no file
    other than the one the primary path names and, with [save_best], the
    one the best-estimator path names; files are told apart by key, so
    another spelling of a written file is that file. *)
Theorem search_random_params_footprint (X : DataFrame) (Y : ndarray) (model : Model)
    (param_dists : list (string * distribution)) (cv0 : CV) (n_iters n_jobs0 verbose0 : Z)
    (scoring0 : string) (seed : Z) (keep_train_score : bool)
    (filename save_dir : string) (save_best : bool) (best_name : string) (remake : bool)
    (w w' : World) (r : result pyobj) :
  search_random_params X Y model param_dists cv0 n_iters n_jobs0 verbose0 scoring0 seed
    keep_train_score filename save_dir save_best best_name remake w = (r, w') ->
  heap w' = heap w
  /\ (forall q : Posix.key,
        q <> realpath (PosixPath.join save_dir filename) ->
        save_best = false \/ q <> realpath (PosixPath.join save_dir best_name) ->
        fs w' !! q = fs w !! q).
Proof.
  intros H. split; [now apply keeps_heap_search in H|].
  intros q Hq Hb. apply (touches_search _ _ _ _ _ _ _ _ _ _ _ _ _ _ _ _ _ _ _ H).
  intros [Hp|[Hs Hp]]; [contradiction|]. destruct Hb as [Hb|Hb]; congruence.
Qed.

Lemma joblib_load_inv (path : string) (w w' : World) (o : pyobj) :
  joblib_load path w = (Ok o, w') -> open_file w' path = Ok (PickleFile o).
Proof.
  unfold joblib_load, bind, emit.
  destruct (open_file _ path) as [[]|] eqn:E; intros [= <- <-]. exact E.
Qed.

(** X8. Whenever [search_random_params] returns normally, be it from the
    cache or from a new search, the object it returns is the one stored at
    the primary path when the call ends. *)
Theorem search_random_params_returns_stored (X : DataFrame) (Y : ndarray) (model : Model)
    (param_dists : list (string * distribution)) (cv0 : CV) (n_iters n_jobs0 verbose0 : Z)
    (scoring0 : string) (seed : Z) (keep_train_score : bool)
    (filename save_dir : string) (save_best : bool) (best_name : string) (remake : bool)
    (w w' : World) (o : pyobj) :
  search_random_params X Y model param_dists cv0 n_iters n_jobs0 verbose0 scoring0 seed
    keep_train_score filename save_dir save_best best_name remake w = (Ok o, w') ->
  open_file w' (PosixPath.join save_dir filename) = Ok (PickleFile o).
Proof.
  unfold search_random_params. intros H.
  apply bind_inv in H as [(e & _ & [=])|([|] & w0 & _ & H)].
  - now apply joblib_load_inv in H.
  - apply bind_inv in H as [(e & _ & [=])|(fitted & w1 & _ & H)].
    apply bind_inv in H as [(e & _ & [=])|(u & w2 & _ & H)].
    apply bind_inv in H as [(e & _ & [=])|(u' & w3 & _ & H)].
    now apply joblib_load_inv in H.
Qed.

(** The world after the look at the cache a call begins with. *)
Definition probed (w : World) (path : string) (remake : bool) : World :=
  mkWorld (fs w) (heap w) (trace w ++ (if remake then [] else [EvExists path])).

Lemma search_probe_miss (path : string) (remake : bool) (w : World) :
  remake = true \/ path_exists w path = false ->
  (if negb remake then os_path_exists path else ret false) w = (Ok false, probed w path remake).
Proof.
  intros Hmiss. unfold probed. destruct remake; cbn [negb].
  - unfold ret. now rewrite app_nil_r, world_eta.
  - destruct Hmiss as [|Hnone]; [discriminate|].
    unfold os_path_exists, bind, emit.
    change (path_exists (mkWorld (fs w) (heap w) (trace w ++ [EvExists path])) path)
      with (path_exists w path).
    now rewrite Hnone.
Qed.

(** X9. When the search itself fails, nothing is persisted: with [remake]
    set or nothing at the primary path, an exception raised by the fit is
    raised by [search_random_params], after one fit attempt and without any
    dump or load; files and frames are as before the call. *)
Theorem search_random_params_fit_failure (X : DataFrame) (Y : ndarray) (model : Model)
    (param_dists : list (string * distribution)) (cv0 : CV) (n_iters n_jobs0 verbose0 : Z)
    (scoring0 : string) (seed : Z) (keep_train_score : bool)
    (filename save_dir : string) (save_best : bool) (best_name : string) (remake : bool)
    (e : exn) (w : World) :
  let path := PosixPath.join save_dir filename in
  let gs := mkSearch model param_dists cv0 n_iters n_jobs0 verbose0 scoring0 seed
              keep_train_score in
  remake = true \/ path_exists w path = false ->
  rscv_fit gs X Y = Raise e ->
  search_random_params X Y model param_dists cv0 n_iters n_jobs0 verbose0 scoring0 seed
    keep_train_score filename save_dir save_best best_name remake w
  = (Raise e,
     mkWorld (fs w) (heap w)
       (trace w ++ (if remake then [] else [EvExists path]) ++ [EvFit gs (nrows X)])).
Proof.
  intros path gs Hmiss Hfit. unfold search_random_params. fold path gs.
  rewrite (bind_ok _ _ _ _ _ (search_probe_miss path remake w Hmiss)).
  apply bind_raise. unfold fit_search, bind, emit, lift, probed. cbn [fs heap trace].
  now rewrite Hfit, <- app_assoc.
Qed.

Lemma joblib_dump_fail (o : pyobj) (path : string) (e : Posix.path_error) (w : World) :
  slot w path = inl e ->
  joblib_dump o path w
  = (Raise (os_exn e path), mkWorld (fs w) (heap w) (trace w ++ [EvDump path])).
Proof.
  intros H. unfold joblib_dump, bind, emit.
  change (slot (mkWorld (fs w) (heap w) (trace w ++ [EvDump path])) path) with (slot w path).
  now rewrite H.
Qed.

Lemma slot_fails_after_dump (o : pyobj) (p q : string) (kp : Posix.key)
    (e : Posix.path_error) (w : World) (h : list DataFrame) (t : list event) :
  slot w p = inr kp ->
  slot w q = inl e ->
  exists e' : Posix.path_error,
    slot (mkWorld (<[kp := PickleFile o]> (fs w)) h t) q = inl e'.
Proof.
  unfold slot. intros Hp Hq. apply (slot_fails_same_dirs cwd (kinds w) _ q e); [|exact Hq].
  apply same_dirs_dump. now apply slot_key in Hp as [_ Hp].
Qed.



Lemma slot_after_best (o : pyobj) (save_best : bool) (best_path path : string)
    (k kb : Posix.key) (w : World) (h : list DataFrame) (t : list event) :
  slot w path = inr k ->
  (save_best = true -> slot w best_path = inr kb) ->
  slot (mkWorld (if save_best then <[kb := PickleFile o]> (fs w) else fs w) h t) path = inr k.
Proof.
  intros Hw Hwb. destruct save_best; [|exact Hw].
  now apply (slot_after_dump _ best_path path kb k w); [apply Hwb|].
Qed.

(** X12. What a search stores, the cache gives back: after a call that ran
    the search and wrote its result, a call with [remake] false for the same
    primary path, whatever its other arguments, returns the stored search
    result without fitting anything and leaves the files as they are. *)
Theorem search_random_params_store_then_hit (X X' : DataFrame) (Y Y' : ndarray)
    (model model' : Model) (param_dists param_dists' : list (string * distribution))
    (cv0 cv1 : CV) (n_iters n_iters' n_jobs0 n_jobs1 verbose0 verbose1 : Z)
    (scoring0 scoring1 : string) (seed seed' : Z) (keep_train_score keep_train_score' : bool)
    (filename save_dir : string) (save_best save_best' : bool) (best_name best_name' : string)
    (remake : bool) (fitted : FittedSearch) (k kb : Posix.key) (w : World) :
  let path := PosixPath.join save_dir filename in
  let best_path := PosixPath.join save_dir best_name in
  let gs := mkSearch model param_dists cv0 n_iters n_jobs0 verbose0 scoring0 seed
              keep_train_score in
  remake = true \/ path_exists w path = false ->
  rscv_fit gs X Y = Ok fitted ->
  slot w path = inr k ->
  (save_best = true -> slot w best_path = inr kb) ->
  let w1 := snd (search_random_params X Y model param_dists cv0 n_iters n_jobs0 verbose0
                   scoring0 seed keep_train_score filename save_dir save_best best_name
                   remake w) in
  let run2 := search_random_params X' Y' model' param_dists' cv1 n_iters' n_jobs1 verbose1
                scoring1 seed' keep_train_score' filename save_dir save_best' best_name'
                false w1 in
  fst run2 = Ok (SearchObj fitted)
  /\ fs (snd run2) = fs w1
  /\ fits (trace (snd run2)) = fits (trace w1).
Proof.
  intros path best_path gs Hmiss Hfit Hw Hwb w1 run2. subst run2 w1.
  rewrite (search_miss_run X Y model param_dists cv0 n_iters n_jobs0 verbose0 scoring0 seed
             keep_train_score filename save_dir save_best best_name remake fitted k kb w
             Hmiss Hfit Hw Hwb).
  cbn [snd]. fold path best_path gs.
  rewrite (search_hit_run X' Y' model' param_dists' cv1 n_iters' n_jobs1 verbose1 scoring1
             seed' keep_train_score' filename save_dir save_best' best_name'
             (SearchObj fitted))
    by (apply (open_after_dump _ path k (mkWorld _ (heap w) (trace w)));
        now apply (slot_after_best _ save_best best_path path k kb w)).
  cbn [fst snd fs trace]. split; [reflexivity|]. split; [reflexivity|].
  rewrite (fits_app _ [EvExists _; EvLoad _]). cbn. lia.
Qed.

(** After the two dumps of a search, a load of the best estimator's path
    gives the best estimator when that path names another file than the
    primary path. *)
Lemma open_best_after_dumps (o ob : pyobj) (path best_path : string) (k kb : Posix.key)
    (w : World) (h : list DataFrame) (t : list event) :
  slot w path = inr k ->
  slot w best_path = inr kb ->
  kb <> k ->
  open_file (mkWorld (<[k := PickleFile o]> (<[kb := PickleFile ob]> (fs w))) h t) best_path
  = Ok (PickleFile ob).
Proof.
  intros Hw Hwb Hne. unfold open_file, lookup.
  set (wb := mkWorld (<[kb := PickleFile ob]> (fs w)) (heap w) (trace w)).
  assert (Hkb : slot wb path = inr k)
    by exact (slot_after_dump _ best_path path kb k w _ _ Hwb Hw).
  rewrite (slot_lookup cwd (kinds w) _ best_path kb); [| | |exact Hwb].
  - cbn [fs]. rewrite lookup_insert_ne by congruence. now rewrite lookup_insert_eq.
  - apply (same_dirs_trans _ (kinds wb)).
    + apply same_dirs_dump. now apply slot_key in Hwb as [_ Hwb].
    + apply (same_dirs_dump _ k wb). now apply slot_key in Hkb as [_ Hkb].
  - etransitivity; [apply (kinds_insert_ne _ k kb wb); congruence|].
    apply kinds_dump. now apply slot_key in Hwb as [_ Hwb].
Qed.

(** X21. Inside a save directory that exists, plain file names are entries
    of that directory: when [save_dir] names a directory, the file names are
    plain (not empty, no separator, no null character, not [.] or [..], at
    most 255 bytes), the joined paths are shorter than 4096 bytes and no
    directory stands at either entry, a search that is run and fits returns
    normally; the search result is the entry [filename] of that directory
    and, with [save_best], the best estimator is the entry [best_name], and
    a load of its path gives it as soon as the two names differ. *)
Theorem search_random_params_in_directory (X : DataFrame) (Y : ndarray) (model : Model)
    (param_dists : list (string * distribution)) (cv0 : CV) (n_iters n_jobs0 verbose0 : Z)
    (scoring0 : string) (seed : Z) (keep_train_score : bool)
    (filename save_dir : string) (save_best : bool) (best_name : string) (remake : bool)
    (fitted : FittedSearch) (d : Posix.key) (w : World) :
  let path := PosixPath.join save_dir filename in
  let best_path := PosixPath.join save_dir best_name in
  let gs := mkSearch model param_dists cv0 n_iters n_jobs0 verbose0 scoring0 seed
              keep_train_score in
  lookup w save_dir = inr (d, Posix.KDir) ->
  Posix.plain_name filename = true ->
  String.length path < Posix.PATH_MAX ->
  kinds w (d ++ [filename]) <> Some Posix.KDir ->
  (save_best = true ->
   Posix.plain_name best_name = true
   /\ String.length best_path < Posix.PATH_MAX
   /\ kinds w (d ++ [best_name]) <> Some Posix.KDir) ->
  remake = true \/ path_exists w path = false ->
  rscv_fit gs X Y = Ok fitted ->
  let run := search_random_params X Y model param_dists cv0 n_iters n_jobs0 verbose0 scoring0
               seed keep_train_score filename save_dir save_best best_name remake w in
  fst run = Ok (SearchObj fitted)
  /\ realpath path = d ++ [filename]
  /\ fs (snd run)
     = <[d ++ [filename] := PickleFile (SearchObj fitted)]>
         (if save_best
          then <[d ++ [best_name] := PickleFile (EstimatorObj (best_estimator_ fitted))]> (fs w)
          else fs w)
  /\ open_file (snd run) path = Ok (PickleFile (SearchObj fitted))
  /\ (save_best = true ->
      realpath best_path = d ++ [best_name]
      /\ (best_name <> filename ->
          open_file (snd run) best_path
          = Ok (PickleFile (EstimatorObj (best_estimator_ fitted))))).
Proof.
  intros path best_path gs Hd Hf Hlen Hk Hbest Hmiss Hfit run.
  assert (Hw : slot w path = inr (d ++ [filename])) by now apply slot_join.
  assert (Hwb : save_best = true -> slot w best_path = inr (d ++ [best_name])).
  { intros Hs. destruct (Hbest Hs) as (Hfb & Hlb & Hkb). now apply slot_join. }
  subst run.
  rewrite (search_miss_run X Y model param_dists cv0 n_iters n_jobs0 verbose0 scoring0 seed
             keep_train_score filename save_dir save_best best_name remake fitted
             (d ++ [filename]) (d ++ [best_name]) w Hmiss Hfit Hw Hwb).
  cbn [fst snd fs]. fold path best_path.
  split; [reflexivity|].
  split; [symmetry; now apply slot_key in Hw as [Hw _]|].
  split; [reflexivity|].
  split.
  { apply (open_after_dump _ path _ (mkWorld _ (heap w) (trace w))).
    now apply (slot_after_best _ save_best best_path path _ (d ++ [best_name]) w). }
  intros ->. specialize (Hwb eq_refl).
  split; [symmetry; now apply slot_key in Hwb as [Hwb _]|].
  intros Hne. apply (open_best_after_dumps _ _ path best_path _ _ w); [exact Hw | exact Hwb |].
  intros E. apply app_inj_tail in E as [_ E]. now apply Hne.
Qed.

(** ** Further properties of a variant's run and of [main] *)

(** The search [main] configures. *)
Definition main_search : RandomizedSearchCV :=
  mkSearch (RandomForestRegressor SEED) main_param_dists (KFold 10 false) 5000 128 1
    "neg_mean_absolute_error" SEED true.

(** The paths a variant reads and writes. *)
Definition csv_path (tag : string) : string :=
  PosixPath.join TRAINING_DATA_DIR ("ml_data_" +:+ tag +:+ "_steady.csv").

Definition search_path (tag : string) : string :=
  PosixPath.join (PosixPath.join SAVE_DIR (tag +:+ "_steady")) ("rf_reg_" +:+ tag +:+ ".pkl").

Definition best_path (tag : string) : string :=
  PosixPath.join (PosixPath.join SAVE_DIR (tag +:+ "_steady"))
    ("rf_reg_" +:+ tag +:+ "-best-estm.pkl").

Lemma SFleb_abs (x : spec_float) (m : positive) (e : Z) :
  SFleb x (S754_finite true m e) = true \/ SFleb (S754_finite false m e) x = true ->
  SFleb (S754_finite false m e) (SFabs x) = true.
Proof.
  unfold SFleb. destruct x as [s|s| |s mv ev]; cbn [SFcompare SFabs].
  - destruct s; intros [H|H]; discriminate.
  - reflexivity.
  - intros [H|H]; discriminate.
  - destruct s.
    + intros [H|H]; [|discriminate].
      rewrite (Z.compare_antisym ev e).
      change (PosDef.Pos.compare_cont Eq m mv) with (Pos.compare m mv).
      change (PosDef.Pos.compare_cont Eq mv m) with (Pos.compare mv m) in H.
      rewrite (Pos.compare_antisym mv m).
      destruct (ev ?= e)%Z; cbn [CompOpp] in *; [exact H | discriminate | reflexivity].
    + intros [H|H]; [discriminate | exact H].
Qed.

Lemma keep_abs_ge_tol (v : float) : keep v = true -> PrimFloat.leb tol (abs v) = true.
Proof.
  unfold keep. rewrite !leb_spec, abs_spec. intros H.
  change (Prim2SF tol) with (S754_finite false 7378697629483821 (-66)) in *.
  change (Prim2SF neg_tol) with (S754_finite true 7378697629483821 (-66)) in H.
  apply SFleb_abs. now apply orb_true_iff in H.
Qed.

Lemma run_tag_outcome (tag : string) (t : DataFrame) (w w' : World) (r : result unit) :
  open_file w (csv_path tag) = Ok (CsvFile t) ->
  run_tag tag w = (r, w') ->
  (index_of "loop-tof" (columns t) = None
   /\ r = Raise (KeyError "loop-tof")
   /\ w' = mkWorld (fs w) (heap w ++ [t; t]) (trace w ++ [EvReadCsv (csv_path tag)]))
  \/ exists (i : nat) (w5 : World)
       (r1 : result (DataFrame * DataFrame * ndarray * ndarray)),
       let kept := mkFrame (columns t) (filter (fun r0 : row => keep (cell i r0)) (rows t)) in
       let encoded :=
         frame_setitem kept "log-loop-tof"
           (series_map log_abs (map (fun r0 : row => (fst r0, cell i r0)) (rows kept))) in
       let w4 := mkWorld (fs w) (heap w ++ [t; t; encoded])
                   (trace w ++ [EvReadCsv (csv_path tag)]) in
       index_of "loop-tof" (columns t) = Some i
       /\ split_train_test (length (heap w) + 2) "log-loop-tof" (select_features (columns t))
            0x1.999999999999ap-4%float SEED true w4 = (r1, w5)
       /\ match r1 with
          | Raise e => r = Raise e /\ w' = w5
          | Ok (X_train, _, Y_train, _) =>
              exists r2 : result pyobj,
                search_random_params X_train (ravel Y_train) (RandomForestRegressor SEED)
                  main_param_dists (KFold 10 false) 5000 128 1 "neg_mean_absolute_error"
                  SEED true ("rf_reg_" +:+ tag +:+ ".pkl")
                  (PosixPath.join SAVE_DIR (tag +:+ "_steady")) true
                  ("rf_reg_" +:+ tag +:+ "-best-estm.pkl") true w5 = (r2, w')
                /\ r = match r2 with
                       | Ok _ => Ok tt
                       | Raise e => Raise e
                       end
          end.
Proof.
  unfold csv_path. set (p := PosixPath.join _ _). intros Hcsv H. unfold run_tag in H.
  rewrite (bind_ok _ _ _ _ _ (load_csv_run _ _ _ _ Hcsv)) in H. fold p in H.
  set (w1 := mkWorld (fs w) (heap w ++ [t]) (trace w ++ [EvReadCsv p])) in *.
  assert (H1 : heap w1 !! length (heap w) = Some t) by apply lookup_snoc_length.
  rewrite (bind_ok _ _ _ _ _ (frame_copy_run _ _ _ H1)) in H.
  set (w2 := mkWorld (fs w1) (heap w1 ++ [t]) (trace w1)) in *.
  assert (H2 : heap w2 !! length (heap w1) = Some t) by apply lookup_snoc_length.
  rewrite (bind_ok _ _ _ _ _ (column_list_run _ _ _ H2)) in H.
  assert (Hh2 : heap w2 = heap w ++ [t; t]).
  { subst w2 w1. cbn [heap]. now rewrite <- app_assoc. }
  destruct (index_of "loop-tof" (columns t)) as [i|] eqn:Hi.
  2:{ left. split; [reflexivity|].
      rewrite (bind_raise _ _ _ _ _ (filtering_stage_raise _ _ _ H2 Hi)) in H.
      injection H as <- <-. split; [reflexivity|].
      subst w2. cbn [fs trace]. f_equal. exact Hh2. }
  right.
  rewrite (bind_ok _ _ _ _ _ (filtering_stage_run _ _ _ _ H2 Hi)) in H.
  set (kept := mkFrame (columns t) (filter (fun r0 : row => keep (cell i r0)) (rows t))) in *.
  set (w3 := mkWorld (fs w2) (heap w2 ++ [kept]) (trace w2)) in *.
  assert (Hlen2 : length (heap w2) = length (heap w) + 2).
  { rewrite Hh2, length_app. reflexivity. }
  assert (H3 : heap w3 !! length (heap w2) = Some kept) by apply lookup_snoc_length.
  assert (Hg : frame_getitem kept "loop-tof"
               = Ok (map (fun r0 : row => (fst r0, cell i r0)) (rows kept))).
  { unfold frame_getitem. subst kept. cbn [columns]. now rewrite Hi. }
  rewrite (bind_ok _ _ _ _ _ (map_target_values_run _ _ _ _ _ _ _ H3 Hg)) in H.
  set (encoded := frame_setitem kept "log-loop-tof"
         (series_map log_abs (map (fun r0 : row => (fst r0, cell i r0)) (rows kept)))) in *.
  assert (Hw4 : mkWorld (fs w3) (<[length (heap w2) := encoded]> (heap w3)) (trace w3)
                = mkWorld (fs w) (heap w ++ [t; t; encoded]) (trace w ++ [EvReadCsv p])).
  { subst w3. cbn [fs heap trace]. f_equal.
    rewrite insert_app_r_alt by lia. rewrite Nat.sub_diag. cbn [insert list_insert].
    rewrite Hh2, <- app_assoc. reflexivity. }
  rewrite Hw4, Hlen2 in H.
  apply bind_inv in H as [(e & Hsplit & ->)|([[[Xtr Xte] Ytr] Yte] & w5 & Hsplit & H)].
  - exists i, w', (Raise e). cbv zeta. fold kept encoded. auto.
  - exists i, w5, (Ok (Xtr, Xte, Ytr, Yte)). cbv zeta. fold kept encoded.
    split; [reflexivity|]. split; [exact Hsplit|].
    apply bind_inv in H as [(e & Hsearch & ->)|(rs & w6 & Hsearch & H)].
    + now exists (Raise e).
    + unfold ret in H. injection H as <- <-. now exists (Ok rs).
Qed.

Lemma select_features_nil (cols : list string) :
  (forall c : string, c ∈ cols -> c = "loop-tof" \/ c = "steady-state-condition") ->
  select_features cols = [].
Proof.
  intros H. destruct (select_features cols) as [|c l] eqn:E; [reflexivity|].
  assert (Hc : c ∈ select_features cols) by (rewrite E; apply list_elem_of_here).
  apply select_features_spec in Hc as (Hc & H1 & H2).
  destruct (H c Hc); contradiction.
Qed.

(** X13. A table whose only columns are [loop-tof] and
    [steady-state-condition] leaves no feature: the variant's run reads the
    file, copies the table, filters the copy and encodes the target in the
    filtered frame, and then stops with the assertion error "No feature
    columns provided"; the three frames are on the heap, the read is the
    only call made, and nothing is split, fitted or written. *)
Theorem run_tag_no_feature_columns (tag : string) (t : DataFrame) (w : World) :
  open_file w (csv_path tag) = Ok (CsvFile t) ->
  "loop-tof" ∈ columns t ->
  (forall c : string, c ∈ columns t -> c = "loop-tof" \/ c = "steady-state-condition") ->
  exists i : nat,
    index_of "loop-tof" (columns t) = Some i
    /\ let kept := mkFrame (columns t) (filter (fun r0 : row => keep (cell i r0)) (rows t)) in
       let encoded :=
         frame_setitem kept "log-loop-tof"
           (series_map log_abs (map (fun r0 : row => (fst r0, cell i r0)) (rows kept))) in
       run_tag tag w
       = (Raise (AssertionError "No feature columns provided"),
          mkWorld (fs w) (heap w ++ [t; t; encoded]) (trace w ++ [EvReadCsv (csv_path tag)])).
Proof.
  intros Hcsv Hin Hall.
  destruct (run_tag tag w) as [r w'] eqn:H.
  destruct (run_tag_outcome tag t w _ _ Hcsv H)
    as [(Hi & _)|(i & w5 & r1 & Hi & Hsplit & Hrest)].
  { apply index_of_None in Hi. contradiction. }
  cbv zeta in Hi, Hsplit, Hrest. rewrite (select_features_nil _ Hall) in Hsplit.
  unfold split_train_test in Hsplit. cbn [length Nat.eqb] in Hsplit.
  unfold raise in Hsplit. injection Hsplit as <- <-.
  destruct Hrest as [-> ->]. exists i. split; [exact Hi | reflexivity].
Qed.

(** X14. A table without a [loop-tof] column stops the variant's run at the
    filter with [KeyError] for "loop-tof", after the read and before
    anything is encoded, split, fitted or written. *)
Theorem run_tag_missing_loop_tof (tag : string) (t : DataFrame) (w : World) :
  open_file w (csv_path tag) = Ok (CsvFile t) ->
  "loop-tof" ∉ columns t ->
  run_tag tag w
  = (Raise (KeyError "loop-tof"),
     mkWorld (fs w) (heap w ++ [t; t]) (trace w ++ [EvReadCsv (csv_path tag)])).
Proof.
  intros Hcsv Hno.
  destruct (run_tag tag w) as [r w'] eqn:H.
  destruct (run_tag_outcome tag t w _ _ Hcsv H)
    as [(_ & -> & ->)|(i & _ & _ & Hi & _)]; [reflexivity|].
  apply index_of_None in Hno. cbv zeta in Hi. congruence.
Qed.

(** X15. A missing training file for the first variant aborts the whole run:
    [main] raises [FileNotFoundError] for the "op" file after that single
    read; the "rc" variant is not attempted, and nothing is fitted or
    written. *)
Theorem main_missing_first_file (w : World) :
  lookup w "../training-data/ml_data_op_steady.csv" = inl Posix.ENOENT ->
  main w
  = (Raise (FileNotFoundError "../training-data/ml_data_op_steady.csv"),
     mkWorld (fs w) (heap w)
       (trace w ++ [EvReadCsv "../training-data/ml_data_op_steady.csv"])).
Proof.
  intros Hno. unfold main, tags. cbn [for_each]. apply bind_raise.
  unfold run_tag. apply bind_raise.
  unfold load_csv, pd_read_csv, bind, emit.
  change (PosixPath.join TRAINING_DATA_DIR ("ml_data_" +:+ "op" +:+ "_steady.csv"))
    with "../training-data/ml_data_op_steady.csv".
  match goal with
  | |- context [open_file (mkWorld (fs w) (heap w) ?t) ?p] =>
      change (open_file (mkWorld (fs w) (heap w) t) p) with (open_file w p)
  end.
  unfold open_file. now rewrite Hno.
Qed.

(** X16. Every logarithm [main] takes is of a number at least [1e-4]: in a
    variant's run on a well-formed table that has a [loop-tof] column, the
    frame handed to the partitioner holds, in [log-loop-tof], the logarithm
    of the absolute value of each kept row's [loop-tof], and each of these
    absolute values is at least [1e-4], so never zero and never nan. *)
Theorem run_tag_log_arguments (tag : string) (t : DataFrame) (i : nat) (w w' : World)
    (r : result unit) :
  open_file w (csv_path tag) = Ok (CsvFile t) ->
  wf_frame t ->
  index_of "loop-tof" (columns t) = Some i ->
  run_tag tag w = (r, w') ->
  let kept := filter (fun r0 : row => keep (cell i r0)) (rows t) in
  exists encoded : DataFrame,
    heap w' !! (length (heap w) + 2) = Some encoded
    /\ frame_getitem encoded "log-loop-tof"
       = Ok (map (fun r0 : row => (fst r0, np_log (abs (cell i r0)))) kept)
    /\ Forall (fun r0 : row => PrimFloat.leb tol (abs (cell i r0)) = true) kept.
Proof.
  intros Hcsv Hwf Hi H kept.
  destruct (run_tag_outcome tag t w _ _ Hcsv H)
    as [(Hi' & _)|(i' & w5 & r1 & Hi' & Hsplit & Hrest)]; [congruence|].
  cbv zeta in Hi', Hsplit, Hrest. assert (i' = i) as -> by congruence.
  eexists. split; [|split].
  - apply split_train_test_frame in Hsplit as [Hh5 _]. cbn [heap] in Hh5.
    assert (Hh : heap w' = heap w5).
    { destruct r1 as [[[[Xtr Xte] Ytr] Yte]|e]; [|now destruct Hrest as [_ ->]].
      destruct Hrest as (r2 & Hsearch & _). now apply keeps_heap_search in Hsearch. }
    rewrite Hh, Hh5. rewrite lookup_app_r by lia.
    replace (length (heap w) + 2 - length (heap w)) with 2 by lia. reflexivity.
  - rewrite series_map_getitem. cbn [rows].
    apply (getitem_setitem_eq
             (mkFrame (columns t) (filter (fun r0 : row => keep (cell i r0)) (rows t)))
             "log-loop-tof" (fun r0 => log_abs (cell i r0))).
    now apply filter_wf.
  - apply Forall_forall. intros r0 Hr0. apply list_elem_of_filter in Hr0 as [Hk _].
    apply keep_abs_ge_tol. now apply Is_true_true.
Qed.

Lemma fit_search_inv (gs : RandomizedSearchCV) (X : DataFrame) (Y : ndarray)
    (w w' : World) (fitted : FittedSearch) :
  fit_search gs X Y w = (Ok fitted, w') -> rscv_fit gs X Y = Ok fitted /\ fs w' = fs w.
Proof.
  unfold fit_search, bind, emit, lift. cbn [fs heap trace].
  destruct (rscv_fit gs X Y); intros [= <- <-]; auto.
Qed.

Lemma joblib_dump_inv (o : pyobj) (path : string) (w w' : World) :
  joblib_dump o path w = (Ok tt, w') ->
  exists k : Posix.key, slot w path = inr k /\ fs w' = <[k := PickleFile o]> (fs w).
Proof.
  unfold joblib_dump, bind, emit.
  change (slot (mkWorld (fs w) (heap w) (trace w ++ [EvDump path])) path) with (slot w path).
  destruct (slot w path) as [e|k]; [discriminate|]. intros [= <-]. now exists k.
Qed.

(** Resolution looks at the files only. *)
Lemma kinds_ext (w1 w2 : World) : fs w1 = fs w2 -> kinds w1 = kinds w2.
Proof. unfold kinds. now intros ->. Qed.

Lemma slot_ext (w1 w2 : World) (p : string) : fs w1 = fs w2 -> slot w1 p = slot w2 p.
Proof. intros H. unfold slot. now rewrite (kinds_ext _ _ H). Qed.

Lemma open_file_ext (w1 w2 : World) (p : string) :
  fs w1 = fs w2 -> open_file w1 p = open_file w2 p.
Proof. intros H. unfold open_file, lookup. now rewrite (kinds_ext _ _ H), H. Qed.

(** A file that opens still opens, with the same content, after a pickle
    has been written to another file. *)
Lemma open_file_dump_other (o : pyobj) (k : Posix.key) (p : string) (n : node) (w w' : World) :
  kinds w k <> Some Posix.KDir ->
  fs w' = <[k := PickleFile o]> (fs w) ->
  realpath p <> k ->
  open_file w p = Ok n ->
  open_file w' p = Ok n.
Proof.
  intros Hk Hfs Hne. unfold open_file, lookup.
  destruct (Posix.lookup cwd (kinds w) p) as [e|[k' kd]] eqn:E; [discriminate|].
  destruct kd; [discriminate|].
  pose proof (lookup_key cwd _ _ _ _ E) as [-> _].
  assert (Hks : kinds w' = kinds (mkWorld (<[k := PickleFile o]> (fs w)) (heap w) (trace w)))
    by now apply kinds_ext.
  assert (Hne' : k <> Posix.realpath cwd p) by (intros ->; now apply Hne).
  rewrite (lookup_same_dirs cwd (kinds w) (kinds w') p (Posix.realpath cwd p) Posix.KFile);
    [| | |exact E].
  - rewrite Hfs. now rewrite lookup_insert_ne by exact Hne'.
  - rewrite Hks. now apply same_dirs_dump.
  - rewrite Hks. now apply kinds_insert_ne.
Qed.

(** What a search that is forced to run leaves when it returns: the two
    files, and every other file as it opened before. *)
Lemma forced_search_inv (X : DataFrame) (Y : ndarray) (model : Model)
    (param_dists : list (string * distribution)) (cv0 : CV) (n_iters n_jobs0 verbose0 : Z)
    (scoring0 : string) (seed : Z) (keep_train_score : bool)
    (filename save_dir best_name : string) (w w' : World) (o : pyobj) :
  let path := PosixPath.join save_dir filename in
  let best_path := PosixPath.join save_dir best_name in
  search_random_params X Y model param_dists cv0 n_iters n_jobs0 verbose0 scoring0 seed
    keep_train_score filename save_dir true best_name true w = (Ok o, w') ->
  exists fitted : FittedSearch,
    rscv_fit (mkSearch model param_dists cv0 n_iters n_jobs0 verbose0 scoring0 seed
                keep_train_score) X Y = Ok fitted
    /\ o = SearchObj fitted
    /\ fs w' = <[realpath path := PickleFile (SearchObj fitted)]>
                 (<[realpath best_path
                     := PickleFile (EstimatorObj (best_estimator_ fitted))]> (fs w))
    /\ open_file w' path = Ok (PickleFile (SearchObj fitted))
    /\ (realpath best_path <> realpath path ->
        open_file w' best_path = Ok (PickleFile (EstimatorObj (best_estimator_ fitted))))
    /\ (forall (p : string) (n : node),
          open_file w p = Ok n -> realpath p <> realpath path ->
          realpath p <> realpath best_path -> open_file w' p = Ok n).
Proof.
  intros path best_path. unfold search_random_params. cbn [negb]. fold path best_path.
  intros H.
  apply bind_inv in H as [(e & _ & [=])|(hit & w0 & H0 & H)].
  unfold ret in H0. injection H0 as <- <-.
  apply bind_inv in H as [(e & _ & [=])|(fitted & w1 & Hf & H)].
  apply fit_search_inv in Hf as [Hfit Hfs1].
  apply bind_inv in H as [(e & _ & [=])|([] & w2 & Hb & H)].
  apply joblib_dump_inv in Hb as (kb & Hsb & Hfs2).
  apply bind_inv in H as [(e & _ & [=])|([] & w3 & Hp & H)].
  apply joblib_dump_inv in Hp as (k & Hsp & Hfs3).
  pose proof (fs_load _ _ _ _ H) as Hfs. apply joblib_load_inv in H.
  pose proof (slot_key cwd _ _ _ Hsb) as [Ekb Hdb].
  pose proof (slot_key cwd _ _ _ Hsp) as [Ek Hdk].
  fold (realpath best_path) in Ekb. fold (realpath path) in Ek. subst k kb.
  assert (Hfs' : fs w' = <[realpath path := PickleFile (SearchObj fitted)]>
                   (<[realpath best_path
                       := PickleFile (EstimatorObj (best_estimator_ fitted))]> (fs w))).
  { now rewrite Hfs, Hfs3, Hfs2, Hfs1. }
  assert (Ho : o = SearchObj fitted).
  { apply open_file_key in H as [H _]. rewrite Hfs', lookup_insert_eq in H. congruence. }
  exists fitted. split; [exact Hfit|]. split; [exact Ho|]. split; [exact Hfs'|].
  split; [now rewrite <- Ho|].
  assert (H23 : fs w' = <[realpath path := PickleFile (SearchObj fitted)]> (fs w2))
    by now rewrite Hfs, Hfs3.
  split.
  - intros Hne.
    apply (open_file_dump_other (SearchObj fitted) (realpath path) best_path _ w2 w' Hdk H23 Hne).
    rewrite (open_file_ext w2 (mkWorld (<[realpath best_path
               := PickleFile (EstimatorObj (best_estimator_ fitted))]> (fs w1))
               (heap w1) (trace w1))) by exact Hfs2.
    now apply open_after_dump.
  - intros p n Hopen Hnp Hnb.
    apply (open_file_dump_other (SearchObj fitted) (realpath path) p n w2 w' Hdk H23 Hnp).
    apply (open_file_dump_other (EstimatorObj (best_estimator_ fitted)) (realpath best_path)
             p n w1 w2 Hdb Hfs2 Hnb).
    now rewrite (open_file_ext w1 w) by exact Hfs1.
Qed.

Lemma load_csv_ok_inv (filename data_dir : string) (w w' : World) (l : nat) :
  load_csv filename data_dir w = (Ok l, w') ->
  exists t : DataFrame, open_file w (PosixPath.join data_dir filename) = Ok (CsvFile t).
Proof.
  unfold load_csv, pd_read_csv, bind, emit.
  change (open_file (mkWorld (fs w) (heap w)
            (trace w ++ [EvReadCsv (PosixPath.join data_dir filename)]))
            (PosixPath.join data_dir filename))
    with (open_file w (PosixPath.join data_dir filename)).
  destruct (open_file w (PosixPath.join data_dir filename)) as [[| o | t]|e];
    [discriminate..| |discriminate].
  intros _. now exists t.
Qed.

Lemma run_tag_ok_inv (tag : string) (w w' : World) :
  run_tag tag w = (Ok tt, w') ->
  exists (X : DataFrame) (Y : ndarray) (fitted : FittedSearch),
    rscv_fit main_search X Y = Ok fitted
    /\ fs w' = <[realpath (search_path tag) := PickleFile (SearchObj fitted)]>
                 (<[realpath (best_path tag)
                     := PickleFile (EstimatorObj (best_estimator_ fitted))]> (fs w))
    /\ open_file w' (search_path tag) = Ok (PickleFile (SearchObj fitted))
    /\ (realpath (best_path tag) <> realpath (search_path tag) ->
        open_file w' (best_path tag)
        = Ok (PickleFile (EstimatorObj (best_estimator_ fitted))))
    /\ (forall (p : string) (n : node),
          open_file w p = Ok n -> realpath p <> realpath (search_path tag) ->
          realpath p <> realpath (best_path tag) -> open_file w' p = Ok n).
Proof.
  intros H.
  assert (Hcsv : exists t : DataFrame, open_file w (csv_path tag) = Ok (CsvFile t)).
  { pose proof H as H0. unfold run_tag in H0.
    apply bind_inv in H0 as [(e & _ & [=])|(l & w1 & Hload & _)].
    now apply load_csv_ok_inv in Hload. }
  destruct Hcsv as (t & Hcsv).
  destruct (run_tag_outcome tag t w _ _ Hcsv H)
    as [(_ & [=] & _)|(i & w5 & r1 & _ & Hsplit & Hrest)].
  cbv zeta in Hsplit, Hrest.
  apply split_train_test_frame in Hsplit as [_ Hfs5]. cbn [fs] in Hfs5.
  destruct r1 as [[[[Xtr Xte] Ytr] Yte]|e]; [|now destruct Hrest as [[=] _]].
  destruct Hrest as ([o|e] & Hsearch & Hr); [|discriminate].
  apply forced_search_inv in Hsearch as (fitted & Hfit & _ & Hfs & Ho & Hb & Hframe).
  exists Xtr, (ravel Ytr), fitted. split; [exact Hfit|].
  split; [rewrite Hfs, Hfs5; reflexivity|].
  split; [exact Ho|]. split; [exact Hb|].
  intros p n Hopen. apply Hframe. now rewrite (open_file_ext w5 w) by exact Hfs5.
Qed.

(** The keys of the files [main] names. *)
Lemma main_keys :
  realpath "../grid-search-results/op_steady/rf_reg_op.pkl"
    = removelast cwd ++ ["grid-search-results"; "op_steady"; "rf_reg_op.pkl"]
  /\ realpath "../grid-search-results/op_steady/rf_reg_op-best-estm.pkl"
     = removelast cwd ++ ["grid-search-results"; "op_steady"; "rf_reg_op-best-estm.pkl"]
  /\ realpath "../grid-search-results/rc_steady/rf_reg_rc.pkl"
     = removelast cwd ++ ["grid-search-results"; "rc_steady"; "rf_reg_rc.pkl"]
  /\ realpath "../grid-search-results/rc_steady/rf_reg_rc-best-estm.pkl"
     = removelast cwd ++ ["grid-search-results"; "rc_steady"; "rf_reg_rc-best-estm.pkl"]
  /\ realpath "../training-data/ml_data_op_steady.csv"
     = removelast cwd ++ ["training-data"; "ml_data_op_steady.csv"]
  /\ realpath "../training-data/ml_data_rc_steady.csv"
     = removelast cwd ++ ["training-data"; "ml_data_rc_steady.csv"].
Proof.
  repeat split;
    match goal with
    | |- realpath ?p = removelast cwd ++ [?a; ?b; ?c] =>
        change (((removelast cwd ++ [a]) ++ [b]) ++ [c] = removelast cwd ++ [a; b; c])
    | |- realpath ?p = removelast cwd ++ [?a; ?b] =>
        change ((removelast cwd ++ [a]) ++ [b] = removelast cwd ++ [a; b])
    end;
    now rewrite <- !app_assoc.
Qed.

(** X17. When [main] completes, each variant's directory holds the result of
    a search fitted with [main]'s configuration (the random forest with the
    seed, the six distributions, ten unshuffled folds, 5000 iterations) and,
    beside it, the best estimator of that same search: a load of each of the
    four paths returns it. *)
Theorem main_completed_artifacts (w w' : World) :
  main w = (Ok tt, w') ->
  exists (X_op X_rc : DataFrame) (Y_op Y_rc : ndarray) (g_op g_rc : FittedSearch),
    rscv_fit main_search X_op Y_op = Ok g_op
    /\ rscv_fit main_search X_rc Y_rc = Ok g_rc
    /\ open_file w' "../grid-search-results/op_steady/rf_reg_op.pkl"
       = Ok (PickleFile (SearchObj g_op))
    /\ open_file w' "../grid-search-results/op_steady/rf_reg_op-best-estm.pkl"
       = Ok (PickleFile (EstimatorObj (best_estimator_ g_op)))
    /\ open_file w' "../grid-search-results/rc_steady/rf_reg_rc.pkl"
       = Ok (PickleFile (SearchObj g_rc))
    /\ open_file w' "../grid-search-results/rc_steady/rf_reg_rc-best-estm.pkl"
       = Ok (PickleFile (EstimatorObj (best_estimator_ g_rc))).
Proof.
  unfold main, tags. cbn [for_each]. intros H.
  apply bind_inv in H as [(e & _ & [=])|([] & w1 & Hop & H)].
  apply bind_inv in H as [(e & _ & [=])|([] & w2 & Hrc & H)].
  unfold ret in H. injection H as <-.
  apply run_tag_ok_inv in Hop as (X_op & Y_op & g_op & Hfit_op & _ & Hs1 & Hb1 & _).
  apply run_tag_ok_inv in Hrc as (X_rc & Y_rc & g_rc & Hfit_rc & _ & Hs2 & Hb2 & Hframe).
  change (search_path "op") with "../grid-search-results/op_steady/rf_reg_op.pkl" in *.
  change (best_path "op") with "../grid-search-results/op_steady/rf_reg_op-best-estm.pkl" in *.
  change (search_path "rc") with "../grid-search-results/rc_steady/rf_reg_rc.pkl" in *.
  change (best_path "rc") with "../grid-search-results/rc_steady/rf_reg_rc-best-estm.pkl" in *.
  destruct main_keys as (K1 & K2 & K3 & K4 & _).
  rewrite K1, K2 in Hb1. rewrite K3, K4 in Hb2, Hframe.
  assert (Hne : forall a b : list string,
            a <> b -> removelast cwd ++ a <> removelast cwd ++ b).
  { intros a b Hab E. now apply app_inv_head in E. }
  exists X_op, X_rc, Y_op, Y_rc, g_op, g_rc.
  split; [exact Hfit_op|]. split; [exact Hfit_rc|].
  split; [|split; [|split]].
  - apply Hframe; [exact Hs1 | rewrite K1; now apply Hne..].
  - apply Hframe; [apply Hb1; now apply Hne | rewrite K2; now apply Hne..].
  - exact Hs2.
  - apply Hb2. now apply Hne.
Qed.

Lemma touches_run_tag (tag : string) :
  touches (fun q => q = realpath (search_path tag) \/ q = realpath (best_path tag))
    (run_tag tag).
Proof.
  unfold run_tag.
  apply touches_bind; [|intros df_orig].
  { apply touches_nothing. intros w w' r H. unfold load_csv, pd_read_csv, bind, emit in H.
    destruct (open_file _ _) as [[]|]; now injection H as _ <-. }
  apply touches_bind; [|intros df_copy].
  { apply touches_nothing. intros w w' r H. unfold frame_copy, bind, deref, alloc in H.
    destruct (heap w !! df_orig); now injection H as _ <-. }
  apply touches_bind; [|intros cols].
  { apply touches_nothing. intros w w' r H. unfold column_list, bind, deref, ret in H.
    destruct (heap w !! df_copy); now injection H as _ <-. }
  apply touches_bind; [|intros df_filtered].
  { apply touches_nothing. intros w w' r H. now apply extends_filtering_stage in H. }
  apply touches_bind; [|intros df].
  { apply touches_nothing. intros w w' r H.
    apply map_target_values_cases in H as [[-> _]|(d & s & _ & _ & _ & ->)]; reflexivity. }
  apply touches_bind; [|intros [[[Xtr Xte] Ytr] Yte]].
  { apply touches_nothing. intros w w' r H. now apply split_train_test_frame in H. }
  apply touches_bind; [|intros rs; apply touches_nothing, fs_ret].
  eapply touches_weaken; [|apply touches_search].
  intros q [->|[_ ->]]; [now left | now right].
Qed.

(** X18. [main] writes to four files only: whatever the outcome, every file
    other than the two variants' search results and best estimators is as
    before the run; files are told apart by key, so another spelling of an
    artifact's path is that artifact. In particular the training files are
    never changed. *)
Theorem main_footprint (w w' : World) (r : result unit) :
  main w = (r, w') ->
  (forall q : Posix.key,
     q ∉ [realpath "../grid-search-results/op_steady/rf_reg_op.pkl";
          realpath "../grid-search-results/op_steady/rf_reg_op-best-estm.pkl";
          realpath "../grid-search-results/rc_steady/rf_reg_rc.pkl";
          realpath "../grid-search-results/rc_steady/rf_reg_rc-best-estm.pkl"] ->
     fs w' !! q = fs w !! q)
  /\ fs w' !! realpath "../training-data/ml_data_op_steady.csv"
     = fs w !! realpath "../training-data/ml_data_op_steady.csv"
  /\ fs w' !! realpath "../training-data/ml_data_rc_steady.csv"
     = fs w !! realpath "../training-data/ml_data_rc_steady.csv".
Proof.
  intros H.
  assert (Hall : forall q : Posix.key,
            q ∉ [realpath "../grid-search-results/op_steady/rf_reg_op.pkl";
                 realpath "../grid-search-results/op_steady/rf_reg_op-best-estm.pkl";
                 realpath "../grid-search-results/rc_steady/rf_reg_rc.pkl";
                 realpath "../grid-search-results/rc_steady/rf_reg_rc-best-estm.pkl"] ->
            fs w' !! q = fs w !! q).
  { intros q Hq. rewrite !not_elem_of_cons in Hq. destruct Hq as (H1 & H2 & H3 & H4 & _).
    unfold main, tags in H. cbn [for_each] in H.
    apply bind_inv in H as [(e & Hop & _)|(u & w1 & Hop & H)].
    - apply (touches_run_tag "op" _ _ _ Hop). intros [Hq|Hq]; [now apply H1 | now apply H2].
    - transitivity (fs w1 !! q).
      + apply bind_inv in H as [(e & Hrc & _)|(u' & w2 & Hrc & H)].
        * apply (touches_run_tag "rc" _ _ _ Hrc).
          intros [Hq|Hq]; [now apply H3 | now apply H4].
        * unfold ret in H. injection H as _ <-.
          apply (touches_run_tag "rc" _ _ _ Hrc).
          intros [Hq|Hq]; [now apply H3 | now apply H4].
      + apply (touches_run_tag "op" _ _ _ Hop).
        intros [Hq|Hq]; [now apply H1 | now apply H2]. }
  destruct main_keys as (K1 & K2 & K3 & K4 & K5 & K6).
  split; [exact Hall|].
  split; apply Hall; rewrite K1, K2, K3, K4, ?K5, ?K6; intros Hin;
    repeat (apply elem_of_cons in Hin as [Hin|Hin];
            [apply app_inv_head in Hin; discriminate Hin|]);
    now apply elem_of_nil in Hin.
Qed.


End Pipeline.

Arguments SearchObj {FittedSearch Estimator} g.
Arguments EstimatorObj {FittedSearch Estimator} e.
Arguments Dir {FittedSearch Estimator}.
Arguments PickleFile {FittedSearch Estimator} o.
Arguments CsvFile {FittedSearch Estimator} t.
Arguments mkWorld {FittedSearch Estimator} fs heap trace.
Arguments fs {FittedSearch Estimator} w.
Arguments heap {FittedSearch Estimator} w.
Arguments trace {FittedSearch Estimator} w.
Arguments map_target_values {FittedSearch Estimator} df target new_target_name encoding w.
Arguments split_train_test {FittedSearch Estimator} train_test_split df target features
  test_size random_state check_shape w.
Arguments search_random_params {FittedSearch Estimator} rscv_fit best_estimator_ cwd
  unpickle_failure X_train Y_train model param_dists cv n_iters n_jobs verbose scoring
  random_state keep_train_score filename save_dir save_best best_name remake w.
Arguments filtering_stage {FittedSearch Estimator} df_copy w.
Arguments load_csv {FittedSearch Estimator} cwd read_csv_failure filename data_dir w.
Arguments run_tag {FittedSearch Estimator} rscv_fit best_estimator_ train_test_split np_log
  cwd unpickle_failure read_csv_failure tag w.
Arguments main {FittedSearch Estimator} rscv_fit best_estimator_ train_test_split np_log
  cwd unpickle_failure read_csv_failure w.
Arguments kinds {FittedSearch Estimator} cwd w k.
Arguments lookup {FittedSearch Estimator} cwd w path.
Arguments slot {FittedSearch Estimator} cwd w path.
Arguments open_file {FittedSearch Estimator} cwd w path.
Arguments path_exists {FittedSearch Estimator} cwd w path.
Arguments is_directory {FittedSearch Estimator} cwd w path.

(** ** The partitioner over scikit-learn's splitter *)

Section Lengths.

Context {FittedSearch Estimator : Type}.

(** numpy's generator returns a permutation of [range(n)]. *)
Variable permutation : Z -> nat -> list nat.
Hypothesis permutation_spec : forall (seed : Z) (n : nat), permutation seed n ≡ₚ seq 0 n.

Lemma take_rows_length {A : Type} (l k : list A) (ind : list nat) :
  Sklearn.take_rows l ind = Some k -> length k = length ind.
Proof. unfold Sklearn.take_rows. intros H. symmetry. now apply length_mapM in H. Qed.

Lemma index_array_shape0 (a b : ndarray) (ind : list nat) :
  Sklearn.index_array a ind = Some b -> shape0 b = length ind.
Proof.
  unfold Sklearn.index_array. destruct a as [v|c m].
  - destruct (Sklearn.take_rows v ind) as [k|] eqn:E; [|discriminate].
    intros [= <-]. now apply take_rows_length in E.
  - destruct (Sklearn.take_rows m ind) as [k|] eqn:E; [|discriminate].
    intros [= <-]. now apply take_rows_length in E.
Qed.

Lemma validate_fraction_sum (n : nat) (test_size : float) (n_train n_test : Z) :
  Sklearn.validate_fraction n test_size = inr (n_train, n_test) ->
  (n_train + n_test = Z.of_nat n)%Z
  /\ PrimFloat.leb test_size 0%float = false /\ PrimFloat.leb 1%float test_size = false.
Proof.
  unfold Sklearn.validate_fraction.
  destruct (PrimFloat.leb test_size 0) eqn:E0; [discriminate|].
  destruct (PrimFloat.leb 1 test_size) eqn:E1; [discriminate|]. cbn [orb].
  destruct (Sklearn.ceil _) as [k|]; [|discriminate].
  destruct (Z.of_nat n <? _)%Z; [discriminate|].
  destruct (_ =? 0)%Z; [discriminate|].
  intros [= <- <-]. repeat split. lia.
Qed.

Lemma validate_counts_bounds (n : nat) (a b n_train n_test : Z) :
  Sklearn.validate_counts n a b = inr (n_train, n_test) ->
  n_train = a /\ n_test = b /\ (0 < a < Z.of_nat n)%Z /\ (0 < b < Z.of_nat n)%Z.
Proof.
  unfold Sklearn.validate_counts.
  destruct (Z.leb_spec (Z.of_nat n) b); [discriminate|].
  destruct (Z.leb_spec b 0); [discriminate|]. cbn [orb].
  destruct (Z.leb_spec (Z.of_nat n) a); [discriminate|].
  destruct (Z.leb_spec a 0); [discriminate|]. cbn [orb].
  destruct (Z.of_nat n <? a + b)%Z; [discriminate|].
  intros [= <- <-]. repeat split; lia.
Qed.

Lemma sk_split_lengths (X X_train X_test : DataFrame) (Y Y_train Y_test : ndarray)
    (test_size : float) (seed : Z) :
  Sklearn.train_test_split permutation X Y test_size seed
    = inr (X_train, X_test, Y_train, Y_test) ->
  nrows X_train = shape0 Y_train
  /\ nrows X_test = shape0 Y_test
  /\ nrows X_train + nrows X_test = nrows X
  /\ 0 < nrows X_train /\ 0 < nrows X_test
  /\ columns X_train = columns X /\ columns X_test = columns X.
Proof using permutation_spec.
  unfold Sklearn.train_test_split.
  destruct (nrows X =? shape0 Y)%nat; [|discriminate]. cbn [negb].
  destruct (Sklearn.validate_fraction (nrows X) test_size) as [m|[a b]] eqn:Ef; [discriminate|].
  destruct (Sklearn.validate_counts (nrows X) a b) as [m|[n_train n_test]] eqn:Ec;
    [discriminate|].
  apply validate_fraction_sum in Ef as (Hsum & _ & _).
  apply validate_counts_bounds in Ec as (-> & -> & Ha & Hb).
  set (perm := permutation seed (nrows X)).
  assert (Hlen : length perm = nrows X).
  { subst perm. rewrite (Permutation_length (permutation_spec seed (nrows X))).
    apply length_seq. }
  destruct (Sklearn.take_rows (rows X) (take (Z.to_nat a) (drop (Z.to_nat b) perm)))
    as [xtr|] eqn:E1; [|discriminate].
  destruct (Sklearn.take_rows (rows X) (take (Z.to_nat b) perm)) as [xte|] eqn:E2;
    [|discriminate].
  destruct (Sklearn.index_array Y (take (Z.to_nat a) (drop (Z.to_nat b) perm)))
    as [ytr|] eqn:E3; [|discriminate].
  destruct (Sklearn.index_array Y (take (Z.to_nat b) perm)) as [yte|] eqn:E4;
    [|discriminate].
  intros [= <- <- <- <-]. unfold nrows in *. cbn [rows columns].
  apply take_rows_length in E1, E2. apply index_array_shape0 in E3, E4.
  rewrite E1, E2, E3, E4, !length_take, length_drop, Hlen.
  repeat split; lia.
Qed.


Lemma take_rows_total {A : Type} (l : list A) (ind : list nat) :
  Forall (fun i => i < length l) ind -> is_Some (Sklearn.take_rows l ind).
Proof.
  intros H. apply mapM_is_Some_2. eapply Forall_impl; [exact H|].
  intros i Hi. cbn. now apply lookup_lt_is_Some_2.
Qed.

Lemma permutation_in_range (seed : Z) (n : nat) :
  Forall (fun i => i < n) (permutation seed n).
Proof using permutation_spec.
  rewrite Forall_forall. intros i Hi.
  rewrite (permutation_spec seed n) in Hi. apply elem_of_seq in Hi. lia.
Qed.

Lemma positions_total (cols cs : list string) :
  (forall c : string, c ∈ cs -> c ∈ cols) -> exists ps, positions cols cs = Some ps.
Proof.
  unfold positions. induction cs as [|c cs IH]; intros H; cbn [mapM]; [now exists []|].
  destruct (index_of c cols) as [i|] eqn:Hi.
  - destruct IH as [ps ->]; [intros c' Hc'; apply H; now apply list_elem_of_further|].
    now eexists.
  - exfalso. apply index_of_None in Hi. apply Hi, H, list_elem_of_here.
Qed.

(** The splitter returns whenever the two arrays have one length and the
    sizes it computes are both positive. *)
Lemma sk_split_total (X : DataFrame) (Y : ndarray) (test_size : float) (seed : Z) (a b : Z) :
  nrows X = shape0 Y ->
  Sklearn.validate_fraction (nrows X) test_size = inr (a, b) ->
  (0 < a)%Z -> (0 < b)%Z ->
  exists t, Sklearn.train_test_split permutation X Y test_size seed = inr t.
Proof using permutation_spec.
  intros Hlen Hf Ha Hb. unfold Sklearn.train_test_split.
  rewrite Hlen, Nat.eqb_refl. cbn [negb]. rewrite <- Hlen, Hf.
  destruct (validate_fraction_sum _ _ _ _ Hf) as (Hsum & _ & _).
  assert (Hc : Sklearn.validate_counts (nrows X) a b = inr (a, b)).
  { unfold Sklearn.validate_counts.
    destruct (Z.leb_spec (Z.of_nat (nrows X)) b); [lia|].
    destruct (Z.leb_spec b 0); [lia|]. cbn [orb].
    destruct (Z.leb_spec (Z.of_nat (nrows X)) a); [lia|].
    destruct (Z.leb_spec a 0); [lia|]. cbn [orb].
    destruct (Z.ltb_spec (Z.of_nat (nrows X)) (a + b)); [lia | reflexivity]. }
  rewrite Hc.
  pose proof (permutation_in_range seed (nrows X)) as Hperm.
  set (perm := permutation seed (nrows X)) in *.
  assert (Htr : Forall (fun i => i < nrows X) (take (Z.to_nat a) (drop (Z.to_nat b) perm)))
    by now apply Forall_take, Forall_drop.
  assert (Hte : Forall (fun i => i < nrows X) (take (Z.to_nat b) perm))
    by now apply Forall_take.
  destruct (take_rows_total (rows X) _ Htr) as [xtr ->].
  destruct (take_rows_total (rows X) _ Hte) as [xte ->].
  assert (HY : forall ind, Forall (fun i => i < nrows X) ind ->
                 is_Some (Sklearn.index_array Y ind)).
  { intros ind Hind. rewrite Hlen in Hind. unfold Sklearn.index_array.
    destruct Y as [v|c m]; cbn [shape0] in Hind;
      destruct (take_rows_total _ _ Hind) as [k ->]; now eexists. }
  destruct (HY _ Htr) as [ytr ->]. destruct (HY _ Hte) as [yte ->]. now eexists.
Qed.

(** [split_train_test] returns its four parts whenever the frame is live and
    well formed, the target and the features are columns of it, the feature
    list is not empty and the splitter's two sizes are positive. *)
Lemma split_train_test_returns (df : nat) (d : DataFrame) (target : string)
    (features : list string) (test_size : float) (seed : Z) (check_shape : bool)
    (w : World FittedSearch Estimator) (a b : Z) :
  features <> [] ->
  heap w !! df = Some d ->
  target ∈ columns d ->
  (forall f : string, f ∈ features -> f ∈ columns d) ->
  Sklearn.validate_fraction (nrows d) test_size = inr (a, b) ->
  (0 < a)%Z -> (0 < b)%Z ->
  exists (t : DataFrame * DataFrame * ndarray * ndarray) (w' : World FittedSearch Estimator),
    split_train_test (Sklearn.train_test_split permutation) df target features test_size seed
      check_shape w = (Ok t, w').
Proof using permutation_spec.
  intros Hne Hd Ht Hfs Hf Ha Hb.
  destruct (index_of target (columns d)) as [i|] eqn:Hi;
    [|now apply index_of_None in Hi].
  assert (Hs : frame_getitem d target = Ok (map (fun r : row => (fst r, cell i r)) (rows d))).
  { unfold frame_getitem. now rewrite Hi. }
  destruct (positions_total (columns d) features Hfs) as [ps Hps].
  assert (HX : frame_getitems d features
               = Ok (mkFrame features
                       (map (fun r : row => (fst r, map (fun j => cell j r) ps)) (rows d)))).
  { unfold frame_getitems. now rewrite Hps. }
  rewrite (split_train_test_run _ _ _ _ _ _ _ _ _ _ _ _ _ Hne Hd Hs HX).
  set (X := mkFrame features _) in *.
  set (Y := reshape_col _).
  assert (HnX : nrows X = nrows d) by (unfold nrows, X; cbn [rows]; apply length_map).
  assert (HnY : nrows X = shape0 Y).
  { rewrite HnX. unfold Y, reshape_col, series_values, nrows. cbn [flat shape0].
    now rewrite !length_map. }
  rewrite <- HnX in Hf.
  destruct (sk_split_total X Y test_size seed a b HnY Hf Ha Hb)
    as [[[[Xtr Xte] Ytr] Yte] Hsplit].
  rewrite Hsplit. unfold after_split.
  destruct check_shape; [|now eexists _, _].
  apply sk_split_lengths in Hsplit as (Heq & _).
  apply Nat.eqb_eq in Heq. rewrite Heq. now eexists _, _.
Qed.
(** C4. Over scikit-learn's splitter, whenever [split_train_test] returns its
    four parts for a test fraction strictly between 0 and 1, the train
    features and train targets have the same number of samples, so do the
    test features and test targets, and the train and test features together
    have as many rows as the feature matrix [X = df[features]], which has
    the rows of the dataset. *)
Theorem split_train_test_lengths (df : nat) (target : string) (features : list string)
    (test_size : float) (seed : Z) (check_shape : bool)
    (w w' : World FittedSearch Estimator)
    (X_train X_test : DataFrame) (Y_train Y_test : ndarray) :
  PrimFloat.ltb 0%float test_size = true ->
  PrimFloat.ltb test_size 1%float = true ->
  split_train_test (Sklearn.train_test_split permutation) df target features test_size seed
    check_shape w = (Ok (X_train, X_test, Y_train, Y_test), w') ->
  exists d X : DataFrame,
    heap w !! df = Some d
    /\ frame_getitems d features = Ok X
    /\ nrows X = nrows d
    /\ nrows X_train = shape0 Y_train
    /\ nrows X_test = shape0 Y_test
    /\ nrows X_train + nrows X_test = nrows X.
Proof using permutation_spec.
  intros _ _ H.
  destruct (split_train_test_cases _ _ _ _ _ _ _ _ _ _ _ _ H)
    as [(_ & [=] & _)|[(_ & _ & e & [=] & _)|(_ & d & s & X & Hd & _ & HX & Hr)]].
  exists d, X. split; [assumption|]. split; [assumption|].
  split; [now apply frame_getitems_Ok in HX|].
  destruct (Sklearn.train_test_split permutation X (reshape_col (series_values s))
              test_size seed) as [m|[[[Xtr Xte] Ytr] Yte]] eqn:E; [discriminate|].
  assert (Ht : (Xtr, Xte, Ytr, Yte) = (X_train, X_test, Y_train, Y_test)).
  { unfold after_split in Hr. destruct check_shape.
    - destruct (nrows Xtr =? shape0 Ytr)%nat; [congruence | discriminate].
    - congruence. }
  injection Ht as -> -> -> ->.
  apply sk_split_lengths in E. tauto.
Qed.

Lemma validate_fraction_message (n : nat) (test_size : float) (msg : string) :
  Sklearn.validate_fraction n test_size = inl msg ->
  msg <> "X_train and Y_train have different number of samples".
Proof.
  unfold Sklearn.validate_fraction. cbv zeta.
  repeat match goal with
         | |- context [if ?c then _ else _] => destruct c
         | |- context [match ?x with _ => _ end] => destruct x
         end;
    intros Heq; try discriminate Heq; injection Heq as <-; discriminate.
Qed.

Lemma validate_counts_message (n : nat) (a b : Z) (msg : string) :
  Sklearn.validate_counts n a b = inl msg ->
  msg <> "X_train and Y_train have different number of samples".
Proof.
  unfold Sklearn.validate_counts.
  repeat match goal with
         | |- context [if ?c then _ else _] => destruct c
         end;
    intros Heq; try discriminate Heq; injection Heq as <-; discriminate.
Qed.

Lemma sk_split_message (X : DataFrame) (Y : ndarray) (test_size : float) (seed : Z)
    (msg : string) :
  Sklearn.train_test_split permutation X Y test_size seed = inl msg ->
  msg <> "X_train and Y_train have different number of samples".
Proof.
  unfold Sklearn.train_test_split. cbv zeta.
  destruct (negb _); [intros [= <-]; discriminate|].
  destruct (Sklearn.validate_fraction _ _) as [m|[a b]] eqn:Ef;
    [intros [= <-]; now apply validate_fraction_message in Ef|].
  destruct (Sklearn.validate_counts _ _ _) as [m|[a' b']] eqn:Ec;
    [intros [= <-]; now apply validate_counts_message in Ec|].
  repeat match goal with
         | |- context [match ?x with _ => _ end] => destruct x
         end;
    intros Heq; try discriminate Heq; injection Heq as <-; discriminate.
Qed.

(** X19. Over scikit-learn's splitter the shape check never fires:
    [split_train_test] never raises its own [ValueError] ("X_train and
    Y_train have different number of samples"), with or without
    [check_shape]. *)
Theorem split_train_test_check_never_fires (df : nat) (target : string)
    (features : list string) (test_size : float) (seed : Z) (check_shape : bool)
    (w w' : World FittedSearch Estimator)
    (r : result (DataFrame * DataFrame * ndarray * ndarray)) :
  split_train_test (Sklearn.train_test_split permutation) df target features test_size seed
    check_shape w = (r, w') ->
  r <> Raise (ValueError "X_train and Y_train have different number of samples").
Proof using permutation_spec.
  intros H.
  destruct (split_train_test_cases _ _ _ _ _ _ _ _ _ _ _ _ H)
    as [(_ & -> & _)|[(_ & _ & e & -> & [[c ->]|[[m ->]| ->]])
                      |(_ & d & s & X & _ & _ & _ & Hr)]];
    try discriminate.
  destruct (Sklearn.train_test_split permutation X (reshape_col (series_values s))
              test_size seed) as [m|[[[Xtr Xte] Ytr] Yte]] eqn:E.
  - injection Hr as -> _. apply sk_split_message in E. congruence.
  - apply sk_split_lengths in E as (Heq & _). apply Nat.eqb_eq in Heq.
    unfold after_split in Hr. rewrite Heq in Hr.
    destruct check_shape; injection Hr as -> _; discriminate.
Qed.

(** C6. After the split, [split_train_test] compares the number of train
    feature rows with the number of train target rows: with [check_shape]
    set (the default, and what [main] passes) it raises the [ValueError]
    when they differ and returns the four parts when they are equal,
    whatever the splitter gave back. The comparison stands under
    [if check_shape:], but over scikit-learn's splitter, which is the one
    the function calls, the two numbers are always equal: in every call,
    with or without [check_shape], a difference would raise, equal counts
    return the four parts, and the counts are equal, so the call returns. *)
Theorem split_train_test_shape_check (df : nat) (d : DataFrame) (target : string)
    (features : list string) (test_size : float) (seed : Z) (s : Series) (X : DataFrame)
    (w : World FittedSearch Estimator) :
  features <> [] ->
  heap w !! df = Some d ->
  frame_getitem d target = Ok s ->
  frame_getitems d features = Ok X ->
  let Y := reshape_col (series_values s) in
  let mismatch := ValueError "X_train and Y_train have different number of samples" in
  (forall (splitter : DataFrame -> ndarray -> float -> Z ->
                      string + DataFrame * DataFrame * ndarray * ndarray)
          (X_train X_test : DataFrame) (Y_train Y_test : ndarray),
     splitter X Y test_size seed = inr (X_train, X_test, Y_train, Y_test) ->
     let run := split_train_test splitter df target features test_size seed true w in
     (nrows X_train <> shape0 Y_train -> fst run = Raise mismatch)
     /\ (nrows X_train = shape0 Y_train -> fst run = Ok (X_train, X_test, Y_train, Y_test)))
  /\ (forall (check_shape : bool) (X_train X_test : DataFrame) (Y_train Y_test : ndarray),
        Sklearn.train_test_split permutation X Y test_size seed
          = inr (X_train, X_test, Y_train, Y_test) ->
        let run := split_train_test (Sklearn.train_test_split permutation) df target features
                     test_size seed check_shape w in
        (nrows X_train <> shape0 Y_train -> fst run = Raise mismatch)
        /\ (nrows X_train = shape0 Y_train ->
            fst run = Ok (X_train, X_test, Y_train, Y_test))
        /\ nrows X_train = shape0 Y_train
        /\ fst run = Ok (X_train, X_test, Y_train, Y_test)).
Proof using permutation_spec.
  intros Hf Hd Hs HX Y mismatch. split.
  - intros splitter X_train X_test Y_train Y_test Ht run. subst run.
    destruct (split_train_test_check_cases _ _ splitter df d target features test_size
                seed s X X_train X_test Y_train Y_test w Hf Hd Hs HX Ht) as (H1 & H2 & _).
    split; intros Hn; [rewrite (H1 Hn) | rewrite (H2 Hn)]; reflexivity.
  - intros check_shape X_train X_test Y_train Y_test Ht run. subst run.
    pose proof (sk_split_lengths _ _ _ _ _ _ _ _ Ht) as (Heq & _).
    destruct (split_train_test_check_cases _ _ (Sklearn.train_test_split permutation)
                df d target features test_size seed s X X_train X_test Y_train Y_test w
                Hf Hd Hs HX Ht) as (_ & H2 & H3).
    assert (Hrun : fst (split_train_test (Sklearn.train_test_split permutation) df target
                          features test_size seed check_shape w)
                   = Ok (X_train, X_test, Y_train, Y_test)).
    { destruct check_shape; [now rewrite (H2 Heq) | now rewrite H3]. }
    split; [intros Hne; contradiction|]. split; [intros _; exact Hrun|].
    split; [exact Heq | exact Hrun].
Qed.

Lemma take_rows_lookup {A : Type} (l k : list A) (ind : list nat) (n j : nat) :
  Sklearn.take_rows l ind = Some k -> ind !! n = Some j -> k !! n = l !! j.
Proof.
  unfold Sklearn.take_rows. intros H Hn. apply mapM_Some_1 in H.
  destruct (Forall2_lookup_l _ _ _ _ _ H Hn) as (y & Hy & Hj). congruence.
Qed.

Lemma sk_split_indices (X X_train X_test : DataFrame) (Y Y_train Y_test : ndarray)
    (test_size : float) (seed : Z) :
  Sklearn.train_test_split permutation X Y test_size seed
    = inr (X_train, X_test, Y_train, Y_test) ->
  exists ind_train ind_test : list nat,
    ind_test ++ ind_train = permutation seed (nrows X)
    /\ Sklearn.take_rows (rows X) ind_train = Some (rows X_train)
    /\ Sklearn.take_rows (rows X) ind_test = Some (rows X_test)
    /\ Sklearn.index_array Y ind_train = Some Y_train
    /\ Sklearn.index_array Y ind_test = Some Y_test.
Proof using permutation_spec.
  unfold Sklearn.train_test_split.
  destruct (nrows X =? shape0 Y)%nat; [|discriminate]. cbn [negb].
  destruct (Sklearn.validate_fraction (nrows X) test_size) as [m|[a b]] eqn:Ef; [discriminate|].
  destruct (Sklearn.validate_counts (nrows X) a b) as [m|[n_train n_test]] eqn:Ec;
    [discriminate|].
  apply validate_fraction_sum in Ef as (Hsum & _ & _).
  apply validate_counts_bounds in Ec as (-> & -> & Ha & Hb).
  set (perm := permutation seed (nrows X)).
  assert (Hlen : length perm = nrows X).
  { subst perm. rewrite (Permutation_length (permutation_spec seed (nrows X))).
    apply length_seq. }
  destruct (Sklearn.take_rows (rows X) (take (Z.to_nat a) (drop (Z.to_nat b) perm)))
    as [xtr|] eqn:E1; [|discriminate].
  destruct (Sklearn.take_rows (rows X) (take (Z.to_nat b) perm)) as [xte|] eqn:E2;
    [|discriminate].
  destruct (Sklearn.index_array Y (take (Z.to_nat a) (drop (Z.to_nat b) perm)))
    as [ytr|] eqn:E3; [|discriminate].
  destruct (Sklearn.index_array Y (take (Z.to_nat b) perm)) as [yte|] eqn:E4;
    [|discriminate].
  intros [= <- <- <- <-]. cbn [rows].
  exists (take (Z.to_nat a) (drop (Z.to_nat b) perm)), (take (Z.to_nat b) perm).
  split; [|auto].
  rewrite (take_ge (drop (Z.to_nat b) perm)) by (rewrite length_drop; lia).
  apply take_drop.
Qed.

(** X20. Over scikit-learn's splitter [split_train_test] loses and
    duplicates no sample and keeps targets with their features: the train
    and test parts are read off two index lists that together are a
    permutation of the row positions of the dataset; the [k]-th train row is
    the feature row at the [k]-th train index and the [k]-th train target is
    the one-entry row holding the target of that same dataset row, and
    likewise for the test part; both feature parts have exactly the
    requested feature columns. *)
Theorem split_train_test_partition (df : nat) (target : string) (features : list string)
    (test_size : float) (seed : Z) (check_shape : bool)
    (w w' : World FittedSearch Estimator)
    (X_train X_test : DataFrame) (Y_train Y_test : ndarray) :
  split_train_test (Sklearn.train_test_split permutation) df target features test_size seed
    check_shape w = (Ok (X_train, X_test, Y_train, Y_test), w') ->
  exists (d X : DataFrame) (s : Series) (ind_train ind_test : list nat)
         (y_train y_test : list (list float)),
    heap w !! df = Some d
    /\ frame_getitems d features = Ok X
    /\ frame_getitem d target = Ok s
    /\ ind_test ++ ind_train ≡ₚ seq 0 (nrows d)
    /\ Y_train = Arr2 1 y_train /\ Y_test = Arr2 1 y_test
    /\ nrows X_train = length ind_train /\ nrows X_test = length ind_test
    /\ (forall k j : nat, ind_train !! k = Some j ->
          rows X_train !! k = rows X !! j
          /\ y_train !! k = (fun v : Z * float => [snd v]) <$> s !! j)
    /\ (forall k j : nat, ind_test !! k = Some j ->
          rows X_test !! k = rows X !! j
          /\ y_test !! k = (fun v : Z * float => [snd v]) <$> s !! j)
    /\ columns X_train = features /\ columns X_test = features.
Proof using permutation_spec.
  intros H.
  destruct (split_train_test_cases _ _ _ _ _ _ _ _ _ _ _ _ H)
    as [(_ & [=] & _)|[(_ & _ & e & [=] & _)|(_ & d & s & X & Hd & Hs & HX & Hr)]].
  destruct (Sklearn.train_test_split permutation X (reshape_col (series_values s))
              test_size seed) as [m|[[[Xtr Xte] Ytr] Yte]] eqn:E; [discriminate|].
  assert (Ht : (Xtr, Xte, Ytr, Yte) = (X_train, X_test, Y_train, Y_test)).
  { unfold after_split in Hr. destruct check_shape.
    - destruct (nrows Xtr =? shape0 Ytr)%nat; [congruence | discriminate].
    - congruence. }
  injection Ht as -> -> -> ->.
  pose proof (sk_split_lengths _ _ _ _ _ _ _ _ E) as (_ & _ & _ & _ & _ & Hc1 & Hc2).
  destruct (sk_split_indices _ _ _ _ _ _ _ _ E) as (itr & ite & Hperm & H1 & H2 & H3 & H4).
  destruct (frame_getitems_Ok _ _ _ HX) as [HcX HnX].
  unfold reshape_col, series_values in H3, H4. cbn [flat Sklearn.index_array] in H3, H4.
  destruct (Sklearn.take_rows (map (fun x : float => [x]) (map snd s)) itr)
    as [ytr|] eqn:E3; [|discriminate].
  destruct (Sklearn.take_rows (map (fun x : float => [x]) (map snd s)) ite)
    as [yte|] eqn:E4; [|discriminate].
  injection H3 as <-. injection H4 as <-.
  assert (Hy : forall (l : list (Z * float)) (j : nat),
            map (fun x : float => [x]) (map snd l) !! j
            = (fun v : Z * float => [snd v]) <$> l !! j).
  { intros l j. rewrite !lookup_map. now destruct (l !! j). }
  exists d, X, s, itr, ite, ytr, yte.
  split; [assumption|]. split; [assumption|]. split; [assumption|].
  split; [rewrite Hperm, <- HnX; apply permutation_spec|].
  split; [reflexivity|]. split; [reflexivity|].
  split; [unfold nrows; now apply take_rows_length in H1|].
  split; [unfold nrows; now apply take_rows_length in H2|].
  split.
  { intros k j Hk. split; [now apply (take_rows_lookup _ _ _ _ _ H1)|].
    rewrite (take_rows_lookup _ _ _ _ _ E3 Hk). apply Hy. }
  split.
  { intros k j Hk. split; [now apply (take_rows_lookup _ _ _ _ _ H2)|].
    rewrite (take_rows_lookup _ _ _ _ _ E4 Hk). apply Hy. }
  split; congruence.
Qed.

End Lengths.

(** ** A concrete run

    Stand-ins for the libraries, to run the script on a small table: the
    search refuses data whose two parts differ in length and otherwise
    returns the number of samples it was fitted on, its best estimator is
    that number plus one, the generator reverses [range(n)], and the
    logarithm is replaced by a function that agrees with it at 0 and at 1.
    The script sits in [/home/lab/machine-learning/scripts], its working
    directory, beside [training-data] and [grid-search-results]. *)

Definition demo_fit (gs : RandomizedSearchCV) (X : DataFrame) (Y : ndarray) : result nat :=
  if (nrows X =? shape0 Y)%nat then Ok (nrows X)
  else Raise (ValueError "Found input variables with inconsistent numbers of samples").

Definition demo_best (g : nat) : nat := S g.

Definition demo_perm (seed : Z) (n : nat) : list nat := rev (seq 0 n).

Definition demo_log (x : float) : float :=
  if PrimFloat.eqb x 0%float then neg_infinity else (x - 1)%float.

Definition demo_split := Sklearn.train_test_split demo_perm.

Definition demo_unpickle_failure (t : DataFrame) : exn := IndexError "pop from empty list".

Definition demo_read_csv_failure (o : pyobj nat nat) : exn :=
  UnicodeDecodeError "'utf-8' codec can't decode byte 0x80 in position 0".

Definition demo_table : DataFrame :=
  mkFrame ["temp"; "loop-tof"; "steady-state-condition"]
    [ (0%Z, [300; 2; 1]%float); (1%Z, [310; -2; 1]%float); (2%Z, [320; 0; 0]%float);
      (3%Z, [330; 0.5; 1]%float); (4%Z, [340; 0x1p-20; 0]%float); (5%Z, [350; -3; 1]%float);
      (6%Z, [360; 4; 1]%float); (7%Z, [370; 5; 1]%float); (8%Z, [380; -6; 1]%float);
      (9%Z, [390; 7; 1]%float); (10%Z, [400; 8; 1]%float); (11%Z, [410; -9; 1]%float) ].

(** One target per row of the table. *)
Definition demo_targets : ndarray := Arr1 (map (cell 1) (rows demo_table)).

(** A table that already has a column named like the derived target. *)
Definition leaky_table : DataFrame :=
  mkFrame ["temp"; "log-loop-tof"; "loop-tof"]
    [ (0%Z, [300; 0; 2]%float); (1%Z, [310; 0; -2]%float); (2%Z, [320; 0; 3]%float) ].

Definition demo_root : Posix.key := ["home"; "lab"; "machine-learning"].

Definition demo_cwd : Posix.key := demo_root ++ ["scripts"].

Definition demo_dirs : list (Posix.key * node nat nat) :=
  [ (["home"], Dir); (["home"; "lab"], Dir); (demo_root, Dir); (demo_cwd, Dir);
    (demo_root ++ ["training-data"], Dir);
    (demo_root ++ ["grid-search-results"], Dir);
    (demo_root ++ ["grid-search-results"; "op_steady"], Dir);
    (demo_root ++ ["grid-search-results"; "rc_steady"], Dir) ].

Definition demo_csvs (t : DataFrame) : list (Posix.key * node nat nat) :=
  [ (demo_root ++ ["training-data"; "ml_data_op_steady.csv"], CsvFile t);
    (demo_root ++ ["training-data"; "ml_data_rc_steady.csv"], CsvFile t) ].

Definition demo_files (t : DataFrame) : gmap Posix.key (node nat nat) :=
  list_to_map (demo_dirs ++ demo_csvs t).

Definition demo_world : World nat nat := mkWorld (demo_files demo_table) [] [].

Definition leaky_world : World nat nat := mkWorld (demo_files leaky_table) [] [].

(** The directories alone, without a live frame and with one. *)
Definition empty_world : World nat nat := mkWorld (list_to_map demo_dirs) [] [].

Definition fresh_world : World nat nat := mkWorld (list_to_map demo_dirs) [demo_table] [].

(** A world with one live frame and a cached search result beside the
    script. *)
Definition cached_world : World nat nat :=
  mkWorld (list_to_map (demo_dirs ++ [(demo_cwd ++ ["rf_reg.pkl"], PickleFile (SearchObj 7))]))
    [demo_table] [].

(** A splitter that loses the train targets, as no real one does. *)
Definition lopsided_split (X : DataFrame) (Y : ndarray) (test_size : float) (seed : Z)
  : string + (DataFrame * DataFrame * ndarray * ndarray) :=
  inr (X, mkFrame (columns X) [], Arr2 1 [], Arr2 1 []).

Definition demo_search_in (fit : RandomizedSearchCV -> DataFrame -> ndarray -> result nat)
    (save_dir filename best_name : string) (save_best remake : bool)
  : M nat nat (pyobj nat nat) :=
  search_random_params fit demo_best demo_cwd demo_unpickle_failure demo_table demo_targets
    (RandomForestRegressor SEED) [] (Folds 5) 100 1 2 "neg_mean_absolute_error" SEED false
    filename save_dir save_best best_name remake.

Definition demo_search (filename best_name : string) (save_best remake : bool)
  : M nat nat (pyobj nat nat) :=
  demo_search_in demo_fit "" filename best_name save_best remake.

Definition demo_run_tag (tag : string) : M nat nat unit :=
  run_tag demo_fit demo_best demo_split demo_log demo_cwd demo_unpickle_failure
    demo_read_csv_failure tag.

Definition demo_main : M nat nat unit :=
  main demo_fit demo_best demo_split demo_log demo_cwd demo_unpickle_failure
    demo_read_csv_failure.

(** The pickles of a world, with their keys. *)
Definition pickles (w : World nat nat) : list (Posix.key * pyobj nat nat) :=
  omap (fun kn : Posix.key * node nat nat =>
          match snd kn with
          | PickleFile o => Some (fst kn, o)
          | _ => None
          end) (map_to_list (fs w)).

(** The same files with stale artifacts at both primary paths. *)
Definition stale_world : World nat nat :=
  mkWorld
    (<[demo_root ++ ["grid-search-results"; "op_steady"; "rf_reg_op.pkl"]
        := PickleFile (SearchObj 0)]>
     (<[demo_root ++ ["grid-search-results"; "rc_steady"; "rf_reg_rc.pkl"]
         := PickleFile (SearchObj 0)]>
      (demo_files demo_table)))
    [] [].

Example end_to_end_sizes :
  Sklearn.validate_fraction 900 0x1.999999999999ap-4%float = inr (810%Z, 90%Z).
Proof. vm_compute. reflexivity. Qed.

Example demo_main_completes : fst (demo_main demo_world) = Ok tt.
Proof. vm_compute. reflexivity. Qed.

(** Two spellings of one file, and an artifact found again under another
    spelling. *)
Example one_file_two_spellings :
  realpath demo_cwd "rf_reg.pkl" = realpath demo_cwd "./rf_reg.pkl"
  /\ realpath demo_cwd "rf_reg.pkl" = realpath demo_cwd "../scripts//rf_reg.pkl"
  /\ open_file demo_cwd cached_world "../scripts/./rf_reg.pkl" = Ok (PickleFile (SearchObj 7)).
Proof. vm_compute. repeat split; reflexivity. Qed.

Lemma search_random_params_cache_hit_witness :
  open_file demo_cwd cached_world (PosixPath.join "" "rf_reg.pkl")
    = Ok (PickleFile (SearchObj 7))
  /\ fst (demo_search "rf_reg.pkl" "rf_reg_best-estm.pkl" true false cached_world)
     = Ok (SearchObj 7)
  /\ fits (trace (snd (demo_search "rf_reg.pkl" "rf_reg_best-estm.pkl" true false cached_world)))
     = 0.
Proof.
  assert (H : open_file demo_cwd cached_world (PosixPath.join "" "rf_reg.pkl")
              = Ok (PickleFile (SearchObj 7))) by (vm_compute; reflexivity).
  split; [exact H|].
  destruct (search_random_params_cache_hit nat nat demo_fit demo_best demo_cwd
              demo_unpickle_failure
              demo_table demo_table demo_targets demo_targets
              (RandomForestRegressor SEED) (RandomForestRegressor SEED) [] []
              (Folds 5) (Folds 5) 100 100 1 1 2 2
              "neg_mean_absolute_error" "neg_mean_absolute_error" SEED SEED false false
              "rf_reg.pkl" "" true true "rf_reg_best-estm.pkl" "rf_reg_best-estm.pkl"
              (SearchObj 7) cached_world H) as (H1 & _ & H2 & _).
  unfold demo_search, demo_search_in. rewrite H1. split; [reflexivity | exact H2].
Defined.

Lemma demo_perm_spec (seed : Z) (n : nat) : demo_perm seed n ≡ₚ seq 0 n.
Proof. unfold demo_perm. symmetry. apply Permutation_rev. Qed.

Lemma demo_table_wf : wf_frame demo_table.
Proof. unfold wf_frame. cbn [rows demo_table]. repeat constructor. Qed.

Lemma search_random_params_cache_miss_witness :
  slot demo_cwd cached_world (PosixPath.join "" "rf_reg.pkl") = inr (demo_cwd ++ ["rf_reg.pkl"])
  /\ slot demo_cwd cached_world (PosixPath.join "" "rf_reg_best-estm.pkl")
     = inr (demo_cwd ++ ["rf_reg_best-estm.pkl"])
  /\ fst (demo_search "rf_reg.pkl" "rf_reg_best-estm.pkl" true true cached_world)
     = Ok (SearchObj 12)
  /\ open_file demo_cwd
       (snd (demo_search "rf_reg.pkl" "rf_reg_best-estm.pkl" true true cached_world))
       "rf_reg_best-estm.pkl" = Ok (PickleFile (EstimatorObj 13)).
Proof.
  assert (Hw : slot demo_cwd cached_world (PosixPath.join "" "rf_reg.pkl")
               = inr (demo_cwd ++ ["rf_reg.pkl"])) by (vm_compute; reflexivity).
  assert (Hb : slot demo_cwd cached_world (PosixPath.join "" "rf_reg_best-estm.pkl")
               = inr (demo_cwd ++ ["rf_reg_best-estm.pkl"])) by (vm_compute; reflexivity).
  split; [exact Hw|]. split; [exact Hb|].
  destruct (search_random_params_cache_miss nat nat demo_fit demo_best demo_cwd
              demo_unpickle_failure
              demo_table demo_targets (RandomForestRegressor SEED) [] (Folds 5) 100 1 2
              "neg_mean_absolute_error" SEED false "rf_reg.pkl" "" true
              "rf_reg_best-estm.pkl" true 12 _ _ cached_world
              (or_introl eq_refl) eq_refl Hw (fun _ => Hb))
    as (w' & Hrun & _ & _ & _ & Hbest & _).
  unfold demo_search, demo_search_in. rewrite Hrun. split; [reflexivity|].
  destruct (Hbest eq_refl) as (_ & Hne & _). apply Hne. vm_compute. discriminate.
Defined.

(** With [save_best] set and a best-estimator name that names the file of
    the search result, by the same spelling or by another one, the search
    result is the only pickle left: no best estimator is kept anywhere. *)
Lemma search_random_params_shared_key_counterexample :
  (exists w' : World nat nat,
     demo_search "rf_reg.pkl" "rf_reg.pkl" true true empty_world = (Ok (SearchObj 12), w')
     /\ pickles w' = [(demo_cwd ++ ["rf_reg.pkl"], SearchObj 12)])
  /\ "./rf_reg.pkl" <> "rf_reg.pkl"
  /\ (exists w' : World nat nat,
        demo_search "rf_reg.pkl" "./rf_reg.pkl" true true empty_world = (Ok (SearchObj 12), w')
        /\ pickles w' = [(demo_cwd ++ ["rf_reg.pkl"], SearchObj 12)]).
Proof.
  split; [|split; [discriminate|]].
  - eexists. split.
    + unfold demo_search, demo_search_in.
      apply (search_miss_run nat nat demo_fit demo_best demo_cwd demo_unpickle_failure
               _ _ _ _ _ _ _ _ _ _ _ _ _ _ _ _ 12
               (demo_cwd ++ ["rf_reg.pkl"]) (demo_cwd ++ ["rf_reg.pkl"]));
        [now left | reflexivity | vm_compute; reflexivity | intros _; vm_compute; reflexivity].
    + vm_compute. reflexivity.
  - eexists. split.
    + unfold demo_search, demo_search_in.
      apply (search_miss_run nat nat demo_fit demo_best demo_cwd demo_unpickle_failure
               _ _ _ _ _ _ _ _ _ _ _ _ _ _ _ _ 12
               (demo_cwd ++ ["rf_reg.pkl"]) (demo_cwd ++ ["rf_reg.pkl"]));
        [now left | reflexivity | vm_compute; reflexivity | intros _; vm_compute; reflexivity].
    + vm_compute. reflexivity.
Qed.

Lemma filtering_stage_keeps_outside_band_witness :
  heap cached_world !! 0 = Some demo_table
  /\ index_of "loop-tof" (columns demo_table) = Some 1
  /\ fst (filtering_stage 0 cached_world) = Ok 1
  /\ Forall (fun r : row => near_zero (cell 1 r) = false)
       (filter (fun r : row => keep (cell 1 r)) (rows demo_table)).
Proof.
  split; [reflexivity|]. split; [reflexivity|].
  destruct (filtering_stage_keeps_outside_band nat nat 0 1 demo_table cached_world
              eq_refl eq_refl) as (Hrun & _ & _ & Hband).
  rewrite Hrun. split; [reflexivity | exact Hband].
Defined.

Lemma split_train_test_lengths_witness :
  PrimFloat.ltb 0%float 0x1.999999999999ap-4%float = true
  /\ PrimFloat.ltb 0x1.999999999999ap-4%float 1%float = true
  /\ exists (X_train X_test : DataFrame) (Y_train Y_test : ndarray),
       fst (split_train_test demo_split 0 "loop-tof" ["temp"] 0x1.999999999999ap-4%float
              SEED true cached_world) = Ok (X_train, X_test, Y_train, Y_test)
       /\ nrows X_train = shape0 Y_train
       /\ nrows X_test = shape0 Y_test
       /\ nrows X_train + nrows X_test = 12.
Proof.
  split; [reflexivity|]. split; [reflexivity|].
  destruct (split_train_test demo_split 0 "loop-tof" ["temp"] 0x1.999999999999ap-4%float
              SEED true cached_world) as [[[[[Xtr Xte] Ytr] Yte]|e] w'] eqn:E.
  2:{ exfalso. vm_compute in E. discriminate E. }
  exists Xtr, Xte, Ytr, Yte. split; [reflexivity|].
  destruct (split_train_test_lengths demo_perm demo_perm_spec 0 "loop-tof" ["temp"]
              0x1.999999999999ap-4%float SEED true cached_world w' Xtr Xte Ytr Yte
              eq_refl eq_refl E) as (d & X & Hd & HX & Hn & H1 & H2 & H3).
  injection Hd as <-. rewrite Hn in H3. auto.
Defined.

(** The check at work: on the table of the run the real splitter's parts
    agree and the call returns, with and without [check_shape]; a splitter
    that lost the train targets would be caught. *)
Lemma split_train_test_shape_check_witness :
  ["temp"] <> []
  /\ heap cached_world !! 0 = Some demo_table
  /\ (exists (X_train X_test : DataFrame) (Y_train Y_test : ndarray),
        fst (split_train_test demo_split 0 "loop-tof" ["temp"] 0x1.999999999999ap-4%float
               SEED true cached_world) = Ok (X_train, X_test, Y_train, Y_test)
        /\ fst (split_train_test demo_split 0 "loop-tof" ["temp"] 0x1.999999999999ap-4%float
                  SEED false cached_world) = Ok (X_train, X_test, Y_train, Y_test)
        /\ nrows X_train = 10 /\ shape0 Y_train = 10)
  /\ fst (split_train_test lopsided_split 0 "loop-tof" ["temp"] 0x1.999999999999ap-4%float
            SEED true cached_world)
     = Raise (ValueError "X_train and Y_train have different number of samples").
Proof.
  assert (Hf : ["temp"] <> []) by discriminate.
  split; [exact Hf|]. split; [reflexivity|].
  destruct (split_train_test_shape_check demo_perm demo_perm_spec 0 demo_table "loop-tof"
              ["temp"] 0x1.999999999999ap-4%float SEED _ _ cached_world
              Hf eq_refl eq_refl eq_refl) as (Hany & Hreal).
  split.
  - destruct (Sklearn.train_test_split demo_perm
                (mkFrame ["temp"] (map (fun r : row => (fst r, [cell 0 r])) (rows demo_table)))
                (reshape_col (series_values
                   (map (fun r : row => (fst r, cell 1 r)) (rows demo_table))))
                0x1.999999999999ap-4%float SEED) as [msg|[[[Xtr Xte] Ytr] Yte]] eqn:E.
    { exfalso. vm_compute in E. discriminate E. }
    exists Xtr, Xte, Ytr, Yte.
    destruct (Hreal true _ _ _ _ E) as (_ & _ & _ & Hon).
    destruct (Hreal false _ _ _ _ E) as (_ & _ & Heq & Hoff).
    split; [exact Hon|]. split; [exact Hoff|].
    assert (Hn : nrows Xtr = 10) by (vm_compute in E; injection E as <- _ _ _; reflexivity).
    split; [exact Hn | now rewrite <- Heq].
  - destruct (Hany lopsided_split _ _ _ _ eq_refl) as (Hdiff & _).
    apply Hdiff. vm_compute. discriminate.
Defined.


Lemma map_target_values_mutates_counterexample :
  let run := map_target_values 0 "loop-tof" "log-loop-tof" (log_abs demo_log) cached_world in
  fst run = Ok 0
  /\ columns <$> heap cached_world !! 0
     = Some ["temp"; "loop-tof"; "steady-state-condition"]
  /\ columns <$> heap (snd run) !! 0
     = Some ["temp"; "loop-tof"; "steady-state-condition"; "log-loop-tof"].
Proof. vm_compute. repeat split; reflexivity. Qed.

Lemma main_always_remakes_witness :
  exists evs : list event,
    trace (snd (demo_main stale_world)) = evs
    /\ fits evs = 2
    /\ (forall p : string, EvExists p ∉ evs).
Proof.
  destruct (main_always_remakes nat nat demo_fit demo_best demo_split demo_log demo_cwd
              demo_unpickle_failure demo_read_csv_failure stale_world
              (snd (demo_main stale_world)) (fst (demo_main stale_world))
              (surjective_pairing _))
    as (_ & evs & Ht & _ & _ & Hfits & Hex).
  exists evs. split; [exact Ht|]. split; [|exact Hex].
  apply Hfits. vm_compute. reflexivity.
Defined.

Lemma features_leave_out_targets_witness :
  open_file demo_cwd demo_world
    (PosixPath.join TRAINING_DATA_DIR ("ml_data_" +:+ "op" +:+ "_steady.csv"))
    = Ok (CsvFile demo_table)
  /\ exists evs : list event,
       trace (snd (demo_run_tag "op" demo_world)) = evs
       /\ forall (cols : list string) (n : nat) (p : float) (s : Z),
            EvSplit cols n p s ∈ evs -> cols = ["temp"].
Proof.
  assert (H : open_file demo_cwd demo_world
                (PosixPath.join TRAINING_DATA_DIR ("ml_data_" +:+ "op" +:+ "_steady.csv"))
              = Ok (CsvFile demo_table))
    by (vm_compute; reflexivity).
  split; [exact H|].
  destruct (features_leave_out_targets nat nat demo_fit demo_best demo_split demo_log demo_cwd
              demo_unpickle_failure demo_read_csv_failure "op" demo_table demo_world
              (snd (demo_run_tag "op" demo_world)) (fst (demo_run_tag "op" demo_world))
              H (surjective_pairing _)) as (evs & Ht & Hev).
  exists evs. split; [exact Ht|]. intros cols n p s Hin.
  destruct (Hev cols n p s Hin) as (-> & _). vm_compute. reflexivity.
Defined.

Lemma leaky_table_counterexample :
  open_file demo_cwd leaky_world "../training-data/ml_data_op_steady.csv"
    = Ok (CsvFile leaky_table)
  /\ exists (n : nat) (p : float) (s : Z),
       EvSplit ["temp"; "log-loop-tof"] n p s ∈ trace (snd (demo_run_tag "op" leaky_world)).
Proof.
  split; [vm_compute; reflexivity|].
  set (t := trace (snd (demo_run_tag "op" leaky_world))).
  vm_compute in t. subst t. eexists _, _, _.
  apply list_elem_of_further, list_elem_of_here.
Qed.

(** ** Concrete runs of the further properties *)

(** A search that fails. *)
Definition failing_fit (gs : RandomizedSearchCV) (X : DataFrame) (Y : ndarray) : result nat :=
  Raise (ValueError "the search failed").

(** Tables without features and without the target. *)
Definition bare_table : DataFrame :=
  mkFrame ["loop-tof"; "steady-state-condition"] [ (0%Z, [2; 1]%float); (1%Z, [-3; 1]%float) ].

Definition targetless_table : DataFrame := mkFrame ["temp"] [ (0%Z, [300]%float) ].

Definition bare_world : World nat nat := mkWorld (demo_files bare_table) [] [].

Definition targetless_world : World nat nat := mkWorld (demo_files targetless_table) [] [].

(** A directory stands where the search result should go. *)
Definition blocked_world : World nat nat :=
  mkWorld (list_to_map (demo_dirs ++ [(demo_cwd ++ ["rf_reg.pkl"], Dir)])) [] [].

(** A CSV file stands where the search result is looked for. *)
Definition csv_cache_world : World nat nat :=
  mkWorld (list_to_map (demo_dirs ++ [(demo_cwd ++ ["rf_reg.pkl"], CsvFile demo_table)])) [] [].

Lemma load_csv_fresh_object_witness :
  fst (load_csv demo_cwd demo_read_csv_failure "ml_data_op_steady.csv" TRAINING_DATA_DIR
         demo_world) = Ok 0
  /\ heap (snd (load_csv demo_cwd demo_read_csv_failure "ml_data_op_steady.csv"
                  TRAINING_DATA_DIR demo_world)) !! 0
     = Some demo_table.
Proof.
  destruct (load_csv_fresh_object nat nat demo_cwd demo_read_csv_failure
              "ml_data_op_steady.csv" TRAINING_DATA_DIR demo_world
              _ _ (surjective_pairing _)) as (_ & _ & _ & _ & Hok & _).
  assert (E : fst (load_csv demo_cwd demo_read_csv_failure "ml_data_op_steady.csv"
                     TRAINING_DATA_DIR demo_world) = Ok 0)
    by (vm_compute; reflexivity).
  split; [exact E|]. destruct (Hok 0 E) as (_ & t & Ht & Hh). rewrite Hh.
  vm_compute in Ht. injection Ht as <-. reflexivity.
Defined.

Lemma map_target_values_missing_target_witness :
  heap cached_world !! 0 = Some demo_table
  /\ map_target_values 0 "tof" "log-loop-tof" (log_abs demo_log) cached_world
     = (Raise (KeyError "tof"), cached_world).
Proof.
  split; [reflexivity|].
  apply (map_target_values_missing_target nat nat 0 demo_table); [reflexivity|].
  intros Hin. absurd_member Hin.
Defined.

Lemma map_target_values_keeps_shape_witness :
  exists d' : DataFrame,
    heap (snd (map_target_values 0 "loop-tof" "log-loop-tof" (log_abs demo_log) cached_world))
      !! 0 = Some d'
    /\ wf_frame d' /\ nrows d' = 12.
Proof.
  destruct (map_target_values_keeps_shape nat nat 0 demo_table "loop-tof" "log-loop-tof"
              (log_abs demo_log) _ cached_world eq_refl demo_table_wf eq_refl)
    as (d' & Hd' & Hwf & Hn & _).
  exists d'. split; [exact Hd'|]. split; [exact Hwf | exact Hn].
Defined.

Lemma map_target_values_idempotent_witness :
  "loop-tof" <> "log-loop-tof"
  /\ fst (map_target_values 0 "loop-tof" "log-loop-tof" (log_abs demo_log)
            (snd (map_target_values 0 "loop-tof" "log-loop-tof" (log_abs demo_log)
                    cached_world))) = Ok 0.
Proof.
  assert (Hne : "loop-tof" <> "log-loop-tof") by discriminate.
  split; [exact Hne|].
  now rewrite (map_target_values_idempotent nat nat 0 demo_table "loop-tof" "log-loop-tof"
                 (log_abs demo_log) _ cached_world eq_refl demo_table_wf eq_refl Hne).
Defined.

Lemma filtering_stage_idempotent_witness :
  exists (kept : DataFrame) (w1 w2 : World nat nat),
    filtering_stage 0 cached_world = (Ok 1, w1)
    /\ filtering_stage 1 w1 = (Ok 2, w2)
    /\ heap w2 !! 2 = Some kept
    /\ nrows kept <= 12.
Proof.
  destruct (filtering_stage_idempotent nat nat 0 1 demo_table cached_world eq_refl eq_refl)
    as (kept & w1 & w2 & H1 & _ & Hn & _ & H2 & H3).
  exists kept, w1, w2. auto.
Defined.

Lemma split_train_test_missing_column_witness :
  ["temp"; "pressure"; "ph"; "pressure"] <> []
  /\ split_train_test demo_split 0 "loop-tof" ["temp"; "pressure"; "ph"; "pressure"]
       0x1.999999999999ap-4%float SEED true cached_world
     = (Raise (KeyError_labels ["pressure"; "ph"]), cached_world).
Proof.
  assert (Hf : ["temp"; "pressure"; "ph"; "pressure"] <> []) by discriminate.
  split; [exact Hf|].
  destruct (split_train_test_missing_column nat nat demo_split 0 demo_table "loop-tof"
              ["temp"; "pressure"; "ph"; "pressure"]
              0x1.999999999999ap-4%float SEED true cached_world Hf eq_refl) as [_ Hmiss].
  destruct Hmiss as (Hrun & _).
  - apply list_elem_of_further, list_elem_of_here.
  - exists "ph". split; [|intros Hin; absurd_member Hin].
    do 2 apply list_elem_of_further. apply list_elem_of_here.
  - rewrite Hrun. reflexivity.
Defined.

Lemma search_random_params_footprint_witness :
  demo_cwd ++ ["notes.txt"] <> realpath demo_cwd "rf_reg.pkl"
  /\ demo_cwd ++ ["notes.txt"] <> realpath demo_cwd "rf_reg_best-estm.pkl"
  /\ fs (snd (demo_search "rf_reg.pkl" "rf_reg_best-estm.pkl" true true cached_world))
       !! (demo_cwd ++ ["notes.txt"]) = fs cached_world !! (demo_cwd ++ ["notes.txt"])
  /\ heap (snd (demo_search "rf_reg.pkl" "rf_reg_best-estm.pkl" true true cached_world))
     = heap cached_world.
Proof.
  assert (H1 : demo_cwd ++ ["notes.txt"] <> realpath demo_cwd "rf_reg.pkl")
    by (vm_compute; discriminate).
  assert (H2 : demo_cwd ++ ["notes.txt"] <> realpath demo_cwd "rf_reg_best-estm.pkl")
    by (vm_compute; discriminate).
  destruct (search_random_params_footprint nat nat demo_fit demo_best demo_cwd
              demo_unpickle_failure
              demo_table demo_targets (RandomForestRegressor SEED) [] (Folds 5) 100 1 2
              "neg_mean_absolute_error" SEED false "rf_reg.pkl" "" true
              "rf_reg_best-estm.pkl" true cached_world _ _ (surjective_pairing _))
    as [Hheap Hfs].
  split; [exact H1|]. split; [exact H2|]. split; [|exact Hheap].
  apply Hfs; [exact H1 | right; exact H2].
Defined.

Lemma search_random_params_returns_stored_witness :
  exists o : pyobj nat nat,
    fst (demo_search "rf_reg.pkl" "rf_reg_best-estm.pkl" true false cached_world) = Ok o
    /\ open_file demo_cwd
         (snd (demo_search "rf_reg.pkl" "rf_reg_best-estm.pkl" true false cached_world))
         "rf_reg.pkl" = Ok (PickleFile o).
Proof.
  destruct (demo_search "rf_reg.pkl" "rf_reg_best-estm.pkl" true false cached_world)
    as [[o|e] w'] eqn:E.
  2:{ exfalso. vm_compute in E. discriminate E. }
  exists o. split; [reflexivity|]. unfold demo_search, demo_search_in in E.
  exact (search_random_params_returns_stored nat nat demo_fit demo_best demo_cwd
           demo_unpickle_failure _ _ _ _ _ _ _ _ _ _ _
           _ _ _ _ _ _ _ _ E).
Defined.

Lemma search_random_params_fit_failure_witness :
  demo_search_in failing_fit "" "rf_reg.pkl" "rf_reg_best-estm.pkl" true true empty_world
  = (Raise (ValueError "the search failed"),
     mkWorld (fs empty_world) []
       [EvFit (mkSearch (RandomForestRegressor SEED) [] (Folds 5) 100 1 2
                 "neg_mean_absolute_error" SEED false) 12]).
Proof.
  unfold demo_search_in.
  rewrite (search_random_params_fit_failure nat nat failing_fit demo_best demo_cwd
             demo_unpickle_failure
             demo_table demo_targets (RandomForestRegressor SEED) [] (Folds 5) 100 1 2
             "neg_mean_absolute_error" SEED false "rf_reg.pkl" "" true
             "rf_reg_best-estm.pkl" true (ValueError "the search failed") empty_world
             (or_introl eq_refl) eq_refl).
  reflexivity.
Defined.



Lemma search_random_params_store_then_hit_witness :
  slot demo_cwd empty_world (PosixPath.join "" "rf_reg.pkl") = inr (demo_cwd ++ ["rf_reg.pkl"])
  /\ fst (demo_search "./rf_reg.pkl" "rf_reg_best-estm.pkl" false false
            (snd (demo_search "rf_reg.pkl" "rf_reg_best-estm.pkl" false true empty_world)))
     = Ok (SearchObj 12)
  /\ fst (demo_search "rf_reg.pkl" "rf_reg_best-estm.pkl" false false
            (snd (demo_search "rf_reg.pkl" "rf_reg_best-estm.pkl" false true empty_world)))
     = Ok (SearchObj 12).
Proof.
  assert (Hw : slot demo_cwd empty_world (PosixPath.join "" "rf_reg.pkl")
               = inr (demo_cwd ++ ["rf_reg.pkl"])) by (vm_compute; reflexivity).
  split; [exact Hw|]. split; [vm_compute; reflexivity|].
  destruct (search_random_params_store_then_hit nat nat demo_fit demo_best demo_cwd
              demo_unpickle_failure
              demo_table demo_table demo_targets demo_targets
              (RandomForestRegressor SEED) (RandomForestRegressor SEED) [] []
              (Folds 5) (Folds 5) 100 100 1 1 2 2
              "neg_mean_absolute_error" "neg_mean_absolute_error" SEED SEED false false
              "rf_reg.pkl" "" false false "rf_reg_best-estm.pkl" "rf_reg_best-estm.pkl"
              true 12 _ (demo_cwd ++ ["rf_reg_best-estm.pkl"]) empty_world
              (or_introl eq_refl) eq_refl Hw
              (fun H : false = true => match Bool.diff_false_true H with end))
    as (Hrun & _).
  exact Hrun.
Defined.

Lemma run_tag_no_feature_columns_witness :
  open_file demo_cwd bare_world (csv_path "op") = Ok (CsvFile bare_table)
  /\ fst (demo_run_tag "op" bare_world)
     = Raise (AssertionError "No feature columns provided")
  /\ length (heap (snd (demo_run_tag "op" bare_world))) = 3.
Proof.
  assert (H : open_file demo_cwd bare_world (csv_path "op") = Ok (CsvFile bare_table))
    by (vm_compute; reflexivity).
  split; [exact H|].
  destruct (run_tag_no_feature_columns nat nat demo_fit demo_best demo_split demo_log demo_cwd
              demo_unpickle_failure demo_read_csv_failure "op" bare_table bare_world H)
    as (i & _ & Hrun).
  - apply list_elem_of_here.
  - intros c Hc. apply elem_of_cons in Hc as [->|Hc]; [now left|].
    apply list_elem_of_singleton in Hc as ->. now right.
  - cbv zeta in Hrun. unfold demo_run_tag. rewrite Hrun. split; reflexivity.
Defined.

Lemma run_tag_missing_loop_tof_witness :
  open_file demo_cwd targetless_world (csv_path "op") = Ok (CsvFile targetless_table)
  /\ fst (demo_run_tag "op" targetless_world) = Raise (KeyError "loop-tof").
Proof.
  assert (H : open_file demo_cwd targetless_world (csv_path "op")
              = Ok (CsvFile targetless_table))
    by (vm_compute; reflexivity).
  split; [exact H|]. unfold demo_run_tag.
  rewrite (run_tag_missing_loop_tof nat nat demo_fit demo_best demo_split demo_log demo_cwd
             demo_unpickle_failure demo_read_csv_failure "op"
             targetless_table targetless_world H); [reflexivity|].
  intros Hin. absurd_member Hin.
Defined.

Lemma main_missing_first_file_witness :
  lookup demo_cwd empty_world "../training-data/ml_data_op_steady.csv" = inl Posix.ENOENT
  /\ fst (demo_main empty_world)
     = Raise (FileNotFoundError "../training-data/ml_data_op_steady.csv").
Proof.
  assert (H : lookup demo_cwd empty_world "../training-data/ml_data_op_steady.csv"
              = inl Posix.ENOENT) by (vm_compute; reflexivity).
  split; [exact H|]. unfold demo_main.
  now rewrite (main_missing_first_file nat nat demo_fit demo_best demo_split demo_log demo_cwd
                 demo_unpickle_failure demo_read_csv_failure empty_world H).
Defined.

Lemma run_tag_log_arguments_witness :
  exists encoded : DataFrame,
    heap (snd (demo_run_tag "op" demo_world)) !! 2 = Some encoded
    /\ Forall (fun r0 : row => PrimFloat.leb tol (abs (cell 1 r0)) = true)
         (filter (fun r0 : row => keep (cell 1 r0)) (rows demo_table)).
Proof.
  assert (H : open_file demo_cwd demo_world (csv_path "op") = Ok (CsvFile demo_table))
    by (vm_compute; reflexivity).
  destruct (run_tag_log_arguments nat nat demo_fit demo_best demo_split demo_log demo_cwd
              demo_unpickle_failure demo_read_csv_failure "op"
              demo_table 1 demo_world _ _ H demo_table_wf eq_refl (surjective_pairing _))
    as (encoded & Hh & _ & Hall).
  exists encoded. split; [exact Hh | exact Hall].
Defined.

Lemma main_completed_artifacts_witness :
  exists g_op : nat,
    open_file demo_cwd (snd (demo_main demo_world))
      "../grid-search-results/op_steady/rf_reg_op.pkl" = Ok (PickleFile (SearchObj g_op))
    /\ open_file demo_cwd (snd (demo_main demo_world))
         "../grid-search-results/op_steady/rf_reg_op-best-estm.pkl"
       = Ok (PickleFile (EstimatorObj (demo_best g_op))).
Proof.
  destruct (demo_main demo_world) as [[[]|e] w'] eqn:E.
  2:{ exfalso. vm_compute in E. discriminate E. }
  destruct (main_completed_artifacts nat nat demo_fit demo_best demo_split demo_log demo_cwd
              demo_unpickle_failure demo_read_csv_failure demo_world w' E)
    as (_ & _ & _ & _ & g_op & _ & _ & _ & H1 & H2 & _).
  exists g_op. cbn [snd]. split; [exact H1 | exact H2].
Defined.

Lemma main_footprint_witness :
  fs (snd (demo_main stale_world)) !! realpath demo_cwd "../training-data/ml_data_op_steady.csv"
  = Some (CsvFile demo_table).
Proof.
  destruct (main_footprint nat nat demo_fit demo_best demo_split demo_log demo_cwd
              demo_unpickle_failure demo_read_csv_failure stale_world
              _ _ (surjective_pairing _)) as (_ & Hop & _).
  unfold demo_main. rewrite Hop. vm_compute. reflexivity.
Defined.

Lemma split_train_test_check_never_fires_witness :
  fst (split_train_test demo_split 0 "loop-tof" ["temp"] 0x1.999999999999ap-4%float SEED true
         cached_world)
  <> Raise (ValueError "X_train and Y_train have different number of samples").
Proof.
  exact (split_train_test_check_never_fires demo_perm demo_perm_spec 0 "loop-tof" ["temp"]
           0x1.999999999999ap-4%float SEED true cached_world _ _ (surjective_pairing _)).
Defined.

Lemma split_train_test_partition_witness :
  exists (X_train X_test : DataFrame) (Y_train Y_test : ndarray)
         (ind_train ind_test : list nat),
    fst (split_train_test demo_split 0 "loop-tof" ["temp"] 0x1.999999999999ap-4%float SEED
           true cached_world) = Ok (X_train, X_test, Y_train, Y_test)
    /\ ind_test ++ ind_train ≡ₚ seq 0 12
    /\ nrows X_train = length ind_train
    /\ nrows X_test = length ind_test.
Proof.
  destruct (split_train_test demo_split 0 "loop-tof" ["temp"] 0x1.999999999999ap-4%float
              SEED true cached_world) as [[[[[Xtr Xte] Ytr] Yte]|e] w'] eqn:E.
  2:{ exfalso. vm_compute in E. discriminate E. }
  destruct (split_train_test_partition demo_perm demo_perm_spec 0 "loop-tof" ["temp"]
              0x1.999999999999ap-4%float SEED true cached_world w' Xtr Xte Ytr Yte E)
    as (d & X & s & itr & ite & ytr & yte & Hd & _ & _ & Hperm & _ & _ & H1 & H2 & _).
  exists Xtr, Xte, Ytr, Yte, itr, ite. split; [reflexivity|].
  injection Hd as <-. auto.
Defined.
